(** * pex.bin.pex: build orchestration, interpreter and platform selection,
      cache seeding

    A shallow embedding of [src/pex/bin/pex.py] ([build_pex], [main],
    [seed_cache]) and the properties of its specification.

    Conventions of the embedding.
    - [main] is modelled from its first line: the legacy rewriting and the
      split of the arguments (lines 879-887), [configure_clp] (line 881) and
      [parser.parse_args] (line 889).  Of [configure_clp] (lines 87-646), which
      builds the parser, the model keeps the one call that has an effect in
      its vocabulary, [PythonInterpreter.get()] at line 320.  Reading the
      arguments one by one is argparse's work and a field of [World]; the
      exclusive group that [configure_clp_pex_options] declares (lines
      169-193) is written out in [parse_args].
    - Everything the module imports from the rest of pex or from the Python
      library (the file system, interpreter identification, the resolver, the
      builder's archive writer) is a field of the record [World].  A
      collaborator whose failure is not handled in this module is total, or
      fails with the exception [External].
    - Effects are explicit: a computation takes the mutable [State] (temporary
      directory counter, the shared cache) and returns an [Outcome], the new
      state and the list of [Event]s it emitted, in order. *)

From Stdlib Require Import ZArith Ascii String List Lia.
From stdpp Require Import base list strings gmap.
Import ListNotations.
Open Scope string_scope.
Open Scope list_scope.

(** ** Exit statuses (lines 49-50) *)

Definition CANNOT_SETUP_INTERPRETER : Z := 102.
Definition INVALID_OPTIONS : Z := 103.

(** [die(msg, exit_code)] of pex.common: the status is either given at the
    call or left to the default of [die], the generic fatal-error status. *)
Inductive ExitStatus :=
| DieDefault
| Status (n : Z).

#[global] Instance ExitStatus_eq_dec : EqDecision ExitStatus.
Proof. solve_decision. Defined.

(** ** Data model *)

(** A structured platform tag.  An element of [options.platforms] is
    [None] for the sentinel [current] ([parsed_platform] returns [None]). *)
Record Platform := mkPlatform {
  plat_platform : string;
  plat_impl : string;
  plat_version : string;
  plat_abi : string
}.

#[global] Instance Platform_eq_dec : EqDecision Platform.
Proof. solve_decision. Defined.

#[global] Instance Platform_countable : Countable Platform.
Proof.
  refine (inj_countable'
            (fun p => (plat_platform p, plat_impl p, plat_version p, plat_abi p))
            (fun t => match t with (a, b, c, d) => mkPlatform a b c d end) _).
  by intros [].
Defined.

Definition PlatformTag := option Platform.

(** An interpreter descriptor; [supported_platforms] is a frozenset. *)
Record PythonInterpreter := mkInterpreter {
  binary : string;
  version : nat * nat * nat;
  supported_platforms : gset Platform
}.

#[global] Instance PythonInterpreter_eq_dec : EqDecision PythonInterpreter.
Proof. solve_decision. Defined.

Inductive BinPath := BinPath_FALSE | BinPath_PREPEND | BinPath_APPEND.
Inductive Layout := ZIPAPP | PACKED | LOOSE.
Inductive InheritPath := InheritPath_FALSE | InheritPath_FALLBACK | InheritPath_PREFER.
Inductive Seed := Seed_NONE | Seed_ARGS | Seed_VERBOSE.

#[global] Instance BinPath_eq_dec : EqDecision BinPath.
Proof. solve_decision. Defined.

#[global] Instance Layout_eq_dec : EqDecision Layout.
Proof. solve_decision. Defined.

#[global] Instance InheritPath_eq_dec : EqDecision InheritPath.
Proof. solve_decision. Defined.

#[global] Instance Seed_eq_dec : EqDecision Seed.
Proof. solve_decision. Defined.

(** The namespace produced by the argument parser, with the defaults of
    [configure_clp] in the types: an option that defaults to [None] is an
    [option], [--venv] is [None] for its default [False]. *)
Record Options := mkOptions {
  requirements : list string;
  (* resolution *)
  pex_path : option string;
  disable_cache : bool;
  cache_dir : option string;
  pex_repository : option string;
  (* output *)
  include_tools : bool;
  zip_safe : option bool;
  layout : Layout;
  unzip : option bool;
  venv : option BinPath;
  venv_copies : bool;
  always_write_cache : option bool;
  ignore_errors : bool;
  inherit_path : InheritPath;
  compile : bool;
  use_system_time : bool;
  runtime_pex_root : option string;
  strip_pex_env : bool;
  (* environment *)
  python : list string;
  python_path : option string;
  interpreter_constraint : list string;
  rc_file : option string;
  python_shebang : option string;
  platforms : list PlatformTag;
  resolve_local_platforms : bool;
  (* entry points *)
  entry_point : option string;
  script : option string;
  validate_ep : bool;
  (* general *)
  pex_name : option string;
  preamble_file : option string;
  sources_directory : list string;
  resources_directory : list string;
  requirement_files : list string;
  constraint_files : list string;
  requirements_pexes : list string;
  verbosity : nat;
  emit_warnings : bool;
  pex_root : option string;
  tmpdir : string;
  seed : Seed
}.

(** Python truthiness of an optional string: [None] and [""] are false. *)
Definition truthy (o : option string) : bool :=
  match o with
  | Some s => negb (String.eqb s "")
  | None => false
  end.

(** Truthiness of a list: non-empty. *)
Definition nonempty {A} (l : list A) : bool :=
  match l with
  | [] => false
  | _ :: _ => true
  end.

(** Truthiness of an object that is [None] or not. *)
Definition is_some {A} (o : option A) : bool :=
  match o with
  | Some _ => true
  | None => false
  end.

(** ** pex.resolve.resolve_configuration *)

Inductive Repository :=
| PexRepository (pex : string)
| ReposConfiguration (indexes find_links : list string) (resolver_version : string).

#[global] Instance Repository_eq_dec : EqDecision Repository.
Proof. solve_decision. Defined.

Record ResolveConfiguration := mkResolveConfiguration {
  repository : Repository;
  network_configuration : string;
  allow_prereleases : bool;
  allow_wheels : bool;
  allow_builds : bool;
  assume_manylinux : option string;
  transitive : bool;
  max_jobs : nat
}.

Record InstalledDistribution := mkInstalledDistribution {
  distribution : string;
  direct_requirement : option string
}.

#[global] Instance InstalledDistribution_eq_dec : EqDecision InstalledDistribution.
Proof. solve_decision. Defined.

(** The keyword arguments of the two resolver calls (lines 804-837). *)
Record ResolveFromPexArgs := mkResolveFromPexArgs {
  rp_pex : Repository;
  rp_requirements : list string;
  rp_requirement_files : list string;
  rp_constraint_files : list string;
  rp_network_configuration : string;
  rp_transitive : bool;
  rp_interpreters : list PythonInterpreter;
  rp_platforms : list PlatformTag;
  rp_manylinux : option string;
  rp_ignore_errors : bool
}.

#[global] Instance ResolveFromPexArgs_eq_dec : EqDecision ResolveFromPexArgs.
Proof. solve_decision. Defined.

Record ResolveArgs := mkResolveArgs {
  r_requirements : list string;
  r_requirement_files : list string;
  r_constraint_files : list string;
  r_allow_prereleases : bool;
  r_transitive : bool;
  r_interpreters : list PythonInterpreter;
  r_platforms : list PlatformTag;
  r_indexes : list string;
  r_find_links : list string;
  r_resolver_version : string;
  r_network_configuration : string;
  r_cache : option string;
  r_build : bool;
  r_use_wheel : bool;
  r_compile : bool;
  r_manylinux : option string;
  r_max_parallel_jobs : nat;
  r_ignore_errors : bool
}.

#[global] Instance ResolveArgs_eq_dec : EqDecision ResolveArgs.
Proof. solve_decision. Defined.

(** ** The builder workspace *)

Record PexInfo := mkPexInfo {
  info_venv : bool;
  info_venv_bin_path : BinPath;
  info_venv_copies : bool;
  info_includes_tools : bool;
  info_pex_path : option string;
  info_ignore_errors : bool;
  info_emit_warnings : bool;
  info_inherit_path : InheritPath;
  info_pex_root : option string;
  info_strip_pex_env : bool
}.

#[global] Instance PexInfo_eq_dec : EqDecision PexInfo.
Proof. solve_decision. Defined.

Record PEXBuilder := mkPEXBuilder {
  b_path : string;
  b_interpreter : option PythonInterpreter;
  b_preamble : option string;
  b_sources : list (string * string);
  b_info : option PexInfo;
  b_interpreter_constraints : list string;
  b_requirements_pexes : list string;
  b_distributions : list string;
  b_requirements : list string;
  b_entry_point : option string;
  b_script : option string;
  b_shebang : option string
}.

#[global] Instance PEXBuilder_eq_dec : EqDecision PEXBuilder.
Proof. solve_decision. Defined.

(** The [PEX] object of line 945 and what [pex.pex_info()] exposes of its
    metadata to [seed_cache]. *)
Record PEX := mkPEX {
  pex_dir : string;
  pex_interpreter : PythonInterpreter;
  pex_verify_entry_point : bool
}.

#[global] Instance PEX_eq_dec : EqDecision PEX.
Proof. solve_decision. Defined.

Record SeedPexInfo := mkSeedPexInfo {
  seed_pex_root : string;
  seed_pex_hash : option string
}.

(** ** Exceptions, events, outcomes *)

Inductive Exn :=
| AssertionError (msg : string)
| KeyError
| TypeError
| UnsatisfiableInterpreterConstraintsError
    (constraints : list string) (path : option string)
| Unsatisfiable (msg : string)
| InvalidConfigurationError (msg : string)
| External (callee : string).

#[global] Instance Exn_eq_dec : EqDecision Exn.
Proof. solve_decision. Defined.

Inductive Probe :=
| ProbeBinary (path : string)
| ProbeEnv (name : string)
| ProbeSearch (path : option string) (constraints : list string)
| ProbeCurrent.

#[global] Instance Probe_eq_dec : EqDecision Probe.
Proof. solve_decision. Defined.

(** Labels of [TRACER.timed] blocks and [TRACER.log] lines. *)
Inductive TraceLabel :=
| ResolvingInterpreters
| SearchingLocalInterpreters (platforms : list PlatformTag)
| ResolvedPlatform (i : PythonInterpreter) (p : Platform)
| CouldNotResolveLocal (platforms : list PlatformTag)
| ResolvingDistributions (reqs : list string)
| ResolvingFromPex (pex : option string)
| ResolvingRequirements
| BuildingPex
| SeedingLocalCaches (pex_path : string)
| CreatingVenv (pex_path : string)
| SeedingCaches (pex_path : string).

#[global] Instance TraceLabel_eq_dec : EqDecision TraceLabel.
Proof. solve_decision. Defined.

Inductive Event :=
| EvWarn (msg : string)
| EvTracer (l : TraceLabel)
| EvValidateConstraints (constraints : list string)
| EvProbe (p : Probe)
| EvMkdtemp (dir : string)
| EvSetTmpdir (dir : string)
| EvEnvPatch (verbose : nat) (root : string) (tmp : string)
| EvResolveFromPex (a : ResolveFromPexArgs)
| EvResolve (a : ResolveArgs)
| EvFreeze (bytecode_compile : bool)
| EvBuild (name : string) (bytecode_compile deterministic_timestamp : bool) (l : Layout)
| EvInstall (pex root hash : string)
| EvCreateVenv (dir : string)
| EvStderr (msg : string)
| EvStdout (msg : string)
| EvRun (p : PEX) (args : list string).

#[global] Instance Event_eq_dec : EqDecision Event.
Proof. solve_decision. Defined.

Inductive Outcome (A : Type) :=
| Ok (a : A)
| Died (msg : string) (status : ExitStatus)
| Exited (code : Z)
| Raised (e : Exn).
Arguments Ok {A} a.
Arguments Died {A} msg status.
Arguments Exited {A} code.
Arguments Raised {A} e.

#[global] Instance Outcome_eq_dec {A} `{EqDecision A} : EqDecision (Outcome A).
Proof. solve_decision. Defined.

(** The mutable world: [fresh] numbers the directories [safe_mkdtemp] hands
    out; [cache] holds the installed entries of the shared cache, keyed by
    cache root and content hash; [venvs] the materialized environments. *)
Record State := mkState {
  fresh : nat;
  cache : gset (string * string);
  venvs : gset string
}.

#[global] Instance State_eq_dec : EqDecision State.
Proof. solve_decision. Defined.

Definition M (A : Type) : Type := State -> Outcome A * State * list Event.

Definition ret {A} (a : A) : M A := fun s => (Ok a, s, []).

Definition bind {A B} (m : M A) (k : A -> M B) : M B :=
  fun s =>
    match m s with
    | (Ok a, s1, t1) =>
        match k a s1 with
        | (r, s2, t2) => (r, s2, t1 ++ t2)
        end
    | (Died msg st, s1, t1) => (Died msg st, s1, t1)
    | (Exited c, s1, t1) => (Exited c, s1, t1)
    | (Raised e, s1, t1) => (Raised e, s1, t1)
    end.

Notation "x <- m ;; k" := (bind m (fun x => k))
  (at level 100, m at next level, right associativity).
Notation "m ;; k" := (bind m (fun _ => k))
  (at level 100, right associativity).

Definition tell (e : Event) : M unit := fun s => (Ok tt, s, [e]).
Definition raise {A} (e : Exn) : M A := fun s => (Raised e, s, []).
Definition die {A} (msg : string) (status : ExitStatus) : M A :=
  fun s => (Died msg status, s, []).
Definition sys_exit {A} (code : Z) : M A := fun s => (Exited code, s, []).

(** [try: m except E as e: h e], for the exceptions [sel] selects. *)
Definition try_except {A} (m : M A) (sel : Exn -> option (M A)) : M A :=
  fun s =>
    match m s with
    | (Raised e, s1, t1) =>
        match sel e with
        | Some h =>
            match h s1 with
            | (r, s2, t2) => (r, s2, t1 ++ t2)
            end
        | None => (Raised e, s1, t1)
        end
    | other => other
    end.

Definition when (b : bool) (m : M unit) : M unit := if b then m else ret tt.

Fixpoint mapM {A B} (f : A -> M B) (l : list A) : M (list B) :=
  match l with
  | [] => ret []
  | x :: l' => y <- f x ;; ys <- mapM f l' ;; ret (y :: ys)
  end.

Fixpoint foldM {A B} (f : A -> B -> M A) (a : A) (l : list B) : M A :=
  match l with
  | [] => ret a
  | x :: l' => a' <- f a x ;; foldM f a' l'
  end.

Definition pex_warnings_warn (msg : string) : M unit := tell (EvWarn msg).
Definition TRACER_timed {A} (l : TraceLabel) (m : M A) : M A :=
  tell (EvTracer l) ;; m.
Definition TRACER_log (l : TraceLabel) : M unit := tell (EvTracer l).

(** [log] (lines 53-55). *)
Definition log (msg : string) (V : nat) : M unit :=
  if Nat.eqb V 0 then ret tt else tell (EvStderr msg).

(** ** External collaborators *)

(** What argparse makes of an argument list: the namespace, or the exit of
    the parser ([--help], [-V], [--help-variables], an argument it cannot
    read) with its status and what it printed on the standard output and on
    the standard error. *)
Inductive ParseResult :=
| Parsed (options : Options)
| ParserExit (code : Z) (stdout stderr : string).

(** The environment [ENV.patch] hands to the PEX it runs (lines 935-937). *)
Record PatchedEnv := mkPatchedEnv {
  env_PEX_VERBOSE : nat;
  env_PEX_ROOT : string;
  env_TMPDIR : string
}.

Record World := mkWorld {
  (* os.path, os.walk, open *)
  w_isfile : string -> bool;
  w_exists : string -> bool;
  w_isdir : string -> bool;
  w_realpath : string -> string;
  w_abspath : string -> string;
  w_normpath : string -> string;
  w_relpath : string -> string -> string;
  w_walk : string -> list (string * list string);
  w_read : string -> option string;
  w_mkdtemp : nat -> string;
  (* os.environ, ENV, Variables(rc=...) *)
  w_environ_PEX_ROOT : option string;
  w_ENV_PEX_ROOT : string;
  w_patched_PEX_ROOT : string -> string;
  w_ENV_PEX_IGNORE_RCFILES : bool;
  w_rc_PEX_PYTHON_PATH : option string -> option string;
  (* PythonInterpreter, interpreter constraints *)
  w_from_binary : string -> option PythonInterpreter;
  w_from_env : string -> option PythonInterpreter;
  w_get : PythonInterpreter;
  w_iter_candidates : option string -> list PythonInterpreter;
  w_matches : PythonInterpreter -> string -> bool;
  w_well_formed : string -> bool;
  w_create_message : list string -> option string -> string -> string;
  (* resolver *)
  w_create_resolve_configuration : Options -> string + ResolveConfiguration;
  w_resolve_from_pex : ResolveFromPexArgs -> string + list InstalledDistribution;
  w_resolve : ResolveArgs -> string + list InstalledDistribution;
  (* PEX, PexInfo, layout, venv *)
  w_PexInfo_PATH : string;
  w_pex_info : PEX -> SeedPexInfo;
  w_builder_interpreter : PEXBuilder -> PythonInterpreter;
  w_interpreter_platform : PythonInterpreter -> string;
  w_platform_str : PlatformTag -> string;
  w_needs_install : option string -> bool;
  w_venv_pex : PEX -> string;
  w_json_dumps : list (string * string) -> string;
  w_repr : list string -> string;
  (* pex.run: the exit status of the PEX, what running it does to the
     shared cache and the venvs, and the events of the run *)
  w_run : PEX -> list string -> PatchedEnv -> State -> Z * State * list Event;
  (* sys.argv, InheritPath.PREFER.value, argparse *)
  w_sys_argv : list string;
  w_InheritPath_PREFER : string;
  w_parse_args : list string -> ParseResult;
  w_parser_error : list string -> string;
  (* PEXBuilder.add_from_requirements_pex: the distributions and the
     requirements it takes from the given PEX *)
  w_requirements_pex : string -> list string * list string
}.

(** ** Helpers from the Python library *)

(** [os.path.join a b] on POSIX paths. *)
Definition ends_with_slash (a : string) : bool :=
  match rev (list_ascii_of_string a) with
  | c :: _ => Ascii.eqb c "/"%char
  | [] => false
  end.

Definition os_path_join (a b : string) : string :=
  if String.prefix "/" b then b
  else if String.eqb a "" then b
  else if ends_with_slash a then a +:+ b
  else a +:+ "/" +:+ b.

(** [pex.orderedset.OrderedSet]: a set that iterates in insertion order. *)
Definition OrderedSet_add {A} `{EqDecision A} (s : list A) (x : A) : list A :=
  if decide (x ∈ s) then s else s ++ [x].

Definition OrderedSet {A} `{EqDecision A} (l : list A) : list A :=
  fold_left OrderedSet_add l [].

(** [remove] raises [KeyError] on a missing element. *)
Definition OrderedSet_remove {A} `{EqDecision A} (s : list A) (x : A) : M (list A) :=
  if decide (x ∈ s) then ret (filter (fun y => y ≠ x) s) else raise KeyError.

Definition safe_mkdtemp (w : World) : M string :=
  fun s =>
    let d := w_mkdtemp w (fresh s) in
    (Ok d, mkState (S (fresh s)) (cache s) (venvs s), [EvMkdtemp d]).

(** ** Interpreter selection (lines 657-693) *)

(** Modelled from the spec: [pex.pex_bootstrapper.iter_compatible_interpreters]
    is imported, not defined in this module.  Every interpreter reachable on
    the effective search path is probed and kept if it satisfies at least one
    constraint (all are kept when there is no constraint); if constraints were
    given and none is satisfied, the unsatisfiable-constraints condition is
    raised, carrying the attempted constraints and the search path.  The
    generator is consumed at once ([list(...)], [OrderedSet(...)]). *)
Definition iter_compatible_interpreters (w : World) (path : option string)
    (interpreter_constraints : list string) : M (list PythonInterpreter) :=
  tell (EvProbe (ProbeSearch path interpreter_constraints)) ;;
  let found :=
    List.filter
      (fun i => negb (nonempty interpreter_constraints)
                || existsb (w_matches w i) interpreter_constraints)
      (w_iter_candidates w path) in
  if negb (nonempty found) && nonempty interpreter_constraints
  then raise (UnsatisfiableInterpreterConstraintsError interpreter_constraints path)
  else ret found.

(** Modelled from the spec: [pex.interpreter_constraints.validate_constraints]
    is imported, not defined in this module.  It checks the syntax of every
    constraint and fails on a malformed one, without probing interpreters. *)
Definition validate_constraints (w : World) (constraints : list string) : M unit :=
  tell (EvValidateConstraints constraints) ;;
  if forallb (w_well_formed w) constraints
  then ret tt
  else raise (External "validate_constraints").

Definition build_pex_python_path (w : World) (options : Options) : option string :=
  match python_path options with
  | None =>
      if truthy (rc_file options) || negb (w_ENV_PEX_IGNORE_RCFILES w)
      then w_rc_PEX_PYTHON_PATH w (rc_file options)
      else None
  | Some p => Some p
  end.

Definition to_python_interpreter (w : World) (full_path_or_basename : string)
    : M PythonInterpreter :=
  if w_isfile w full_path_or_basename then
    tell (EvProbe (ProbeBinary full_path_or_basename)) ;;
    match w_from_binary w full_path_or_basename with
    | Some interp => ret interp
    | None => raise (External "PythonInterpreter.from_binary")
    end
  else
    tell (EvProbe (ProbeEnv full_path_or_basename)) ;;
    match w_from_env w full_path_or_basename with
    | Some interp => ret interp
    | None => die ("Failed to find interpreter: " +:+ full_path_or_basename) DieDefault
    end.

(** Lines 666-693; [None] stands for [interpreters = None]. *)
Definition build_pex_interpreters (w : World) (options : Options)
    (pex_python_path : option string) : M (option (list PythonInterpreter)) :=
  if nonempty (python options) then
    TRACER_timed ResolvingInterpreters
      (interpreters <- mapM (to_python_interpreter w) (python options) ;;
       ret (Some interpreters))
  else if nonempty (interpreter_constraint options) then
    TRACER_timed ResolvingInterpreters
      (let constraints := interpreter_constraint options in
       validate_constraints w constraints ;;
       try_except
         (interpreters <- iter_compatible_interpreters w pex_python_path constraints ;;
          ret (Some interpreters))
         (fun e =>
            match e with
            | UnsatisfiableInterpreterConstraintsError cs p =>
                Some (die (w_create_message w cs p
                             "Could not find a compatible interpreter.")
                          (Status CANNOT_SETUP_INTERPRETER))
            | _ => None
            end))
  else ret None.

(** ** Platform matching (lines 695-723) *)

(** One iteration of the loop over the candidate interpreters
    (lines 704-715). *)
Definition resolve_candidate (candidate_interpreter : PythonInterpreter)
    (acc : list PlatformTag * list PythonInterpreter)
    : M (list PlatformTag * list PythonInterpreter) :=
  let resolved_platforms :=
    elements (filter (fun p => Some p ∈ fst acc)
                     (supported_platforms candidate_interpreter)) in
  if nonempty resolved_platforms then
    platforms' <-
      foldM (fun pl resolved_platform =>
               TRACER_log (ResolvedPlatform candidate_interpreter resolved_platform) ;;
               OrderedSet_remove pl (Some resolved_platform))
            (fst acc) resolved_platforms ;;
    ret (platforms', snd acc ++ [candidate_interpreter])
  else ret acc.

Definition build_pex_platforms (w : World) (options : Options)
    (pex_python_path : option string) (interpreters : list PythonInterpreter)
    : M (list PlatformTag * list PythonInterpreter) :=
  let platforms0 := OrderedSet (platforms options) in
  if nonempty (platforms options) && resolve_local_platforms options then
    r <- TRACER_timed (SearchingLocalInterpreters platforms0)
           (found <- iter_compatible_interpreters w pex_python_path [] ;;
            tell (EvProbe ProbeCurrent) ;;
            let candidate_interpreters := OrderedSet_add (OrderedSet found) (w_get w) in
            foldM (fun acc c => resolve_candidate c acc)
                  (platforms0, interpreters) candidate_interpreters) ;;
    when (nonempty (fst r)) (TRACER_log (CouldNotResolveLocal (fst r))) ;;
    ret r
  else ret (platforms0, interpreters).

(** ** The primary interpreter (lines 725-729) *)

(** [a] is preferred to [b]: an older release line (major, minor), or the
    same line and a newer patch release. *)
Definition preferred (a b : PythonInterpreter) : bool :=
  match version a, version b with
  | (ma, na, pa), (mb, nb, pb) =>
      (ma <? mb)%nat
      || ((ma =? mb)%nat && (na <? nb)%nat)
      || ((ma =? mb)%nat && (na =? nb)%nat && (pb <? pa)%nat)
  end.

(** Modelled from the spec: [PythonInterpreter.
    latest_release_of_min_compatible_version] is imported, not defined in this
    module.  Among the candidates it takes the minimum compatible version (the
    lowest release line) and of that the latest release; the first such
    candidate wins.  [None] stands for the failed assertion on an empty
    list. *)
Definition latest_release_of_min_compatible_version
    (interps : list PythonInterpreter) : option PythonInterpreter :=
  match interps with
  | [] => None
  | i :: rest =>
      Some (fold_left (fun best c => if preferred c best then c else best) rest i)
  end.

Record BuildPlan := mkBuildPlan {
  plan_interpreter : option PythonInterpreter;
  plan_interpreters : list PythonInterpreter;
  plan_platforms : list PlatformTag
}.

#[global] Instance BuildPlan_eq_dec : EqDecision BuildPlan.
Proof. solve_decision. Defined.

(** Lines 657-729. *)
Definition build_pex_plan (w : World) (options : Options) : M BuildPlan :=
  let pex_python_path := build_pex_python_path w options in
  selected <- build_pex_interpreters w options pex_python_path ;;
  let interpreters :=
    match selected with
    | Some l => if nonempty l then l else []
    | None => []
    end in
  r <- build_pex_platforms w options pex_python_path interpreters ;;
  let interpreter :=
    if nonempty (snd r)
    then latest_release_of_min_compatible_version (snd r)
    else None in
  ret (mkBuildPlan interpreter (snd r) (fst r)).

(** ** The builder workspace (lines 731-796) *)

Definition empty_builder (path : string) (interpreter : option PythonInterpreter)
    (preamble : option string) : PEXBuilder :=
  mkPEXBuilder path interpreter preamble [] None [] [] [] [] None None None.

Definition add_source (b : PEXBuilder) (src dst : string) : PEXBuilder :=
  mkPEXBuilder (b_path b) (b_interpreter b) (b_preamble b)
    (b_sources b ++ [(src, dst)]) (b_info b) (b_interpreter_constraints b)
    (b_requirements_pexes b) (b_distributions b) (b_requirements b)
    (b_entry_point b) (b_script b) (b_shebang b).

Definition set_info (b : PEXBuilder) (i : PexInfo) : PEXBuilder :=
  mkPEXBuilder (b_path b) (b_interpreter b) (b_preamble b)
    (b_sources b) (Some i) (b_interpreter_constraints b)
    (b_requirements_pexes b) (b_distributions b) (b_requirements b)
    (b_entry_point b) (b_script b) (b_shebang b).

Definition add_interpreter_constraint (b : PEXBuilder) (ic : string) : PEXBuilder :=
  mkPEXBuilder (b_path b) (b_interpreter b) (b_preamble b)
    (b_sources b) (b_info b) (b_interpreter_constraints b ++ [ic])
    (b_requirements_pexes b) (b_distributions b) (b_requirements b)
    (b_entry_point b) (b_script b) (b_shebang b).

(** Modelled from the help of [--requirements-pex] (line 581, ``Add
    requirements from the given .pex file''): [PEXBuilder] is imported, not
    defined in this module.  The call is recorded, and the builder takes the
    distributions and the requirements of the given PEX. *)
Definition add_from_requirements_pex (w : World) (b : PEXBuilder) (p : string)
    : PEXBuilder :=
  mkPEXBuilder (b_path b) (b_interpreter b) (b_preamble b)
    (b_sources b) (b_info b) (b_interpreter_constraints b)
    (b_requirements_pexes b ++ [p])
    (b_distributions b ++ fst (w_requirements_pex w p))
    (b_requirements b ++ snd (w_requirements_pex w p))
    (b_entry_point b) (b_script b) (b_shebang b).

Definition add_distribution (b : PEXBuilder) (d : string) : PEXBuilder :=
  mkPEXBuilder (b_path b) (b_interpreter b) (b_preamble b)
    (b_sources b) (b_info b) (b_interpreter_constraints b)
    (b_requirements_pexes b) (b_distributions b ++ [d]) (b_requirements b)
    (b_entry_point b) (b_script b) (b_shebang b).

Definition add_requirement (b : PEXBuilder) (r : string) : PEXBuilder :=
  mkPEXBuilder (b_path b) (b_interpreter b) (b_preamble b)
    (b_sources b) (b_info b) (b_interpreter_constraints b)
    (b_requirements_pexes b) (b_distributions b) (b_requirements b ++ [r])
    (b_entry_point b) (b_script b) (b_shebang b).

Definition set_entry_point (b : PEXBuilder) (e : option string) : PEXBuilder :=
  mkPEXBuilder (b_path b) (b_interpreter b) (b_preamble b)
    (b_sources b) (b_info b) (b_interpreter_constraints b)
    (b_requirements_pexes b) (b_distributions b) (b_requirements b)
    e (b_script b) (b_shebang b).

Definition set_script (b : PEXBuilder) (s : option string) : PEXBuilder :=
  mkPEXBuilder (b_path b) (b_interpreter b) (b_preamble b)
    (b_sources b) (b_info b) (b_interpreter_constraints b)
    (b_requirements_pexes b) (b_distributions b) (b_requirements b)
    (b_entry_point b) s (b_shebang b).

Definition set_shebang (b : PEXBuilder) (s : option string) : PEXBuilder :=
  mkPEXBuilder (b_path b) (b_interpreter b) (b_preamble b)
    (b_sources b) (b_info b) (b_interpreter_constraints b)
    (b_requirements_pexes b) (b_distributions b) (b_requirements b)
    (b_entry_point b) (b_script b) s.

(** Lines 731-741. *)
Definition build_pex_builder (w : World) (options : Options)
    (interpreter : option PythonInterpreter) : M PEXBuilder :=
  preamble <-
    (if truthy (preamble_file options) then
       match preamble_file options with
       | Some f =>
           match w_read w f with
           | Some text => ret (Some text)
           | None => raise (External "open")
           end
       | None => ret None
       end
     else ret None) ;;
  path <- safe_mkdtemp w ;;
  ret (empty_builder path interpreter preamble).

Definition warn_resources_directory : string :=
  "The `-R/--resources-directory` option is deprecated. Resources should be added via `-D/--sources-directory` instead.".

Definition warn_zip_safe : string :=
  "The `--zip-safe/--not-zip-safe` option is deprecated. This option is no longer used since user code is now always unzipped before execution.".

Definition warn_unzip : string :=
  "The `--unzip/--no-unzip` option is deprecated. This option is no longer used since unzipping PEX zip files before execution is now the default.".

Definition warn_always_write_cache : string :=
  "The `--always-write-cache` option is deprecated. This option is no longer used; all internally cached distributions in a PEX are always installed into the local Pex dependency cache.".

(** Lines 743-766. *)
Definition build_pex_deprecations (options : Options) : M unit :=
  when (nonempty (resources_directory options))
       (pex_warnings_warn warn_resources_directory) ;;
  when (is_some (zip_safe options)) (pex_warnings_warn warn_zip_safe) ;;
  when (is_some (unzip options)) (pex_warnings_warn warn_unzip) ;;
  when (is_some (always_write_cache options))
       (pex_warnings_warn warn_always_write_cache).

(** Lines 768-777. *)
Definition build_pex_sources (w : World) (options : Options) (b : PEXBuilder)
    : PEXBuilder :=
  let directories :=
    OrderedSet (sources_directory options ++ resources_directory options) in
  fold_left
    (fun b directory =>
       let src_dir := w_normpath w directory in
       fold_left
         (fun b (entry : string * list string) =>
            fold_left
              (fun b f =>
                 let src_file_path := os_path_join (fst entry) f in
                 let dst_path := w_relpath w src_file_path src_dir in
                 add_source b src_file_path dst_path)
              (snd entry) b)
         (w_walk w src_dir) b)
    directories b.

(** Lines 779-796. *)
Definition build_pex_info (w : World) (options : Options) (b : PEXBuilder)
    : PEXBuilder :=
  let pex_info :=
    mkPexInfo (is_some (venv options))
              (match venv options with Some v => v | None => BinPath_FALSE end)
              (venv_copies options)
              (include_tools options || is_some (venv options))
              (pex_path options)
              (ignore_errors options)
              (emit_warnings options)
              (inherit_path options)
              (runtime_pex_root options)
              (strip_pex_env options) in
  let b := set_info b pex_info in
  let b :=
    if nonempty (interpreter_constraint options)
    then fold_left add_interpreter_constraint (interpreter_constraint options) b
    else b in
  fold_left (add_from_requirements_pex w) (requirements_pexes options) b.

(** ** Dependency resolution (lines 798-844) *)

Definition resolve_from_pex (w : World) (a : ResolveFromPexArgs)
    : M (list InstalledDistribution) :=
  tell (EvResolveFromPex a) ;;
  match w_resolve_from_pex w a with
  | inl msg => raise (Unsatisfiable msg)
  | inr installed_distributions => ret installed_distributions
  end.

Definition resolve (w : World) (a : ResolveArgs) : M (list InstalledDistribution) :=
  tell (EvResolve a) ;;
  match w_resolve w a with
  | inl msg => raise (Unsatisfiable msg)
  | inr installed_distributions => ret installed_distributions
  end.

Definition build_pex_resolve (w : World) (reqs : list string)
    (resolve_configuration : ResolveConfiguration) (options : Options)
    (cache : option string) (interpreters : list PythonInterpreter)
    (platforms : list PlatformTag) (b : PEXBuilder) : M PEXBuilder :=
  TRACER_timed (ResolvingDistributions (reqs ++ requirement_files options))
    (try_except
       (installed_distributions <-
          match repository resolve_configuration with
          | PexRepository _ =>
              TRACER_timed (ResolvingFromPex (pex_repository options))
                (resolve_from_pex w
                   (mkResolveFromPexArgs
                      (repository resolve_configuration)
                      reqs
                      (requirement_files options)
                      (constraint_files options)
                      (network_configuration resolve_configuration)
                      (transitive resolve_configuration)
                      interpreters
                      platforms
                      (assume_manylinux resolve_configuration)
                      (ignore_errors options)))
          | ReposConfiguration indexes find_links resolver_version =>
              TRACER_timed ResolvingRequirements
                (resolve w
                   (mkResolveArgs
                      reqs
                      (requirement_files options)
                      (constraint_files options)
                      (allow_prereleases resolve_configuration)
                      (transitive resolve_configuration)
                      interpreters
                      platforms
                      indexes
                      find_links
                      resolver_version
                      (network_configuration resolve_configuration)
                      cache
                      (allow_builds resolve_configuration)
                      (allow_wheels resolve_configuration)
                      (compile options)
                      (assume_manylinux resolve_configuration)
                      (max_jobs resolve_configuration)
                      (ignore_errors options)))
          end ;;
        ret (fold_left
               (fun b installed_dist =>
                  let b := add_distribution b (distribution installed_dist) in
                  match direct_requirement installed_dist with
                  | Some r => add_requirement b r
                  | None => b
                  end)
               installed_distributions b))
       (fun e =>
          match e with
          | Unsatisfiable msg => Some (die msg DieDefault)
          | _ => None
          end)).

(** ** Entry point (lines 846-857) *)

Definition build_pex_entry_point (options : Options) (b : PEXBuilder) : M PEXBuilder :=
  (if truthy (entry_point options) && truthy (script options)
   then die "Must specify at most one entry point or script." (Status INVALID_OPTIONS)
   else ret tt) ;;
  let b :=
    if truthy (entry_point options) then set_entry_point b (entry_point options)
    else if truthy (script options) then set_script b (script options)
    else b in
  let b :=
    if truthy (python_shebang options) then set_shebang b (python_shebang options)
    else b in
  ret b.

(** Lines 657-844 of [build_pex]: everything up to and including the
    registration of the resolved distributions. *)
Definition build_pex_resolved (w : World) (reqs : list string)
    (resolve_configuration : ResolveConfiguration) (options : Options)
    (cache : option string) : M PEXBuilder :=
  plan <- build_pex_plan w options ;;
  pex_builder <- build_pex_builder w options (plan_interpreter plan) ;;
  build_pex_deprecations options ;;
  let pex_builder := build_pex_sources w options pex_builder in
  let pex_builder := build_pex_info w options pex_builder in
  build_pex_resolve w reqs resolve_configuration options cache
    (plan_interpreters plan) (plan_platforms plan) pex_builder.

Definition build_pex (w : World) (reqs : list string)
    (resolve_configuration : ResolveConfiguration) (options : Options)
    (cache : option string) : M PEXBuilder :=
  pex_builder <- build_pex_resolved w reqs resolve_configuration options cache ;;
  build_pex_entry_point options pex_builder.

(** ** Cache seeding (lines 977-1016) *)

(** Modelled from the spec: [pex.pex_bootstrapper.ensure_venv] is imported,
    not defined in this module.  It materializes the isolated environment
    derived from the artifact, or reuses the previously materialized one, and
    returns the environment's entry-point path. *)
Definition ensure_venv (w : World) (pex : PEX) : M string :=
  fun s =>
    let venv_pex := w_venv_pex w pex in
    if decide (venv_pex ∈ venvs s)
    then (Ok venv_pex, s, [])
    else (Ok venv_pex,
          mkState (fresh s) (cache s) ({[ venv_pex ]} ∪ venvs s),
          [EvCreateVenv venv_pex]).

(** The directory of the cache entry for a content hash under a cache
    root. *)
Definition cache_entry (pex_root pex_hash : string) : string :=
  pex_root +:+ "/" +:+ pex_hash.

(** ["{}".format(p)] for a path that may be [None]. *)
Definition format_path (p : option string) : string :=
  match p with
  | Some s => s
  | None => "None"
  end.

(** [os.path.abspath]: a [TypeError] for [None]. *)
Definition os_path_abspath (w : World) (p : option string) : M string :=
  match p with
  | Some s => ret (w_abspath w s)
  | None => raise TypeError
  end.

(** Modelled from the spec: [pex.layout.maybe_install] is imported, not
    defined in this module.  It installs the artifact into the shared cache
    root under its content hash, or reuses the installation already keyed by
    that hash, and returns the installed directory; for an artifact that needs
    no installation (a loose layout, see the help of [--layout], lines
    345-364) it returns [None], which line 1010 covers. *)
Definition maybe_install (w : World) (pex : option string) (pex_root pex_hash : string)
    : M (option string) :=
  if w_needs_install w pex then
    fun s =>
      if decide ((pex_root, pex_hash) ∈ cache s)
      then (Ok (Some (cache_entry pex_root pex_hash)), s, [])
      else (Ok (Some (cache_entry pex_root pex_hash)),
            mkState (fresh s) ({[ (pex_root, pex_hash) ]} ∪ cache s) (venvs s),
            [EvInstall (format_path pex) pex_root pex_hash])
  else ret None.

Definition create_verbose_info (pex_root : string) (pex : PEX)
    (final_pex_path : string) : list (string * string) :=
  [("pex_root", pex_root);
   ("python", binary (pex_interpreter pex));
   ("pex", final_pex_path)].

(** [cast(str, options.pex_name)] (line 984) checks nothing at run time:
    [pex_path] is [None] when there is no [-o]. *)
Definition seed_cache (w : World) (options : Options) (pex : PEX) (verbose : bool)
    : M string :=
  let pex_path := pex_name options in
  TRACER_timed (SeedingLocalCaches (format_path pex_path))
    (let pex_info := w_pex_info w pex in
     let pex_root := seed_pex_root pex_info in
     if is_some (venv options) then
       TRACER_timed (CreatingVenv (format_path pex_path))
         (venv_pex <- ensure_venv w pex ;;
          if verbose
          then ret (w_json_dumps w (create_verbose_info pex_root pex venv_pex))
          else ret venv_pex)
     else
       match seed_pex_hash pex_info with
       | None =>
           raise (AssertionError
                    ("There was no pex_hash stored in " +:+ w_PexInfo_PATH w
                     +:+ " for " +:+ format_path pex_path +:+ "."))
       | Some pex_hash =>
           TRACER_timed (SeedingCaches (format_path pex_path))
             (installed <- maybe_install w pex_path pex_root pex_hash ;;
              directory <-
                (if truthy installed
                 then ret (match installed with Some d => d | None => "" end)
                 else os_path_abspath w pex_path) ;;
              let final_pex_path := os_path_join directory "__main__.py" in
              if verbose
              then ret (w_json_dumps w
                          (create_verbose_info pex_root pex final_pex_path))
              else ret final_pex_path)
       end).

(** ** Command-line arguments (lines 860-867 and 879-889) *)

(** Lines 860-867; [prefer] is [InheritPath.PREFER.value]. *)
Definition transform_legacy_arg (prefer : string) (arg : string) : string :=
  if String.eqb arg "--inherit-path" then "--inherit-path=" +:+ prefer else arg.

(** [list.index]: the position of the first occurrence, [None] for the
    [ValueError]. *)
Fixpoint index (x : string) (l : list string) : option nat :=
  match l with
  | [] => None
  | y :: l' => if String.eqb y x then Some 0 else option_map S (index x l')
  end.

(** Lines 879-887: the arguments to parse and the command line of the PEX. *)
Definition main_arguments (prefer : string) (args : option (list string))
    (sys_argv : list string) : list string * list string :=
  let args :=
    match args with
    | Some a => if nonempty a then a else tail sys_argv
    | None => tail sys_argv
    end in
  let args := map (transform_legacy_arg prefer) args in
  match index "--" args with
  | Some separator => (take separator args, drop (S separator) args)
  | None => (args, [])
  end.

(** [configure_clp] (lines 478-646) builds the parser.  On the way,
    [configure_clp_pex_environment] asks for the current interpreter
    (line 320) to quote its path in the help of
    [--interpreter-constraint]. *)
Definition configure_clp (w : World) : M unit :=
  tell (EvProbe ProbeCurrent).

(** What the parser printed before it exits. *)
Definition parser_output (stdout stderr : string) : M unit :=
  when (negb (String.eqb stdout "")) (tell (EvStdout stdout)) ;;
  when (negb (String.eqb stderr "")) (tell (EvStderr stderr)).

(** [parser.parse_args(args=args)] (line 889).  [--unzip/--no-unzip] and
    [--venv] are in one mutually exclusive group (lines 169-193): when both
    were given, the parser reports the error and exits with the status 2
    of [parser.error]. *)
Definition parse_args (w : World) (args : list string) : M Options :=
  match w_parse_args w args with
  | ParserExit code stdout stderr => parser_output stdout stderr ;; sys_exit code
  | Parsed options =>
      if is_some (unzip options) && is_some (venv options)
      then tell (EvStderr (w_parser_error w args)) ;; sys_exit 2
      else ret options
  end.

(** ** [main] (lines 878-974) *)

Definition dquote : string := String "034"%char EmptyString.

(** Lines 891-898. *)
Definition main_tmpdir (w : World) (options : Options) : M string :=
  let tmpdir := w_realpath w (tmpdir options) in
  (if negb (w_exists w tmpdir)
   then die ("The specified --tmpdir does not exist: " +:+ tmpdir) DieDefault
   else ret tt) ;;
  (if negb (w_isdir w tmpdir)
   then die ("The specified --tmpdir is not a directory: " +:+ tmpdir) DieDefault
   else ret tt) ;;
  tell (EvSetTmpdir tmpdir) ;;
  ret tmpdir.

Definition warn_cache_dir : string :=
  "The --cache-dir option is deprecated, use --pex-root instead.".

(** Lines 900-906. *)
Definition cache_dir_conflict_message : string :=
  "Both --cache-dir and --pex-root were passed with conflicting values. Just set --pex-root.".

Definition main_cache_dir (options : Options) : M unit :=
  if truthy (cache_dir options) then
    pex_warnings_warn warn_cache_dir ;;
    if truthy (pex_root options)
       && negb (bool_decide (cache_dir options = pex_root options))
    then die cache_dir_conflict_message DieDefault
    else ret tt
  else ret tt.

Definition ignore_pex_root_message (set_via : string) : string :=
  "The pex root has been set via " +:+ set_via
  +:+ " but --disable-cache is also set. Ignoring " +:+ set_via
  +:+ " and disabling caches.".

Definition warn_ignore_pex_root (set_via : string) : M unit :=
  pex_warnings_warn (ignore_pex_root_message set_via).

(** [a or b] on an optional string and a string. *)
Definition or_else (a : option string) (b : string) : string :=
  match a with
  | Some s => if truthy a then s else b
  | None => b
  end.

(** Lines 908-925. *)
Definition main_pex_root (w : World) (options : Options) : M string :=
  if disable_cache options then
    (if truthy (cache_dir options) then warn_ignore_pex_root "--cache-dir"
     else if truthy (pex_root options) then warn_ignore_pex_root "--pex-root"
     else if truthy (w_environ_PEX_ROOT w) then warn_ignore_pex_root "PEX_ROOT"
     else ret tt) ;;
    safe_mkdtemp w
  else
    ret (or_else (cache_dir options) (or_else (pex_root options) (w_ENV_PEX_ROOT w))).

Definition python_and_constraint_message : string :=
  "The " +:+ dquote +:+ "--python" +:+ dquote +:+ " and " +:+ dquote
  +:+ "--interpreter-constraint" +:+ dquote
  +:+ " options cannot be used together.".

(** Lines 927-928. *)
Definition main_python_conflict (options : Options) : M unit :=
  if nonempty (python options) && nonempty (interpreter_constraint options)
  then die python_and_constraint_message DieDefault
  else ret tt.

(** Lines 930-933. *)
Definition main_resolve_configuration (w : World) (options : Options)
    : M ResolveConfiguration :=
  try_except
    (match w_create_resolve_configuration w options with
     | inl msg => raise (InvalidConfigurationError msg)
     | inr resolve_configuration => ret resolve_configuration
     end)
    (fun e =>
       match e with
       | InvalidConfigurationError msg => Some (die msg DieDefault)
       | _ => None
       end).

(** The value [_compatible_with_current_platform] returns: [True], or the
    intersection, a set that is true when it is not empty. *)
Inductive Compatible :=
| Compatible_True
| Compatible_with (common : gset PlatformTag).

Definition compatible_truthy (c : Compatible) : bool :=
  match c with
  | Compatible_True => true
  | Compatible_with common => negb (bool_decide (common = ∅))
  end.

(** Lines 870-875. *)
Definition _compatible_with_current_platform (interpreter : PythonInterpreter)
    (platforms : list PlatformTag) : Compatible :=
  if negb (nonempty platforms) then Compatible_True
  else
    let current_platforms : gset PlatformTag :=
      set_map Some (supported_platforms interpreter) in
    let current_platforms := current_platforms ∪ {[ None ]} in
    Compatible_with (current_platforms ∩ list_to_set platforms).

(** [pex.run(args, env)] (line 974): the PEX runs as a child of this
    process; its exit status, what it does to the cache and the venvs, and
    its events are the world's. *)
Definition pex_run (w : World) (pex : PEX) (args : list string) (env : PatchedEnv)
    : M Z :=
  fun s =>
    match w_run w pex args env s with
    | (code, s', t) => (Ok code, s', t)
    end.

(** Lines 935-974, under [ENV.patch]. *)
Definition main_build (w : World) (options : Options) (cmdline : list string)
    (resolve_configuration : ResolveConfiguration) (pex_root tmpdir : string)
    : M unit :=
  tell (EvEnvPatch (verbosity options) pex_root tmpdir) ;;
  let patched_env := mkPatchedEnv (verbosity options) pex_root tmpdir in
  pex_builder <-
    TRACER_timed BuildingPex
      (build_pex w (requirements options) resolve_configuration options
                 (Some (w_patched_PEX_ROOT w pex_root))) ;;
  tell (EvFreeze (compile options)) ;;
  let interpreter := w_builder_interpreter w pex_builder in
  let pex := mkPEX (b_path pex_builder) interpreter (validate_ep options) in
  match pex_name options with
  | Some name =>
      log ("Saving PEX file to " +:+ name) (verbosity options) ;;
      tell (EvBuild name (compile options) (negb (use_system_time options))
                    (layout options)) ;;
      if negb (bool_decide (seed options = Seed_NONE)) then
        seed_info <- seed_cache w options pex
                       (bool_decide (seed options = Seed_VERBOSE)) ;;
        tell (EvStdout seed_info)
      else ret tt
  | None =>
      (if negb (compatible_truthy
                  (_compatible_with_current_platform interpreter (platforms options)))
       then
         log "WARNING: attempting to run PEX with incompatible platforms!" 1 ;;
         log ("Running on platform " +:+ w_interpreter_platform w interpreter
              +:+ " but built for "
              +:+ String.concat ", " (map (w_platform_str w) (platforms options)))
             1
       else ret tt) ;;
      log ("Running PEX file at " +:+ b_path pex_builder +:+ " with args "
           +:+ w_repr w cmdline)
          (verbosity options) ;;
      tell (EvRun pex cmdline) ;;
      code <- pex_run w pex cmdline patched_env ;;
      sys_exit code
  end.

(** Lines 891-974: [main] from the parsed namespace on. *)
Definition main_from_options (w : World) (options : Options) (cmdline : list string)
    : M unit :=
  tmpdir <- main_tmpdir w options ;;
  main_cache_dir options ;;
  pex_root <- main_pex_root w options ;;
  main_python_conflict options ;;
  resolve_configuration <- main_resolve_configuration w options ;;
  main_build w options cmdline resolve_configuration pex_root tmpdir.

(** Lines 878-974. *)
Definition main (w : World) (args : option (list string)) : M unit :=
  let arguments := main_arguments (w_InheritPath_PREFER w) args (w_sys_argv w) in
  configure_clp w ;;
  options <- parse_args w (fst arguments) ;;
  main_from_options w options (snd arguments).

(** * Specification-side definitions *)

(** ** Platform matching, as a function *)

(** Interpreter [c] supports the declared tag [t]; the sentinel [current]
    is no member of any interpreter's supported platforms. *)
Definition claims (c : PythonInterpreter) (t : PlatformTag) : bool :=
  match t with
  | Some p => bool_decide (p ∈ supported_platforms c)
  | None => false
  end.

(** The first candidate, in order, that supports [t]. *)
Definition claimant (candidates : list PythonInterpreter) (t : PlatformTag)
    : option PythonInterpreter :=
  List.find (fun c => claims c t) candidates.

(** The candidate interpreters of lines 701-702, in iteration order. *)
Definition local_candidates (w : World) (path : option string) : list PythonInterpreter :=
  OrderedSet_add (OrderedSet (w_iter_candidates w path)) (w_get w).

(** The loop of lines 703-715 without its effects: each candidate takes the
    tags it supports out of the working set and joins the interpreters if it
    took any. *)
Fixpoint match_loop (candidates : list PythonInterpreter)
    (acc : list PlatformTag * list PythonInterpreter)
    : list PlatformTag * list PythonInterpreter :=
  match candidates with
  | [] => acc
  | c :: cs =>
      match_loop cs
        (filter (fun t => claims c t = false) (fst acc),
         if existsb (claims c) (fst acc) then snd acc ++ [c] else snd acc)
  end.

(** What [build_pex_platforms] returns. *)
Definition platforms_result (w : World) (options : Options) (path : option string)
    (interpreters : list PythonInterpreter)
    : list PlatformTag * list PythonInterpreter :=
  if nonempty (platforms options) && resolve_local_platforms options
  then match_loop (local_candidates w path)
                  (OrderedSet (platforms options), interpreters)
  else (OrderedSet (platforms options), interpreters).

(** The interpreters on the search path that satisfy one of the
    constraints. *)
Definition constraint_matches (w : World) (path : option string)
    (constraints : list string) : list PythonInterpreter :=
  List.filter (fun i => existsb (w_matches w i) constraints) (w_iter_candidates w path).

(** ** Kinds of events *)

Definition is_probe (e : Event) : bool :=
  match e with
  | EvProbe _ => true
  | _ => false
  end.

Definition is_resolve (e : Event) : bool :=
  match e with
  | EvResolve _ | EvResolveFromPex _ => true
  | _ => false
  end.

(** ** Concrete inputs *)

(** Closed facts about concrete inputs are settled by evaluation. *)
Ltac by_evaluation :=
  lazymatch goal with
  | |- ?P =>
      let d := constr:(_ : Decision P) in
      apply (@bool_decide_eq_true_1 P d); vm_compute; reflexivity
  end.

Definition linux_cp38 : Platform := mkPlatform "linux_x86_64" "cp" "38" "cp38".
Definition linux_cp39 : Platform := mkPlatform "linux_x86_64" "cp" "39" "cp39".
Definition macos_cp39 : Platform := mkPlatform "macosx_10_15_x86_64" "cp" "39" "cp39".

Definition py38 : PythonInterpreter :=
  mkInterpreter "/usr/bin/python3.8" (3, 8, 10) {[ linux_cp38 ]}.
Definition py39 : PythonInterpreter :=
  mkInterpreter "/usr/bin/python3.9" (3, 9, 2) {[ linux_cp39 ]}.

Definition example_configuration : ResolveConfiguration :=
  mkResolveConfiguration
    (ReposConfiguration ["https://pypi.org/simple"] [] "pip-legacy-resolver")
    "default" false true true None true 1.

(** The parsed namespace with the defaults of [configure_clp], except for
    the options given. *)
Definition options_with (python interpreter_constraint : list string)
    (platforms : list PlatformTag) (resolve_local_platforms : bool)
    (entry_point script : option string)
    (cache_dir pex_root : option string) (disable_cache : bool)
    (zip_safe unzip always_write_cache : option bool)
    (resources_directory : list string)
    (pex_name : option string) (venv : option BinPath) (seed : Seed)
    (tmpdir : string) : Options :=
  mkOptions
    ["requests"] None disable_cache cache_dir None
    false zip_safe ZIPAPP unzip venv false always_write_cache false
    InheritPath_FALSE false false None true
    python None interpreter_constraint None None platforms resolve_local_platforms
    entry_point script false
    pex_name None [] resources_directory [] [] [] 0 true pex_root tmpdir seed.

Definition default_options : Options :=
  options_with [] [] [] false None None None None false None None None []
               None None Seed_NONE "/tmp".

(** The command lines of the examples and the namespaces argparse reads
    from them. *)
Definition example_command_lines : list (list string * Options) :=
  [ ([], default_options);
    (["--python"; "python3.9"; "--interpreter-constraint"; ">=3.8"],
     options_with ["python3.9"] [">=3.8"] [] false None None None None false
                  None None None [] None None Seed_NONE "/tmp");
    (["--zip-safe"; "--no-unzip"; "--always-write-cache"],
     options_with [] [] [] false None None None None false
                  (Some true) (Some false) (Some true) [] None None Seed_NONE "/tmp");
    (["--cache-dir"; "/var/cache"],
     options_with [] [] [] false None None (Some "/var/cache") None false
                  None None None [] None None Seed_NONE "/tmp");
    (["--venv"; "--unzip"],
     options_with [] [] [] false None None None None false
                  None (Some true) None [] None (Some BinPath_FALSE) Seed_NONE "/tmp");
    (["--venv"],
     options_with [] [] [] false None None None None false
                  None None None [] None (Some BinPath_FALSE) Seed_NONE "/tmp");
    (["--disable-cache"; "--pex-root"; "/var/pex"],
     options_with [] [] [] false None None None (Some "/var/pex") true
                  None None None [] None None Seed_NONE "/tmp");
    (["--disable-cache"; "--cache-dir"; "/a"; "--pex-root"; "/b"],
     options_with [] [] [] false None None (Some "/a") (Some "/b") true
                  None None None [] None None Seed_NONE "/tmp");
    (["--cache-dir"; "/var/pex"; "--pex-root"; "/var/pex"],
     options_with [] [] [] false None None (Some "/var/pex") (Some "/var/pex") false
                  None None None [] None None Seed_NONE "/tmp");
    (["--cache-dir"; "/a"; "--pex-root"; "/b"],
     options_with [] [] [] false None None (Some "/a") (Some "/b") false
                  None None None [] None None Seed_NONE "/tmp");
    (["--pex-root"; "/b"],
     options_with [] [] [] false None None None (Some "/b") false
                  None None None [] None None Seed_NONE "/tmp");
    (["--tmpdir"; "/no/such/dir"],
     options_with [] [] [] false None None None None false
                  None None None [] None None Seed_NONE "/no/such/dir");
    (["-m"; "pkg.mod:main"; "-c"; "somescript"],
     options_with [] [] [] false (Some "pkg.mod:main") (Some "somescript")
                  None None false None None None [] None None Seed_NONE "/tmp");
    (["-o"; "app.pex"; "--seed"],
     options_with [] [] [] false None None None None false
                  None None None [] (Some "app.pex") None Seed_ARGS "/tmp");
    (["--python"; "python3.9"; "--interpreter-constraint"; ">=3.8";
      "--disable-cache"; "--cache-dir"; "/a"; "--pex-root"; "/b";
      "--tmpdir"; "/no/such/dir"],
     options_with ["python3.9"] [">=3.8"] [] false None None (Some "/a") (Some "/b")
                  true None None None [] None None Seed_NONE "/no/such/dir") ].

(** argparse on the example machine: the command lines above are read as
    listed, [--help] prints the usage and exits with 0, anything else is a
    usage error. *)
Definition example_parse_args (args : list string) : ParseResult :=
  match List.find (fun e => bool_decide (fst e = args)) example_command_lines with
  | Some e => Parsed (snd e)
  | None =>
      if bool_decide ("--help" ∈ args)
      then ParserExit 0 "usage: pex [-o OUTPUT.PEX] [options] [-- arg1 arg2 ...]" ""
      else ParserExit 2 "" "pex: error: unrecognized arguments"
  end.

(** A machine with two interpreters on the search path, [py38] being the
    current one; [">=3.8"] is satisfied by both, any other constraint by
    none; the resolver finds one distribution; an artifact named
    [loose.pex] has the loose layout and needs no installation; built
    artifacts carry the content hash [pex_hash]; the PEX [base.pex] holds
    one distribution; a PEX that is run prints its arguments. *)
Definition example_world_with (pex_hash : option string) : World :=
  mkWorld
    (fun p => String.eqb p "/usr/bin/python3.8")
    (fun p => negb (String.eqb p "/no/such/dir"))
    (fun p => negb (String.eqb p "/no/such/dir"))
    (fun p => p)
    (fun p => "/work/" +:+ p)
    (fun p => p)
    (fun p d => p)
    (fun d => if String.eqb d "res" then [("res", ["data.txt"])] else [])
    (fun f => None)
    (fun n => "/tmp/tmp" +:+ string_of_list_ascii (repeat "x"%char n))
    None
    "/home/user/.pex"
    (fun root => root)
    false
    (fun rc => None)
    (fun p => if String.eqb p "/usr/bin/python3.8" then Some py38 else None)
    (fun n => if String.eqb n "python3.9" then Some py39 else None)
    py38
    (fun path => [py38; py39])
    (fun i c => String.eqb c ">=3.8")
    (fun c => negb (String.eqb c "three point eight"))
    (fun cs path preamble => preamble)
    (fun o => inr example_configuration)
    (fun a => inr [])
    (fun a => inr [mkInstalledDistribution "requests-2.25.1" (Some "requests")])
    "PEX-INFO"
    (fun pex => mkSeedPexInfo "/home/user/.pex" pex_hash)
    (fun b => match b_interpreter b with Some i => i | None => py38 end)
    (fun i => "linux_x86_64")
    (fun t => match t with Some p => plat_platform p | None => "current" end)
    (fun p => negb (bool_decide (p = Some "loose.pex")))
    (fun pex => "/home/user/.pex/venvs/0a1b2c/pex")
    (fun d => String.concat ";" (map (fun kv => fst kv +:+ "=" +:+ snd kv) d))
    (fun l => String.concat " " l)
    (fun pex args env s => (0%Z, s, [EvStdout (String.concat " " args)]))
    ["pex"]
    "prefer"
    example_parse_args
    (fun args => "pex: error: argument --unzip/--no-unzip: not allowed with argument --venv")
    (fun p => if String.eqb p "base.pex" then (["six-1.15.0"], ["six"]) else ([], [])).

Definition example_world : World := example_world_with (Some "0a1b2c").

Definition example_pex : PEX := mkPEX "/tmp/tmp" py38 false.

Definition initial_state : State := mkState 0 ∅ ∅.

(** [emits P m]: every event [m] emits satisfies [P], whatever [m] does. *)
Definition emits {A} (P : Event -> bool) (m : M A) : Prop :=
  forall s r s' t, m s = (r, s', t) -> forallb P t = true.

(** The events of interpreter selection, platform matching and workspace
    set-up: tracing, warnings, constraint validation, probes, temporary
    directories. *)
Definition setup_event (e : Event) : bool :=
  match e with
  | EvWarn _ | EvValidateConstraints _ | EvProbe _ | EvMkdtemp _ => true
  | EvTracer l =>
      match l with
      | SeedingLocalCaches _ | CreatingVenv _ | SeedingCaches _ => false
      | _ => true
      end
  | _ => false
  end.

(** The events of [build_pex]: those of the set-up and the resolver calls. *)
Definition build_event (e : Event) : bool := setup_event e || is_resolve e.

(** The events of [seed_cache] and the standard output. *)
Definition seed_event (e : Event) : bool :=
  match e with
  | EvTracer (SeedingLocalCaches _) | EvTracer (CreatingVenv _)
  | EvTracer (SeedingCaches _) | EvInstall _ _ _ | EvCreateVenv _
  | EvStdout _ => true
  | _ => false
  end.

(** The events that stand for installation work: installing a cache entry,
    materializing a virtual environment. *)
Definition install_work (e : Event) : bool :=
  match e with
  | EvInstall _ _ _ | EvCreateVenv _ => true
  | _ => false
  end.

Definition is_stdout (e : Event) : bool :=
  match e with
  | EvStdout _ => true
  | _ => false
  end.

(** The warning [main] emits under [--disable-cache] for the cache root it
    ignores: the first of [--cache-dir], [--pex-root] and the environment
    variable [PEX_ROOT] that is set (lines 916-921). *)
Definition ignored_root_warning (w : World) (options : Options) : list Event :=
  if truthy (cache_dir options) then [EvWarn (ignore_pex_root_message "--cache-dir")]
  else if truthy (pex_root options) then [EvWarn (ignore_pex_root_message "--pex-root")]
  else if truthy (w_environ_PEX_ROOT w) then [EvWarn (ignore_pex_root_message "PEX_ROOT")]
  else [].

(** [parsed w args]: the namespace [parse_args] returns for the arguments
    of [main], with the command line of the PEX; [None] when the parser
    exits. *)
Definition parsed (w : World) (args : option (list string))
    : option (Options * list string) :=
  let arguments := main_arguments (w_InheritPath_PREFER w) args (w_sys_argv w) in
  match w_parse_args w (fst arguments) with
  | Parsed options =>
      if is_some (unzip options) && is_some (venv options) then None
      else Some (options, snd arguments)
  | ParserExit _ _ _ => None
  end.

(** What [main] does once the cache root is chosen (lines 927-974). *)
Definition main_from_pex_root (w : World) (options : Options) (cmdline : list string)
    (pex_root tmpdir : string) : M unit :=
  main_python_conflict options ;;
  resolve_configuration <- main_resolve_configuration w options ;;
  main_build w options cmdline resolve_configuration pex_root tmpdir.

(** [options] with the three options that [build_pex] only warns about set
    to the given values. *)
Definition with_ignored_options (zs uz awc : option bool) (o : Options) : Options :=
  mkOptions
    (requirements o) (pex_path o) (disable_cache o) (cache_dir o) (pex_repository o)
    (include_tools o) zs (layout o) uz (venv o) (venv_copies o) awc
    (ignore_errors o) (inherit_path o) (compile o) (use_system_time o)
    (runtime_pex_root o) (strip_pex_env o)
    (python o) (python_path o) (interpreter_constraint o) (rc_file o)
    (python_shebang o) (platforms o) (resolve_local_platforms o)
    (entry_point o) (script o) (validate_ep o)
    (pex_name o) (preamble_file o) (sources_directory o) (resources_directory o)
    (requirement_files o) (constraint_files o) (requirements_pexes o)
    (verbosity o) (emit_warnings o) (pex_root o) (tmpdir o) (seed o).

(** The deprecation warnings of [--zip-safe], [--unzip] and
    [--always-write-cache]. *)
Definition ignored_option_warning (e : Event) : bool :=
  match e with
  | EvWarn m =>
      String.eqb m warn_zip_safe || String.eqb m warn_unzip
      || String.eqb m warn_always_write_cache
  | _ => false
  end.

(** Two runs end with the same outcome in the same state and emit the same
    events, the events in [P] apart. *)
Definition same_but_for {A} (P : Event -> bool)
    (x y : Outcome A * State * list Event) : Prop :=
  x.1.1 = y.1.1 /\ x.1.2 = y.1.2
  /\ List.filter (fun e => negb (P e)) x.2 = List.filter (fun e => negb (P e)) y.2.

(** ** Explicit interpreters (lines 669-678) *)

(** What [to_python_interpreter] finds for a name. *)
Definition lookup_interpreter (w : World) (name : string) : option PythonInterpreter :=
  if w_isfile w name then w_from_binary w name else w_from_env w name.

(** The probe it makes for a name. *)
Definition probe_event (w : World) (name : string) : Event :=
  EvProbe (if w_isfile w name then ProbeBinary name else ProbeEnv name).

(** ** The resolver call and the contents of the workspace *)

(** The resolver call of lines 800-837, as an event, and what the resolver
    answers to it. *)
Definition resolver_call (w : World) (reqs : list string)
    (resolve_configuration : ResolveConfiguration) (options : Options)
    (cache : option string) (interpreters : list PythonInterpreter)
    (platforms : list PlatformTag)
    : Event * (string + list InstalledDistribution) :=
  match repository resolve_configuration with
  | PexRepository _ =>
      let a :=
        mkResolveFromPexArgs
          (repository resolve_configuration) reqs (requirement_files options)
          (constraint_files options) (network_configuration resolve_configuration)
          (transitive resolve_configuration) interpreters platforms
          (assume_manylinux resolve_configuration) (ignore_errors options) in
      (EvResolveFromPex a, w_resolve_from_pex w a)
  | ReposConfiguration indexes find_links resolver_version =>
      let a :=
        mkResolveArgs
          reqs (requirement_files options) (constraint_files options)
          (allow_prereleases resolve_configuration)
          (transitive resolve_configuration) interpreters platforms
          indexes find_links resolver_version
          (network_configuration resolve_configuration) cache
          (allow_builds resolve_configuration) (allow_wheels resolve_configuration)
          (compile options) (assume_manylinux resolve_configuration)
          (max_jobs resolve_configuration) (ignore_errors options) in
      (EvResolve a, w_resolve w a)
  end.

(** The tracing that goes with it (lines 798-803 and 817). *)
Definition resolver_trace (reqs : list string)
    (resolve_configuration : ResolveConfiguration) (options : Options)
    : list Event :=
  [EvTracer (ResolvingDistributions (reqs ++ requirement_files options));
   EvTracer (match repository resolve_configuration with
             | PexRepository _ => ResolvingFromPex (pex_repository options)
             | ReposConfiguration _ _ _ => ResolvingRequirements
             end)].

(** The files [build_pex] takes from one source directory (lines 772-777):
    source path and path in the workspace. *)
Definition directory_files (w : World) (directory : string) : list (string * string) :=
  let src_dir := w_normpath w directory in
  flat_map
    (fun entry : string * list string =>
       map (fun f => (os_path_join (fst entry) f,
                      w_relpath w (os_path_join (fst entry) f) src_dir))
           (snd entry))
    (w_walk w src_dir).

(** The direct requirements among the installed distributions, in order
    (lines 841-842). *)
Definition direct_requirements (ds : list InstalledDistribution) : list string :=
  flat_map (fun d => match direct_requirement d with Some r => [r] | None => [] end) ds.

(** What the requirements PEXes of [--requirements-pex] bring (lines
    795-796), in the order of the options. *)
Definition requirements_pex_distributions (w : World) (options : Options)
    : list string :=
  flat_map (fun p => fst (w_requirements_pex w p)) (requirements_pexes options).

Definition requirements_pex_requirements (w : World) (options : Options)
    : list string :=
  flat_map (fun p => snd (w_requirements_pex w p)) (requirements_pexes options).

(** The metadata [build_pex] writes (lines 779-789). *)
Definition expected_info (options : Options) : PexInfo :=
  mkPexInfo (is_some (venv options))
            (match venv options with Some v => v | None => BinPath_FALSE end)
            (venv_copies options)
            (include_tools options || is_some (venv options))
            (pex_path options) (ignore_errors options) (emit_warnings options)
            (inherit_path options) (runtime_pex_root options)
            (strip_pex_env options).

(** The example machine, without an index that has the requirements: every
    resolution fails. *)
Definition unsatisfiable_message : string :=
  "No matching distribution found for requests".

Definition offline_world : World :=
  let w := example_world in
  mkWorld
    (w_isfile w) (w_exists w) (w_isdir w) (w_realpath w) (w_abspath w)
    (w_normpath w) (w_relpath w) (w_walk w) (w_read w) (w_mkdtemp w)
    (w_environ_PEX_ROOT w) (w_ENV_PEX_ROOT w) (w_patched_PEX_ROOT w)
    (w_ENV_PEX_IGNORE_RCFILES w) (w_rc_PEX_PYTHON_PATH w)
    (w_from_binary w) (w_from_env w) (w_get w) (w_iter_candidates w)
    (w_matches w) (w_well_formed w) (w_create_message w)
    (w_create_resolve_configuration w)
    (fun a => inl unsatisfiable_message)
    (fun a => inl unsatisfiable_message)
    (w_PexInfo_PATH w) (w_pex_info w) (w_builder_interpreter w)
    (w_interpreter_platform w) (w_platform_str w) (w_needs_install w)
    (w_venv_pex w) (w_json_dumps w) (w_repr w) (w_run w)
    (w_sys_argv w) (w_InheritPath_PREFER w) (w_parse_args w) (w_parser_error w)
    (w_requirements_pex w).

(** The registration of the resolved distributions (lines 839-842). *)
Definition register_distributions (ds : list InstalledDistribution) (b : PEXBuilder)
    : PEXBuilder :=
  fold_left
    (fun b installed_dist =>
       let b := add_distribution b (distribution installed_dist) in
       match direct_requirement installed_dist with
       | Some r => add_requirement b r
       | None => b
       end) ds b.

(** The entry point and the shebang (lines 848-855), once the check of
    lines 846-847 has passed. *)
Definition with_entry_point (options : Options) (b : PEXBuilder) : PEXBuilder :=
  let b :=
    if truthy (entry_point options) then set_entry_point b (entry_point options)
    else if truthy (script options) then set_script b (script options)
    else b in
  if truthy (python_shebang options) then set_shebang b (python_shebang options)
  else b.

(** Projections of a builder built field by field. *)
Ltac simpl_builder :=
  cbn [b_path b_interpreter b_preamble b_sources b_info b_interpreter_constraints
       b_requirements_pexes b_distributions b_requirements b_entry_point b_script
       b_shebang app].


(** A build with sources given more than once, a venv, an entry point and a
    shebang; and one with a preamble file that cannot be read. *)
Definition packaging_options : Options :=
  mkOptions
    ["requests"] None false None None
    false None ZIPAPP None (Some BinPath_PREPEND) false None false
    InheritPath_FALSE false false (Some "/var/lib/app") true
    [] None [">=3.8"] None (Some "/usr/bin/env python3") [] false
    (Some "pkg.mod:main") None false
    None None ["res"; "src"; "res"] ["res"] [] [] ["base.pex"] 0 true None "/tmp"
    Seed_NONE.

Definition preamble_options : Options :=
  mkOptions
    ["requests"] None false None None
    false None ZIPAPP None None false None false
    InheritPath_FALSE false false None true
    [] None [] None None [] false
    None None false
    None (Some "/no/such/preamble.py") [] [] [] [] [] 0 true None "/tmp"
    Seed_NONE.

(** ** How [main] ends *)

Definition is_exited {A} (r : Outcome A) : bool :=
  match r with
  | Exited _ => true
  | _ => false
  end.

(** [no_exit m]: [m] never ends in [sys.exit], whatever the state. *)
Definition no_exit {A} (m : M A) : Prop :=
  forall s, is_exited (m s).1.1 = false.

Definition is_run (e : Event) : bool :=
  match e with
  | EvRun _ _ => true
  | _ => false
  end.

(** The events that leave something behind or print to the standard
    output: the written artifact, cache entries, venvs. *)
Definition is_saved (e : Event) : bool :=
  match e with
  | EvBuild _ _ _ _ | EvStdout _ | EvInstall _ _ _ | EvCreateVenv _ => true
  | _ => false
  end.

(** The events [main] emits before it starts the build. *)
Definition prelude_event (e : Event) : bool :=
  match e with
  | EvSetTmpdir _ | EvWarn _ | EvMkdtemp _ => true
  | _ => false
  end.

(** The PEX object of lines 944-947. *)
Definition built_pex (w : World) (options : Options) (b : PEXBuilder) : PEX :=
  mkPEX (b_path b) (w_builder_interpreter w b) (validate_ep options).

(** The run of the built PEX (line 974): its exit status, the state it
    leaves and its events. *)
Definition built_pex_run (w : World) (options : Options) (cmdline : list string)
    (root tmp : string) (b : PEXBuilder) (s : State) : Z * State * list Event :=
  w_run w (built_pex w options b) cmdline (mkPatchedEnv (verbosity options) root tmp) s.

(** What the run path logs (lines 961-973). *)
Definition run_log (w : World) (options : Options) (cmdline : list string)
    (b : PEXBuilder) : list Event :=
  (if negb (compatible_truthy
              (_compatible_with_current_platform (w_builder_interpreter w b)
                 (platforms options)))
   then [EvStderr "WARNING: attempting to run PEX with incompatible platforms!";
         EvStderr ("Running on platform "
                   +:+ w_interpreter_platform w (w_builder_interpreter w b)
                   +:+ " but built for "
                   +:+ String.concat ", " (map (w_platform_str w) (platforms options)))]
   else [])
  ++ (if Nat.eqb (verbosity options) 0 then []
      else [EvStderr ("Running PEX file at " +:+ b_path b +:+ " with args "
                      +:+ w_repr w cmdline)]).

(** What the save path logs (line 950). *)
Definition save_log (options : Options) (name : string) : list Event :=
  if Nat.eqb (verbosity options) 0 then []
  else [EvStderr ("Saving PEX file to " +:+ name)].

(** The example machine with options that [create_resolve_configuration]
    rejects. *)
Definition offline_registry_world : World :=
  let w := example_world in
  mkWorld
    (w_isfile w) (w_exists w) (w_isdir w) (w_realpath w) (w_abspath w)
    (w_normpath w) (w_relpath w) (w_walk w) (w_read w) (w_mkdtemp w)
    (w_environ_PEX_ROOT w) (w_ENV_PEX_ROOT w) (w_patched_PEX_ROOT w)
    (w_ENV_PEX_IGNORE_RCFILES w) (w_rc_PEX_PYTHON_PATH w)
    (w_from_binary w) (w_from_env w) (w_get w) (w_iter_candidates w)
    (w_matches w) (w_well_formed w) (w_create_message w)
    (fun o => inl "Cannot mix --index and --pex-repository.")
    (w_resolve_from_pex w) (w_resolve w)
    (w_PexInfo_PATH w) (w_pex_info w) (w_builder_interpreter w)
    (w_interpreter_platform w) (w_platform_str w) (w_needs_install w)
    (w_venv_pex w) (w_json_dumps w) (w_repr w) (w_run w)
    (w_sys_argv w) (w_InheritPath_PREFER w) (w_parse_args w) (w_parser_error w)
    (w_requirements_pex w).

(** A run of [main] that saves nothing itself: it does not return, and what
    is written, installed, created or printed on the standard output comes
    from the PEX that [main] runs as its last step. *)
Definition saves_only_by_running (w : World) (cmdline : list string)
    (x : Outcome unit * State * list Event) : Prop :=
  x.1.1 <> Ok tt
  /\ exists before after,
       x.2 = before ++ after
       /\ forallb (fun e => negb (is_saved e)) before = true
       /\ (after = []
           \/ exists pex env s1,
                after = EvRun pex cmdline :: (w_run w pex cmdline env s1).2
                /\ x.1.1 = Exited (w_run w pex cmdline env s1).1.1
                /\ x.1.2 = (w_run w pex cmdline env s1).1.2).

(** * Properties *)

(** ** Ordered sets, the monad, platform matching and the primary interpreter *)

Lemma OrderedSet_add_elem {A} `{EqDecision A} (s : list A) (x y : A) :
  x ∈ OrderedSet_add s y <-> x ∈ s \/ x = y.
Proof.
  unfold OrderedSet_add. destruct (decide (y ∈ s)) as [Hy|Hy].
  - split; [auto|]. intros [?| ->]; auto.
  - rewrite elem_of_app, list_elem_of_singleton. tauto.
Qed.

Lemma OrderedSet_add_NoDup {A} `{EqDecision A} (s : list A) (y : A) :
  NoDup s -> NoDup (OrderedSet_add s y).
Proof.
  intros Hs. unfold OrderedSet_add. destruct (decide (y ∈ s)) as [Hy|Hy]; [done|].
  apply NoDup_app. split; [done|]. split.
  - intros x Hx Hx'. apply list_elem_of_singleton in Hx'. by subst.
  - apply NoDup_singleton.
Qed.

Lemma fold_OrderedSet_add_elem {A} `{EqDecision A} (l acc : list A) (x : A) :
  x ∈ fold_left OrderedSet_add l acc <-> x ∈ acc \/ x ∈ l.
Proof.
  revert acc. induction l as [|y l IH]; intros acc; simpl.
  - rewrite elem_of_nil. tauto.
  - rewrite IH, OrderedSet_add_elem, elem_of_cons. tauto.
Qed.

Lemma fold_OrderedSet_add_NoDup {A} `{EqDecision A} (l acc : list A) :
  NoDup acc -> NoDup (fold_left OrderedSet_add l acc).
Proof.
  revert acc. induction l as [|y l IH]; intros acc Hacc; simpl; [done|].
  apply IH. by apply OrderedSet_add_NoDup.
Qed.

Lemma OrderedSet_elem {A} `{EqDecision A} (l : list A) (x : A) :
  x ∈ OrderedSet l <-> x ∈ l.
Proof.
  unfold OrderedSet. rewrite fold_OrderedSet_add_elem, elem_of_nil. tauto.
Qed.

Lemma OrderedSet_NoDup {A} `{EqDecision A} (l : list A) : NoDup (OrderedSet l).
Proof. apply fold_OrderedSet_add_NoDup, NoDup_nil_2. Qed.

Lemma filter_ext_in {A} (P Q : A -> Prop) `{!forall x, Decision (P x)}
    `{!forall x, Decision (Q x)} (l : list A) :
  (forall x, x ∈ l -> P x <-> Q x) -> filter P l = filter Q l.
Proof.
  induction l as [|x l IH]; intros Hext; [done|].
  rewrite !filter_cons.
  destruct (decide (P x)) as [HP|HP], (decide (Q x)) as [HQ|HQ].
  - f_equal. apply IH. intros y Hy. apply Hext. by right.
  - exfalso. apply HQ, Hext; [by left|done].
  - exfalso. apply HP, Hext; [by left|done].
  - apply IH. intros y Hy. apply Hext. by right.
Qed.

Lemma filter_all {A} (P : A -> Prop) `{!forall x, Decision (P x)} (l : list A) :
  (forall x, x ∈ l -> P x) -> filter P l = l.
Proof.
  induction l as [|x l IH]; intros Hall; [done|].
  rewrite filter_cons_True by (apply Hall; by left).
  f_equal. apply IH. intros y Hy. apply Hall. by right.
Qed.

Lemma bind_ok {A B} (m : M A) (k : A -> M B) s a s1 t1 r s2 t2 :
  m s = (Ok a, s1, t1) -> k a s1 = (r, s2, t2) ->
  bind m k s = (r, s2, t1 ++ t2).
Proof. intros Hm Hk. unfold bind. by rewrite Hm, Hk. Qed.

Lemma foldM_cons {A B} (f : A -> B -> M A) (a : A) (x : B) (l : list B) :
  foldM f a (x :: l) = (a' <- f a x ;; foldM f a' l).
Proof. reflexivity. Qed.

Lemma OrderedSet_remove_ok {A} `{EqDecision A} (l : list A) (x : A) s :
  x ∈ l -> OrderedSet_remove l x s = (Ok (filter (fun y => y ≠ x) l), s, []).
Proof. intros Hx. unfold OrderedSet_remove. by rewrite decide_True. Qed.

Lemma remove_resolved (c : PythonInterpreter) (resolved : list Platform) :
  forall (pl : list PlatformTag) (s : State),
    NoDup resolved ->
    (forall p, p ∈ resolved -> Some p ∈ pl) ->
    exists t,
      foldM (fun pl rp =>
               TRACER_log (ResolvedPlatform c rp) ;; OrderedSet_remove pl (Some rp))
            pl resolved s
      = (Ok (filter (fun t => t ∉ (Some <$> resolved)) pl), s, t).
Proof.
  induction resolved as [|p resolved IH]; intros pl s Hnd Hin.
  - exists []. simpl. unfold ret. f_equal. f_equal. f_equal.
    symmetry. apply filter_all. intros x _. apply not_elem_of_nil.
  - apply NoDup_cons in Hnd as [Hp Hnd].
    assert (Hpin : Some p ∈ pl) by (apply Hin; by left).
    destruct (IH (filter (fun y => y ≠ Some p) pl) s Hnd) as [t Ht].
    { intros q Hq. apply list_elem_of_filter. split.
      - intros [= ->]. done.
      - apply Hin. by right. }
    eexists. rewrite foldM_cons.
    erewrite bind_ok; [| |apply Ht].
    2:{ eapply bind_ok; [reflexivity|]. by apply OrderedSet_remove_ok. }
    f_equal. f_equal. f_equal.
    rewrite list_filter_filter. apply filter_ext_in.
    intros x _. rewrite fmap_cons, not_elem_of_cons. tauto.
Qed.

Lemma resolve_candidate_run (c : PythonInterpreter) (P : list PlatformTag)
    (I : list PythonInterpreter) (s : State) :
  exists t,
    resolve_candidate c (P, I) s
    = (Ok (filter (fun t => claims c t = false) P,
           if existsb (claims c) P then I ++ [c] else I), s, t).
Proof.
  unfold resolve_candidate. cbn [fst snd].
  set (resolved := elements (filter (fun p => Some p ∈ P) (supported_platforms c))).
  assert (Hres : forall p, p ∈ resolved <-> p ∈ supported_platforms c /\ Some p ∈ P).
  { intros p. unfold resolved. rewrite elem_of_elements, elem_of_filter. tauto. }
  assert (Hcl : forall t, t ∈ P -> (t ∉ (Some <$> resolved) <-> claims c t = false)).
  { intros t Ht. rewrite list_elem_of_fmap. destruct t as [p|]; simpl.
    - rewrite bool_decide_eq_false. split.
      + intros Hn Hp. apply Hn. exists p. split; [done|]. apply Hres. done.
      + intros Hn (q & [= <-] & Hq). apply Hn, Hres, Hq.
    - split; [done|]. intros _ (q & Hq & _). done. }
  destruct resolved as [|p0 rest] eqn:Hr; cbn [nonempty].
  - assert (E1 : filter (fun t => claims c t = false) P = P).
    { apply filter_all. intros t Ht. apply Hcl; [done|].
      simpl. apply not_elem_of_nil. }
    assert (E2 : existsb (claims c) P = false).
    { destruct (existsb (claims c) P) eqn:He; [|done].
      apply existsb_exists in He as (t & Ht & Hc). apply list_elem_of_In in Ht.
      assert (Hf : claims c t = false); [|congruence].
      apply (Hcl t Ht). simpl. apply not_elem_of_nil. }
    exists []. rewrite E1, E2. reflexivity.
  - destruct (remove_resolved c (p0 :: rest) P s) as [t Ht].
    { rewrite <- Hr. apply NoDup_elements. }
    { intros p Hp. apply Hres. done. }
    assert (E1 : filter (fun t => t ∉ (Some <$> p0 :: rest)) P
                 = filter (fun t => claims c t = false) P).
    { apply filter_ext_in. intros x Hx. by apply Hcl. }
    assert (E2 : existsb (claims c) P = true).
    { apply existsb_exists. exists (Some p0).
      assert (Hp0 : p0 ∈ supported_platforms c /\ Some p0 ∈ P) by (apply Hres; by left).
      split; [apply list_elem_of_In; tauto|]. simpl. apply bool_decide_eq_true. tauto. }
    eexists. erewrite bind_ok; [|apply Ht|reflexivity].
    rewrite E1, E2. reflexivity.
Qed.

Lemma match_candidates_run (candidates : list PythonInterpreter) :
  forall P I s,
  exists t,
    foldM (fun acc c => resolve_candidate c acc) (P, I) candidates s
    = (Ok (match_loop candidates (P, I)), s, t).
Proof.
  induction candidates as [|c cs IH]; intros P I s.
  - exists []. reflexivity.
  - destruct (resolve_candidate_run c P I s) as [t1 H1].
    destruct (IH (filter (fun t => claims c t = false) P)
                 (if existsb (claims c) P then I ++ [c] else I) s) as [t2 H2].
    exists (t1 ++ t2). rewrite foldM_cons.
    erewrite bind_ok; [reflexivity|apply H1|apply H2].
Qed.

Lemma match_loop_unresolved (candidates : list PythonInterpreter) :
  forall P I t,
    t ∈ fst (match_loop candidates (P, I)) <-> t ∈ P /\ claimant candidates t = None.
Proof.
  induction candidates as [|c cs IH]; intros P I t; cbn [match_loop fst snd].
  - unfold claimant. simpl. tauto.
  - rewrite IH, list_elem_of_filter. unfold claimant. simpl.
    destruct (claims c t); split; intros H; try tauto.
    + destruct H as [[? ?] ?]. congruence.
    + destruct H as [_ ?]. congruence.
Qed.

Lemma match_loop_mono (candidates : list PythonInterpreter) :
  forall P I c, c ∈ I -> c ∈ snd (match_loop candidates (P, I)).
Proof.
  induction candidates as [|c0 cs IH]; intros P I c Hc; cbn [match_loop fst snd].
  - done.
  - apply IH. destruct (existsb (claims c0) P); [|done].
    apply elem_of_app. by left.
Qed.

Lemma match_loop_claimed (candidates : list PythonInterpreter) :
  forall P I t c,
    t ∈ P -> claimant candidates t = Some c ->
    c ∈ snd (match_loop candidates (P, I)).
Proof.
  induction candidates as [|c0 cs IH]; intros P I t c Ht Hc;
    cbn [match_loop fst snd].
  - discriminate.
  - unfold claimant in Hc. simpl in Hc. destruct (claims c0 t) eqn:Hcl.
    + injection Hc as <-. apply match_loop_mono.
      assert (He : existsb (claims c0) P = true).
      { apply existsb_exists. exists t. split; [by apply list_elem_of_In|done]. }
      rewrite He. apply elem_of_app. right. by apply list_elem_of_singleton.
    + eapply IH; [|apply Hc]. apply list_elem_of_filter. done.
Qed.

Lemma match_loop_origin (candidates : list PythonInterpreter) :
  forall P I c,
    c ∈ snd (match_loop candidates (P, I)) ->
    c ∈ I \/ exists t, t ∈ P /\ claimant candidates t = Some c.
Proof.
  induction candidates as [|c0 cs IH]; intros P I c Hc;
    cbn [match_loop fst snd] in Hc.
  - by left.
  - apply IH in Hc as [Hc|(t & Ht & Hcl)].
    + destruct (existsb (claims c0) P) eqn:He; [|by left].
      apply elem_of_app in Hc as [Hc|Hc]; [by left|].
      apply list_elem_of_singleton in Hc as ->.
      apply existsb_exists in He as (t & Ht & Hcl).
      right. exists t. split; [by apply list_elem_of_In|].
      unfold claimant. simpl. by rewrite Hcl.
    + apply list_elem_of_filter in Ht as [Hf Ht].
      right. exists t. split; [done|].
      unfold claimant. simpl. rewrite Hf. done.
Qed.

Lemma match_loop_NoDup (candidates : list PythonInterpreter) :
  forall P I, NoDup P -> NoDup (fst (match_loop candidates (P, I))).
Proof.
  induction candidates as [|c cs IH]; intros P I HP; cbn [match_loop fst snd].
  - done.
  - apply IH. by apply NoDup_filter.
Qed.

Lemma filter_true {A} (l : list A) : List.filter (fun _ => true) l = l.
Proof. induction l as [|x l IH]; simpl; congruence. Qed.

Lemma iter_all_interpreters (w : World) (path : option string) (s : State) :
  iter_compatible_interpreters w path [] s
  = (Ok (w_iter_candidates w path), s, [EvProbe (ProbeSearch path [])]).
Proof.
  unfold iter_compatible_interpreters. cbn [nonempty negb orb].
  rewrite filter_true, andb_false_r. reflexivity.
Qed.

(** C5: platform matching never fails and leaves the state alone.  Every
    declared tag ends up in exactly one place: it stays in the unresolved set
    that goes to binary-only resolution exactly when no candidate interpreter
    supports it, and otherwise the first candidate, in discovery order, that
    supports it joins the participating interpreters; an interpreter joins
    only for a tag it claimed; no tag is invented or duplicated.  Without
    [--resolve-local-platforms] nothing is probed and all declared tags go
    to binary-only resolution. *)
Theorem platform_matching_partition (w : World) (options : Options)
    (path : option string) (interpreters : list PythonInterpreter) (s : State) :
  exists unresolved participating t,
    build_pex_platforms w options path interpreters s
    = (Ok (unresolved, participating), s, t)
    /\ NoDup unresolved
    /\ (forall tag, tag ∈ unresolved -> tag ∈ platforms options)
    /\ (resolve_local_platforms options = true ->
        (forall tag, tag ∈ platforms options ->
           (tag ∈ unresolved <-> claimant (local_candidates w path) tag = None)
           /\ (forall c, claimant (local_candidates w path) tag = Some c ->
                         c ∈ participating))
        /\ (forall c, c ∈ participating ->
              c ∈ interpreters
              \/ exists tag, tag ∈ platforms options
                             /\ claimant (local_candidates w path) tag = Some c))
    /\ (resolve_local_platforms options = false ->
        unresolved = OrderedSet (platforms options)
        /\ participating = interpreters /\ t = []).
Proof.
  unfold build_pex_platforms.
  destruct (nonempty (platforms options) && resolve_local_platforms options) eqn:Hgate.
  - apply andb_true_iff in Hgate as [Hne Hflag].
    destruct (match_candidates_run (local_candidates w path)
                (OrderedSet (platforms options)) interpreters s) as [t Ht].
    pose proof (match_loop_NoDup (local_candidates w path)
                  (OrderedSet (platforms options)) interpreters
                  (OrderedSet_NoDup _)) as Hnd.
    pose proof (match_loop_unresolved (local_candidates w path)
                  (OrderedSet (platforms options)) interpreters) as Hun.
    pose proof (match_loop_claimed (local_candidates w path)
                  (OrderedSet (platforms options)) interpreters) as Hcl.
    pose proof (match_loop_origin (local_candidates w path)
                  (OrderedSet (platforms options)) interpreters) as Hor.
    destruct (match_loop (local_candidates w path)
                (OrderedSet (platforms options), interpreters))
      as [unresolved participating].
    cbn [fst snd] in *.
    exists unresolved, participating. eexists. split.
    { erewrite bind_ok; [reflexivity| |].
      - unfold TRACER_timed. eapply bind_ok; [reflexivity|].
        eapply bind_ok; [apply iter_all_interpreters|].
        eapply bind_ok; [reflexivity|]. apply Ht.
      - eapply bind_ok; [|reflexivity].
        instantiate (1 := if nonempty unresolved then _ else _).
        unfold when. cbn [fst]. destruct (nonempty unresolved); reflexivity. }
    split; [done|].
    split.
    { intros tag Htag. apply Hun in Htag as [Htag _].
      by apply OrderedSet_elem. }
    split; [|congruence].
    intros _. split.
    + intros tag Htag. split.
      * rewrite Hun, OrderedSet_elem. split; [by intros [_ ?]|by intros ?].
      * intros c Hc. eapply Hcl; [|apply Hc].
        by apply OrderedSet_elem.
    + intros c Hc. apply Hor in Hc as [Hc|(tag & Htag & Hc)].
      * by left.
      * right. exists tag. split; [by apply OrderedSet_elem|done].
  - exists (OrderedSet (platforms options)), interpreters, [].
    split; [reflexivity|]. split; [apply OrderedSet_NoDup|].
    split; [intros tag; apply OrderedSet_elem|].
    split; [|done].
    intros Hflag. rewrite Hflag, andb_true_r in Hgate.
    destruct (platforms options) as [|x l]; [|discriminate].
    split.
    + intros tag Htag. by apply elem_of_nil in Htag.
    + intros c Hc. by left.
Qed.

Lemma bind_died {A B} (m : M A) (k : A -> M B) s msg st s1 t1 :
  m s = (Died msg st, s1, t1) -> bind m k s = (Died msg st, s1, t1).
Proof. intros Hm. unfold bind. by rewrite Hm. Qed.

Lemma bind_raised {A B} (m : M A) (k : A -> M B) s e s1 t1 :
  m s = (Raised e, s1, t1) -> bind m k s = (Raised e, s1, t1).
Proof. intros Hm. unfold bind. by rewrite Hm. Qed.

Lemma bind_exited {A B} (m : M A) (k : A -> M B) s c s1 t1 :
  m s = (Exited c, s1, t1) -> bind m k s = (Exited c, s1, t1).
Proof. intros Hm. unfold bind. by rewrite Hm. Qed.

Lemma bind_inv_ok {A B} (m : M A) (k : A -> M B) s b s' t :
  bind m k s = (Ok b, s', t) ->
  exists a s1 t1 t2,
    m s = (Ok a, s1, t1) /\ k a s1 = (Ok b, s', t2) /\ t = t1 ++ t2.
Proof.
  unfold bind. destruct (m s) as [[[a| | |] s1] t1]; try discriminate.
  destruct (k a s1) as [[r s2] t2] eqn:Hk. intros [= -> -> <-].
  by exists a, s1, t1, t2.
Qed.

Lemma bind_trace_prefix {A B} (m : M A) (k : A -> M B) s r s' t r1 s1 t1 :
  bind m k s = (r, s', t) -> m s = (r1, s1, t1) -> exists t2, t = t1 ++ t2.
Proof.
  unfold bind. intros Hb Hm. rewrite Hm in Hb.
  destruct r1 as [a| | |].
  - destruct (k a s1) as [[r2 s2] t2]. injection Hb as _ _ <-. by exists t2.
  - injection Hb as _ _ <-. exists []. by rewrite app_nil_r.
  - injection Hb as _ _ <-. exists []. by rewrite app_nil_r.
  - injection Hb as _ _ <-. exists []. by rewrite app_nil_r.
Qed.

Lemma mapM_ok_length {A B} (f : A -> M B) (l : list A) :
  forall s ys s' t, mapM f l s = (Ok ys, s', t) -> length ys = length l.
Proof.
  induction l as [|x l IH]; intros s ys s' t H; simpl in H.
  - by injection H as <- _ _.
  - apply bind_inv_ok in H as (y & s1 & t1 & t2 & _ & H & _).
    apply bind_inv_ok in H as (ys' & s2 & t3 & t4 & Hys & H & _).
    injection H as <- _ _. simpl. f_equal. eapply IH, Hys.
Qed.

Lemma interpreters_from_constraints (w : World) (options : Options)
    (path : option string) (s : State) :
  python options = [] -> interpreter_constraint options <> [] ->
  build_pex_interpreters w options path s =
  let cs := interpreter_constraint options in
  if forallb (w_well_formed w) cs then
    match constraint_matches w path cs with
    | [] => (Died (w_create_message w cs path "Could not find a compatible interpreter.")
                  (Status CANNOT_SETUP_INTERPRETER), s,
             [EvTracer ResolvingInterpreters; EvValidateConstraints cs;
              EvProbe (ProbeSearch path cs)])
    | found => (Ok (Some found), s,
                [EvTracer ResolvingInterpreters; EvValidateConstraints cs;
                 EvProbe (ProbeSearch path cs)])
    end
  else (Raised (External "validate_constraints"), s,
        [EvTracer ResolvingInterpreters; EvValidateConstraints cs]).
Proof.
  intros Hpy Hic. unfold build_pex_interpreters. rewrite Hpy.
  destruct (interpreter_constraint options) as [|c cs] eqn:Hcs; [done|].
  cbn [nonempty]. cbv zeta.
  unfold TRACER_timed, validate_constraints, constraint_matches.
  destruct (forallb (w_well_formed w) (c :: cs)) eqn:Hwf.
  - unfold try_except, iter_compatible_interpreters, bind, tell, ret, raise, die.
    cbn [nonempty negb orb andb].
    destruct (List.filter _ _) as [|i found] eqn:Hf; reflexivity.
  - reflexivity.
Qed.

Lemma build_pex_platforms_run (w : World) (options : Options)
    (path : option string) (interpreters : list PythonInterpreter) (s : State) :
  exists t,
    build_pex_platforms w options path interpreters s
    = (Ok (platforms_result w options path interpreters), s, t)
    /\ (nonempty (platforms options) && resolve_local_platforms options = false ->
        t = []).
Proof.
  unfold build_pex_platforms, platforms_result.
  destruct (nonempty (platforms options) && resolve_local_platforms options).
  - destruct (match_candidates_run (local_candidates w path)
                (OrderedSet (platforms options)) interpreters s) as [t Ht].
    destruct (match_loop (local_candidates w path)
                (OrderedSet (platforms options), interpreters))
      as [unresolved participating].
    eexists. split; [|discriminate].
    erewrite bind_ok; [reflexivity| |].
    + unfold TRACER_timed. eapply bind_ok; [reflexivity|].
      eapply bind_ok; [apply iter_all_interpreters|].
      eapply bind_ok; [reflexivity|]. apply Ht.
    + eapply bind_ok; [|reflexivity].
      instantiate (1 := if nonempty unresolved then _ else _).
      unfold when. cbn [fst]. destruct (nonempty unresolved); reflexivity.
  - exists []. split; reflexivity.
Qed.

Lemma preferred_spec (a b : PythonInterpreter) :
  preferred a b = true <->
  match version a, version b with
  | (ma, na, pa), (mb, nb, pb) =>
      (ma < mb \/ (ma = mb /\ na < nb) \/ (ma = mb /\ na = nb /\ pb < pa))%nat
  end.
Proof.
  unfold preferred. destruct (version a) as [[ma na] pa], (version b) as [[mb nb] pb].
  rewrite !orb_true_iff, !andb_true_iff, !Nat.ltb_lt, !Nat.eqb_eq. tauto.
Qed.

Lemma preferred_trans (a b c : PythonInterpreter) :
  preferred a b = true -> preferred b c = true -> preferred a c = true.
Proof.
  rewrite !preferred_spec.
  destruct (version a) as [[ma na] pa], (version b) as [[mb nb] pb],
           (version c) as [[mc nc] pc]. lia.
Qed.

Lemma select_best (rest : list PythonInterpreter) :
  forall i,
    let best := fold_left (fun best c => if preferred c best then c else best) rest i in
    best ∈ i :: rest
    /\ (preferred i best = false)
    /\ forall c, c ∈ rest -> preferred c best = false.
Proof.
  induction rest as [|c rest IH]; intros i; cbn [fold_left].
  - split; [by left|]. split; [|intros c Hc; by apply elem_of_nil in Hc].
    destruct (preferred i i) eqn:H; [|done].
    apply preferred_spec in H. destruct (version i) as [[m n] p]. lia.
  - destruct (preferred c i) eqn:Hci.
    + destruct (IH c) as (Hin & Hc & Hall). cbv zeta in *.
      split; [by right|]. split.
      * destruct (preferred i _) eqn:Hi; [|done].
        pose proof (preferred_trans _ _ _ Hci Hi). congruence.
      * intros c' Hc'. apply elem_of_cons in Hc' as [->|Hc']; [done|by apply Hall].
    + destruct (IH i) as (Hin & Hi & Hall). cbv zeta in *.
      split.
      { apply elem_of_cons in Hin as [Hin|Hin]; [rewrite Hin; by left|].
        right. by right. }
      split; [done|].
      intros c' Hc'. apply elem_of_cons in Hc' as [Hc'|Hc']; [|by apply Hall].
      subst c'.
      apply not_true_iff_false. intros Hc.
      apply not_true_iff_false in Hci. apply not_true_iff_false in Hi.
      rewrite preferred_spec in Hc, Hci, Hi.
      destruct (version c) as [[mc nc] pc], (version i) as [[mi ni] pi].
      destruct (version _) as [[mb nb] pb]. lia.
Qed.

Lemma latest_release_spec (interps : list PythonInterpreter) (i : PythonInterpreter) :
  latest_release_of_min_compatible_version interps = Some i ->
  i ∈ interps /\ forall c, c ∈ interps -> preferred c i = false.
Proof.
  destruct interps as [|i0 rest]; [discriminate|].
  cbn [latest_release_of_min_compatible_version]. intros [= <-].
  destruct (select_best rest i0) as (Hin & Hi & Hall). cbv zeta in *.
  split; [done|].
  intros c Hc. apply elem_of_cons in Hc as [->|Hc]; [done|by apply Hall].
Qed.

Lemma interpreters_selected (w : World) (options : Options) (path : option string)
    (s : State) sel s' t :
  build_pex_interpreters w options path s = (Ok sel, s', t) ->
  match sel with
  | None => python options = [] /\ interpreter_constraint options = []
  | Some l => l <> [] /\ (python options <> [] \/ interpreter_constraint options <> [])
  end.
Proof.
  destruct (python options) as [|p ps] eqn:Hpy.
  - destruct (interpreter_constraint options) as [|c cs] eqn:Hic.
    + unfold build_pex_interpreters. rewrite Hpy, Hic. cbn [nonempty].
      intros [= <- _ _]. done.
    + rewrite interpreters_from_constraints by (rewrite ?Hic; done).
      cbv zeta. rewrite Hic.
      destruct (forallb _ _); [|discriminate].
      destruct (constraint_matches _ _ _) as [|i found]; [discriminate|].
      intros [= <- _ _]. split; [done|]. by right.
  - unfold build_pex_interpreters. rewrite Hpy. cbn [nonempty].
    unfold TRACER_timed. intros H.
    apply bind_inv_ok in H as (? & s1 & t1 & t2 & _ & H & _).
    apply bind_inv_ok in H as (l & s2 & t3 & t4 & Hl & H & _).
    injection H as <- _ _. apply mapM_ok_length in Hl.
    split; [|by left]. destruct l; [discriminate|done].
Qed.

(** C6: in the build plan the primary interpreter is absent exactly when
    the list of participating interpreters is empty, which is when no
    interpreter was given, no constraint was given and no declared platform
    was matched by a local interpreter; otherwise it is the latest release of
    the minimum compatible version among the participating interpreters: one
    of them, to which none of them is preferred. *)
Theorem primary_interpreter_selection (w : World) (options : Options)
    (s : State) (plan : BuildPlan) (s' : State) (t : list Event) :
  build_pex_plan w options s = (Ok plan, s', t) ->
  (plan_interpreter plan = None <-> plan_interpreters plan = [])
  /\ (plan_interpreters plan = [] <->
      python options = [] /\ interpreter_constraint options = []
      /\ (resolve_local_platforms options = true ->
          forall tag, tag ∈ platforms options ->
            claimant (local_candidates w (build_pex_python_path w options)) tag = None))
  /\ plan_interpreter plan
     = latest_release_of_min_compatible_version (plan_interpreters plan)
  /\ (forall i, plan_interpreter plan = Some i ->
        i ∈ plan_interpreters plan
        /\ forall c, c ∈ plan_interpreters plan -> preferred c i = false).
Proof.
  unfold build_pex_plan. intros H.
  apply bind_inv_ok in H as (sel & s1 & t1 & t2 & Hsel & H & _).
  apply bind_inv_ok in H as (r & s2 & t3 & t4 & Hr & H & _).
  injection H as <- _ _. cbn [plan_interpreter plan_interpreters].
  apply interpreters_selected in Hsel.
  set (path := build_pex_python_path w options) in *.
  set (interpreters := match sel with
                       | Some l => if nonempty l then l else []
                       | None => []
                       end) in *.
  destruct (build_pex_platforms_run w options path interpreters s1)
    as (t' & Hrun & _).
  rewrite Hrun in Hr. injection Hr as <- _ _.
  assert (Hprimary :
    (if nonempty (platforms_result w options path interpreters).2
     then latest_release_of_min_compatible_version
            (platforms_result w options path interpreters).2
     else None)
    = latest_release_of_min_compatible_version
        (platforms_result w options path interpreters).2).
  { destruct (platforms_result w options path interpreters).2; reflexivity. }
  rewrite Hprimary.
  assert (Hempty : interpreters = [] <->
          python options = [] /\ interpreter_constraint options = []).
  { unfold interpreters. destruct sel as [l|].
    - destruct Hsel as [Hl Hor]. destruct l as [|i l]; [done|]. cbn [nonempty].
      split; [discriminate|]. intros [? ?]. destruct Hor; done.
    - done. }
  split; [|split; [|split]].
  - destruct (platforms_result w options path interpreters).2; simpl; split; done.
  - unfold platforms_result.
    destruct (nonempty (platforms options) && resolve_local_platforms options) eqn:Hgate.
    + apply andb_true_iff in Hgate as [_ Hflag].
      split.
      * intros Hnil. 
        assert (Hi : interpreters = []).
        { destruct interpreters as [|i l] eqn:Hi; [done|].
          pose proof (match_loop_mono (local_candidates w path)
                        (OrderedSet (platforms options)) (i :: l) i) as Hm.
          rewrite Hnil in Hm. exfalso. eapply not_elem_of_nil, Hm. by left. }
        apply Hempty in Hi as [? ?]. split; [done|]. split; [done|].
        intros _ tag Htag.
        destruct (claimant (local_candidates w path) tag) as [c|] eqn:Hc; [|done].
        pose proof (match_loop_claimed (local_candidates w path)
                      (OrderedSet (platforms options)) interpreters tag c) as Hm.
        rewrite Hnil in Hm. exfalso. eapply not_elem_of_nil, Hm; [|done].
        by apply OrderedSet_elem.
      * intros (Hp & Hc & Hno).
        assert (Hi : interpreters = []) by (apply Hempty; done).
        destruct (match_loop _ _).2 as [|c l] eqn:Hm; [done|].
        pose proof (match_loop_origin (local_candidates w path)
                      (OrderedSet (platforms options)) interpreters c) as Ho.
        rewrite Hm in Ho. destruct Ho as [Ho|(tag & Htag & Ho)]; [by left| |].
        -- rewrite Hi in Ho. by apply elem_of_nil in Ho.
        -- apply (proj1 (OrderedSet_elem _ _)) in Htag.
           rewrite (Hno Hflag tag Htag) in Ho. done.
    + cbn [snd]. rewrite Hempty. split.
      * intros [? ?]. split; [done|]. split; [done|].
        intros Hflag tag Htag. rewrite Hflag, andb_true_r in Hgate.
        destruct (platforms options); [by apply elem_of_nil in Htag|discriminate].
      * intros (? & ? & _). done.
  - reflexivity.
  - intros i Hi. by apply latest_release_spec.
Qed.

(** ** Selection on concrete inputs *)

Lemma primary_interpreter_selection_witness :
  let options := options_with ["python3.9"; "/usr/bin/python3.8"] [] [] false
                              None None None None false None None None []
                              None None Seed_NONE "/tmp" in
  let plan := mkBuildPlan (Some py38) [py39; py38] [] in
  build_pex_plan example_world options initial_state
  = (Ok plan, initial_state,
     [EvTracer ResolvingInterpreters; EvProbe (ProbeEnv "python3.9");
      EvProbe (ProbeBinary "/usr/bin/python3.8")])
  /\ (plan_interpreter plan = None <-> plan_interpreters plan = [])
  /\ (forall c, c ∈ plan_interpreters plan -> preferred c py38 = false).
Proof.
  intros options plan.
  assert (Hplan : build_pex_plan example_world options initial_state
                  = (Ok plan, initial_state,
                     [EvTracer ResolvingInterpreters; EvProbe (ProbeEnv "python3.9");
                      EvProbe (ProbeBinary "/usr/bin/python3.8")]))
    by by_evaluation.
  split; [exact Hplan|].
  destruct (primary_interpreter_selection example_world options initial_state
              plan _ _ Hplan) as (Hiff & _ & _ & Hbest).
  split; [exact Hiff|]. apply (Hbest py38 eq_refl).
Defined.

Lemma platform_matching_example :
  let options := options_with [] [] [Some linux_cp39; None; Some macos_cp39; None]
                              true None None None None false None None None []
                              None None Seed_NONE "/tmp" in
  build_pex_platforms example_world options None [] initial_state
  = (Ok ([None; Some macos_cp39], [py39]), initial_state,
     [EvTracer (SearchingLocalInterpreters [Some linux_cp39; None; Some macos_cp39]);
      EvProbe (ProbeSearch None []); EvProbe ProbeCurrent;
      EvTracer (ResolvedPlatform py39 linux_cp39);
      EvTracer (CouldNotResolveLocal [None; Some macos_cp39])]).
Proof. by_evaluation. Qed.

(** The claimant of a tag is the first candidate that supports it. *)
Lemma claimant_is_first (candidates : list PythonInterpreter) (t : PlatformTag)
    (c : PythonInterpreter) :
  claimant candidates t = Some c <->
  exists before after,
    candidates = before ++ c :: after
    /\ claims c t = true
    /\ forall c', c' ∈ before -> claims c' t = false.
Proof.
  unfold claimant. induction candidates as [|c0 cs IH]; simpl.
  - split; [discriminate|]. intros (before & after & H & _). by destruct before.
  - destruct (claims c0 t) eqn:Hc0.
    + split.
      * intros [= <-]. exists [], cs. repeat split; [done|].
        intros c' Hc'. by apply elem_of_nil in Hc'.
      * intros (before & after & H & Hc & Hno). destruct before as [|b before].
        -- by injection H as <- _.
        -- injection H as <- _. rewrite (Hno c0) in Hc0; [done|by left].
    + rewrite IH. split.
      * intros (before & after & -> & Hc & Hno). exists (c0 :: before), after.
        repeat split; [done|]. intros c' Hc'.
        apply elem_of_cons in Hc' as [->|Hc']; [done|by apply Hno].
      * intros (before & after & H & Hc & Hno). destruct before as [|b before].
        -- injection H as <- _. congruence.
        -- injection H as <- ->. exists before, after. repeat split; [done|].
           intros c' Hc'. apply Hno. by right.
Qed.

(** ** The events each part of the build can emit *)

Lemma emits_ret {A} (P : Event -> bool) (a : A) : emits P (ret a).
Proof. intros s r s' t [= _ _ <-]. reflexivity. Qed.

Lemma emits_raise {A} (P : Event -> bool) (e : Exn) : emits P (@raise A e).
Proof. intros s r s' t [= _ _ <-]. reflexivity. Qed.

Lemma emits_die {A} (P : Event -> bool) msg st : emits P (@die A msg st).
Proof. intros s r s' t [= _ _ <-]. reflexivity. Qed.

Lemma emits_tell (P : Event -> bool) (e : Event) : P e = true -> emits P (tell e).
Proof. intros HP s r s' t [= _ _ <-]. simpl. by rewrite HP. Qed.

Lemma emits_bind {A B} (P : Event -> bool) (m : M A) (k : A -> M B) :
  emits P m -> (forall a, emits P (k a)) -> emits P (bind m k).
Proof.
  intros Hm Hk s r s' t. unfold bind.
  destruct (m s) as [[r1 s1] t1] eqn:Em. apply Hm in Em.
  destruct r1 as [a| | |]; try (intros [= _ _ <-]; exact Em).
  destruct (k a s1) as [[r2 s2] t2] eqn:Ek. apply Hk in Ek.
  intros [= _ _ <-]. rewrite forallb_app, Em, Ek. reflexivity.
Qed.

Lemma emits_try_except {A} (P : Event -> bool) (m : M A) (sel : Exn -> option (M A)) :
  emits P m -> (forall e h, sel e = Some h -> emits P h) -> emits P (try_except m sel).
Proof.
  intros Hm Hh s r s' t. unfold try_except.
  destruct (m s) as [[r1 s1] t1] eqn:Em. apply Hm in Em.
  destruct r1 as [a| | |e]; try (intros [= _ _ <-]; exact Em).
  destruct (sel e) as [h|] eqn:Es; [|intros [= _ _ <-]; exact Em].
  destruct (h s1) as [[r2 s2] t2] eqn:Eh. apply (Hh _ _ Es) in Eh.
  intros [= _ _ <-]. rewrite forallb_app, Em, Eh. reflexivity.
Qed.

Lemma emits_mapM {A B} (P : Event -> bool) (f : A -> M B) (l : list A) :
  (forall x, emits P (f x)) -> emits P (mapM f l).
Proof.
  intros Hf. induction l as [|x l IH]; cbn [mapM].
  - apply emits_ret.
  - apply emits_bind; [apply Hf|]. intros y.
    apply emits_bind; [apply IH|]. intros ys. apply emits_ret.
Qed.

Lemma emits_foldM {A B} (P : Event -> bool) (f : A -> B -> M A) (l : list B) :
  (forall a x, emits P (f a x)) -> forall a, emits P (foldM f a l).
Proof.
  intros Hf. induction l as [|x l IH]; intros a; cbn [foldM].
  - apply emits_ret.
  - apply emits_bind; [apply Hf|]. intros a'. apply IH.
Qed.

Lemma emits_weaken {A} (P Q : Event -> bool) (m : M A) :
  (forall e, P e = true -> Q e = true) -> emits P m -> emits Q m.
Proof.
  intros HPQ Hm s r s' t E. apply Hm in E.
  rewrite forallb_forall in *. intros e He. apply HPQ, E, He.
Qed.

Lemma emits_safe_mkdtemp (w : World) : emits setup_event (safe_mkdtemp w).
Proof. intros s r s' t [= _ _ <-]. reflexivity. Qed.

Lemma emits_OrderedSet_remove {A} `{EqDecision A} (P : Event -> bool)
    (l : list A) (x : A) : emits P (OrderedSet_remove l x).
Proof.
  unfold OrderedSet_remove. destruct (decide (x ∈ l)); [apply emits_ret|apply emits_raise].
Qed.

Lemma emits_iter_compatible_interpreters (w : World) path cs :
  emits setup_event (iter_compatible_interpreters w path cs).
Proof.
  unfold iter_compatible_interpreters.
  apply emits_bind; [by apply emits_tell|]. intros _.
  destruct (_ && _); [apply emits_raise|apply emits_ret].
Qed.

Lemma emits_to_python_interpreter (w : World) p :
  emits setup_event (to_python_interpreter w p).
Proof.
  unfold to_python_interpreter. destruct (w_isfile w p).
  - apply emits_bind; [by apply emits_tell|]. intros _.
    destruct (w_from_binary w p); [apply emits_ret|apply emits_raise].
  - apply emits_bind; [by apply emits_tell|]. intros _.
    destruct (w_from_env w p); [apply emits_ret|apply emits_die].
Qed.

Lemma emits_build_pex_interpreters (w : World) (options : Options) path :
  emits setup_event (build_pex_interpreters w options path).
Proof.
  unfold build_pex_interpreters, TRACER_timed, validate_constraints.
  destruct (nonempty (python options)).
  - apply emits_bind; [by apply emits_tell|]. intros _.
    apply emits_bind; [apply emits_mapM, emits_to_python_interpreter|].
    intros l. apply emits_ret.
  - destruct (nonempty (interpreter_constraint options)); [|apply emits_ret].
    apply emits_bind; [by apply emits_tell|]. intros _.
    apply emits_bind.
    { apply emits_bind; [by apply emits_tell|]. intros _.
      destruct (forallb _ _); [apply emits_ret|apply emits_raise]. }
    intros _. apply emits_try_except.
    + apply emits_bind; [apply emits_iter_compatible_interpreters|].
      intros l. apply emits_ret.
    + intros e h. destruct e; try discriminate. intros [= <-]. apply emits_die.
Qed.

Lemma emits_resolve_candidate c acc : emits setup_event (resolve_candidate c acc).
Proof.
  unfold resolve_candidate. destruct (nonempty _); [|apply emits_ret].
  apply emits_bind.
  - apply emits_foldM. intros pl p.
    apply emits_bind; [by apply emits_tell|]. intros _.
    apply emits_OrderedSet_remove.
  - intros pl. apply emits_ret.
Qed.

Lemma emits_build_pex_platforms (w : World) (options : Options) path interpreters :
  emits setup_event (build_pex_platforms w options path interpreters).
Proof.
  unfold build_pex_platforms, TRACER_timed, TRACER_log, when.
  destruct (_ && _); [|apply emits_ret].
  apply emits_bind.
  - apply emits_bind; [by apply emits_tell|]. intros _.
    apply emits_bind; [apply emits_iter_compatible_interpreters|]. intros found.
    apply emits_bind; [by apply emits_tell|]. intros _.
    apply emits_foldM. intros acc c. apply emits_resolve_candidate.
  - intros r. apply emits_bind; [|intros _; apply emits_ret].
    destruct (nonempty r.1); [by apply emits_tell|apply emits_ret].
Qed.

Lemma emits_build_pex_plan (w : World) (options : Options) :
  emits setup_event (build_pex_plan w options).
Proof.
  unfold build_pex_plan.
  apply emits_bind; [apply emits_build_pex_interpreters|]. intros sel.
  apply emits_bind; [apply emits_build_pex_platforms|]. intros r.
  apply emits_ret.
Qed.

Lemma emits_build_pex_builder (w : World) (options : Options) interpreter :
  emits setup_event (build_pex_builder w options interpreter).
Proof.
  unfold build_pex_builder.
  apply emits_bind.
  - destruct (truthy _); [|apply emits_ret].
    destruct (preamble_file options) as [f|]; [|apply emits_ret].
    destruct (w_read w f); [apply emits_ret|apply emits_raise].
  - intros preamble. apply emits_bind; [apply emits_safe_mkdtemp|].
    intros path. apply emits_ret.
Qed.

Lemma emits_build_pex_deprecations (options : Options) :
  emits setup_event (build_pex_deprecations options).
Proof.
  unfold build_pex_deprecations, when, pex_warnings_warn.
  repeat (apply emits_bind; [|intros _]);
    try (match goal with |- emits _ (if ?b then _ else _) => destruct b end);
    try apply emits_ret; by apply emits_tell.
Qed.

Lemma emits_build_pex_resolve (w : World) reqs rc (options : Options) cache
    interpreters platforms b :
  emits build_event (build_pex_resolve w reqs rc options cache interpreters platforms b).
Proof.
  unfold build_pex_resolve, TRACER_timed, resolve, resolve_from_pex.
  apply emits_bind; [by apply emits_tell|]. intros _.
  apply emits_try_except.
  - apply emits_bind; [|intros ds; apply emits_ret].
    destruct (repository rc).
    + apply emits_bind; [by apply emits_tell|]. intros _.
      apply emits_bind; [by apply emits_tell|]. intros _.
      destruct (w_resolve_from_pex _ _); [apply emits_raise|apply emits_ret].
    + apply emits_bind; [by apply emits_tell|]. intros _.
      apply emits_bind; [by apply emits_tell|]. intros _.
      destruct (w_resolve _ _); [apply emits_raise|apply emits_ret].
  - intros e h. destruct e; try discriminate. intros [= <-]. apply emits_die.
Qed.

Lemma setup_event_build (e : Event) : setup_event e = true -> build_event e = true.
Proof. unfold build_event. intros ->. reflexivity. Qed.

Lemma setup_event_not_resolve (e : Event) :
  setup_event e = true -> negb (is_resolve e) = true.
Proof. destruct e; simpl; congruence. Qed.

Lemma build_event_not_seed (e : Event) :
  build_event e = true -> negb (seed_event e) = true.
Proof.
  destruct e; try match goal with l : TraceLabel |- _ => destruct l end;
    unfold build_event; simpl; congruence.
Qed.

Lemma emits_build_pex_entry_point (options : Options) b :
  emits build_event (build_pex_entry_point options b).
Proof.
  unfold build_pex_entry_point.
  apply emits_bind; [|intros _; apply emits_ret].
  destruct (_ && _); [apply emits_die|apply emits_ret].
Qed.

Lemma emits_build_pex (w : World) reqs rc (options : Options) cache :
  emits build_event (build_pex w reqs rc options cache).
Proof.
  unfold build_pex, build_pex_resolved.
  apply emits_bind; [|intros b; apply emits_build_pex_entry_point].
  apply emits_bind.
  { eapply emits_weaken; [apply setup_event_build|apply emits_build_pex_plan]. }
  intros plan. apply emits_bind.
  { eapply emits_weaken; [apply setup_event_build|apply emits_build_pex_builder]. }
  intros b. apply emits_bind.
  { eapply emits_weaken; [apply setup_event_build|apply emits_build_pex_deprecations]. }
  intros _. apply emits_build_pex_resolve.
Qed.

(** ** Interpreter constraints *)

Lemma build_pex_interpreters_prefix (w : World) (reqs : list string)
    (rc : ResolveConfiguration) (options : Options) (cache : option string)
    (s : State) r s' t r1 s1 t1 :
  build_pex w reqs rc options cache s = (r, s', t) ->
  build_pex_interpreters w options (build_pex_python_path w options) s = (r1, s1, t1) ->
  exists t2, t = t1 ++ t2.
Proof.
  intros Hb Hi. unfold build_pex in Hb.
  destruct (build_pex_resolved w reqs rc options cache s) as [[r2 s2] t2] eqn:Hres.
  destruct (bind_trace_prefix _ _ _ _ _ _ _ _ _ Hb Hres) as [u1 ->].
  unfold build_pex_resolved in Hres.
  destruct (build_pex_plan w options s) as [[r3 s3] t3] eqn:Hplan.
  destruct (bind_trace_prefix _ _ _ _ _ _ _ _ _ Hres Hplan) as [u2 ->].
  unfold build_pex_plan in Hplan.
  destruct (bind_trace_prefix _ _ _ _ _ _ _ _ _ Hplan Hi) as [u3 ->].
  exists (u3 ++ u2 ++ u1). by rewrite <- !app_assoc.
Qed.

Lemma build_pex_interpreters_died (w : World) (reqs : list string)
    (rc : ResolveConfiguration) (options : Options) (cache : option string)
    (s : State) msg st s1 t1 :
  build_pex_interpreters w options (build_pex_python_path w options) s
  = (Died msg st, s1, t1) ->
  build_pex w reqs rc options cache s = (Died msg st, s1, t1).
Proof.
  intros Hi. unfold build_pex, build_pex_resolved, build_pex_plan.
  by do 3 apply bind_died.
Qed.

Lemma build_pex_interpreters_raised (w : World) (reqs : list string)
    (rc : ResolveConfiguration) (options : Options) (cache : option string)
    (s : State) e s1 t1 :
  build_pex_interpreters w options (build_pex_python_path w options) s
  = (Raised e, s1, t1) ->
  build_pex w reqs rc options cache s = (Raised e, s1, t1).
Proof.
  intros Hi. unfold build_pex, build_pex_resolved, build_pex_plan.
  by do 3 apply bind_raised.
Qed.

Lemma constraint_matches_nil (w : World) (path : option string) (cs : list string) :
  (forall i, i ∈ w_iter_candidates w path -> existsb (w_matches w i) cs = false) ->
  constraint_matches w path cs = [].
Proof.
  unfold constraint_matches. intros Hno.
  induction (w_iter_candidates w path) as [|i l IH]; [done|].
  simpl. rewrite (Hno i) by (by left). apply IH.
  intros j Hj. apply Hno. by right.
Qed.

(** C4: with interpreter constraints and no explicit interpreter, [build_pex]
    validates the constraints before it probes any interpreter (the validation
    is the first thing it does, and a malformed constraint fails with no probe
    at all); when the constraints are well formed and no interpreter on the
    search path satisfies one of them, it dies with the status
    [CANNOT_SETUP_INTERPRETER] = 102, which is neither the default status of
    [die] nor [INVALID_OPTIONS]. *)
Theorem constraints_validated_then_unsatisfiable (w : World) (reqs : list string)
    (rc : ResolveConfiguration) (options : Options) (cache : option string)
    (s : State) :
  python options = [] ->
  interpreter_constraint options <> [] ->
  let cs := interpreter_constraint options in
  let path := build_pex_python_path w options in
  (exists r s' t',
     build_pex w reqs rc options cache s
     = (r, s', EvTracer ResolvingInterpreters :: EvValidateConstraints cs :: t'))
  /\ (forallb (w_well_formed w) cs = false ->
      build_pex w reqs rc options cache s
      = (Raised (External "validate_constraints"), s,
         [EvTracer ResolvingInterpreters; EvValidateConstraints cs]))
  /\ (forallb (w_well_formed w) cs = true ->
      (forall i, i ∈ w_iter_candidates w path -> existsb (w_matches w i) cs = false) ->
      build_pex w reqs rc options cache s
      = (Died (w_create_message w cs path "Could not find a compatible interpreter.")
              (Status CANNOT_SETUP_INTERPRETER), s,
         [EvTracer ResolvingInterpreters; EvValidateConstraints cs;
          EvProbe (ProbeSearch path cs)]))
  /\ CANNOT_SETUP_INTERPRETER = 102%Z
  /\ Status CANNOT_SETUP_INTERPRETER <> DieDefault
  /\ CANNOT_SETUP_INTERPRETER <> INVALID_OPTIONS.
Proof.
  intros Hpy Hic cs path.
  pose proof (interpreters_from_constraints w options path s Hpy Hic) as Hsel.
  cbv zeta in Hsel. fold cs in Hsel.
  split; [|split; [|split; [|split; [done|split; done]]]].
  - destruct (build_pex w reqs rc options cache s) as [[r s'] t] eqn:Hb.
    destruct (forallb (w_well_formed w) cs).
    + destruct (constraint_matches w path cs).
      * destruct (build_pex_interpreters_prefix _ _ _ _ _ _ _ _ _ _ _ _ Hb Hsel)
          as [t2 ->]. by exists r, s', (EvProbe (ProbeSearch path cs) :: t2).
      * destruct (build_pex_interpreters_prefix _ _ _ _ _ _ _ _ _ _ _ _ Hb Hsel)
          as [t2 ->]. by exists r, s', (EvProbe (ProbeSearch path cs) :: t2).
    + destruct (build_pex_interpreters_prefix _ _ _ _ _ _ _ _ _ _ _ _ Hb Hsel)
        as [t2 ->]. by exists r, s', t2.
  - intros Hwf. rewrite Hwf in Hsel. by apply build_pex_interpreters_raised.
  - intros Hwf Hno. rewrite Hwf, (constraint_matches_nil _ _ _ Hno) in Hsel.
    by apply build_pex_interpreters_died.
Qed.

Lemma constraints_validated_then_unsatisfiable_witness :
  let options := options_with [] ["<3"] [] false None None None None false
                              None None None [] None None Seed_NONE "/tmp" in
  python options = []
  /\ interpreter_constraint options <> []
  /\ build_pex example_world ["requests"] example_configuration options None
                initial_state
     = (Died "Could not find a compatible interpreter."
             (Status CANNOT_SETUP_INTERPRETER), initial_state,
        [EvTracer ResolvingInterpreters; EvValidateConstraints ["<3"];
         EvProbe (ProbeSearch None ["<3"])]).
Proof.
  intros options. split; [reflexivity|]. split; [discriminate|].
  destruct (constraints_validated_then_unsatisfiable example_world ["requests"]
              example_configuration options None initial_state)
    as (_ & _ & Hunsat & _); [reflexivity|discriminate|].
  apply Hunsat; [reflexivity|].
  intros i Hi. reflexivity.
Defined.

(** ** From the arguments to the namespace (lines 879-889) *)

Lemma parse_args_parsed (w : World) (args : option (list string))
    (options : Options) (cmdline : list string) (s : State) :
  parsed w args = Some (options, cmdline) ->
  parse_args w (main_arguments (w_InheritPath_PREFER w) args (w_sys_argv w)).1 s
  = (Ok options, s, [])
  /\ (main_arguments (w_InheritPath_PREFER w) args (w_sys_argv w)).2 = cmdline.
Proof.
  unfold parsed, parse_args.
  destruct (w_parse_args w _) as [o|code out err]; [|discriminate].
  destruct (is_some (unzip o) && is_some (venv o)); [discriminate|].
  by intros [= -> <-].
Qed.

(** Once the arguments are parsed, [main] is the probe of [configure_clp]
    followed by [main_from_options]. *)
Lemma main_parsed (w : World) (args : option (list string))
    (options : Options) (cmdline : list string) (s : State) :
  parsed w args = Some (options, cmdline) ->
  main w args s
  = (let '(r, s', t) := main_from_options w options cmdline s in
     (r, s', EvProbe ProbeCurrent :: t)).
Proof.
  intros Hp. destruct (parse_args_parsed w args options cmdline s Hp) as [Hparse Hcmd].
  unfold main, configure_clp. unfold bind at 1. cbn [tell].
  unfold bind at 1. rewrite Hparse, Hcmd.
  by destruct (main_from_options w options cmdline s) as [[r s'] t].
Qed.

Lemma parsed_group (w : World) (args : option (list string))
    (options : Options) (cmdline : list string) :
  parsed w args = Some (options, cmdline) ->
  is_some (unzip options) && is_some (venv options) = false.
Proof.
  unfold parsed. destruct (w_parse_args w _) as [o|code out err]; [|discriminate].
  destruct (is_some (unzip o) && is_some (venv o)) eqn:Hg; [discriminate|].
  by intros [= <- _].
Qed.

Lemma emits_main_parsed (P : Event -> bool) (w : World) (args : option (list string))
    (options : Options) (cmdline : list string) :
  parsed w args = Some (options, cmdline) ->
  P (EvProbe ProbeCurrent) = true ->
  emits P (main_from_options w options cmdline) ->
  emits P (main w args).
Proof.
  intros Hp HP Hm s r s' t. rewrite (main_parsed w args options cmdline s Hp).
  destruct (main_from_options w options cmdline s) as [[r0 s0] t0] eqn:H0.
  intros [= _ _ <-]. cbn [forallb]. rewrite HP. by apply (Hm s r0 s0 t0).
Qed.

(** ** Conflicting options *)

Lemma no_resolve_filter (t : list Event) :
  forallb setup_event t = true -> List.filter is_resolve t = [].
Proof.
  induction t as [|e t IH]; [done|]. simpl.
  intros H. apply andb_true_iff in H as [He Ht].
  apply setup_event_not_resolve in He. apply negb_true_iff in He.
  rewrite He. by apply IH.
Qed.

Lemma build_pex_resolve_once (w : World) reqs rc (options : Options) cache
    interpreters platforms b s b' s' t :
  build_pex_resolve w reqs rc options cache interpreters platforms b s = (Ok b', s', t) ->
  length (List.filter is_resolve t) = 1.
Proof.
  unfold build_pex_resolve, TRACER_timed, resolve, resolve_from_pex, try_except,
    bind, tell, ret, raise, die.
  destruct (repository rc).
  - destruct (w_resolve_from_pex _ _); [discriminate|]. by intros [= _ _ <-].
  - destruct (w_resolve _ _); [discriminate|]. by intros [= _ _ <-].
Qed.

Lemma build_pex_resolved_once (w : World) reqs rc (options : Options) cache s b s' t :
  build_pex_resolved w reqs rc options cache s = (Ok b, s', t) ->
  length (List.filter is_resolve t) = 1.
Proof.
  unfold build_pex_resolved. intros H.
  apply bind_inv_ok in H as (plan & s1 & t1 & u1 & Hplan & H & ->).
  apply bind_inv_ok in H as (b0 & s2 & t2 & u2 & Hb & H & ->).
  apply bind_inv_ok in H as (? & s3 & t3 & u3 & Hd & H & ->).
  apply emits_build_pex_plan in Hplan. apply emits_build_pex_builder in Hb.
  apply emits_build_pex_deprecations in Hd. apply build_pex_resolve_once in H.
  rewrite !List.filter_app, !length_app.
  rewrite (no_resolve_filter _ Hplan), (no_resolve_filter _ Hb),
    (no_resolve_filter _ Hd). simpl. done.
Qed.

(** C1, as the code has it: with both an entry point and a script,
    [build_pex] never returns a builder.  It reports the conflict with the
    status [INVALID_OPTIONS] exactly when everything before the check
    (interpreter and platform selection, the workspace, dependency resolution)
    succeeded, and then the resolver has been invoked exactly once; a failure
    of an earlier step is reported as it is. *)
Theorem entry_point_script_conflict_after_resolution (w : World)
    (reqs : list string) (rc : ResolveConfiguration) (options : Options)
    (cache : option string) (s : State) :
  truthy (entry_point options) = true ->
  truthy (script options) = true ->
  match build_pex_resolved w reqs rc options cache s with
  | (Ok _, s', t) =>
      build_pex w reqs rc options cache s
      = (Died "Must specify at most one entry point or script."
              (Status INVALID_OPTIONS), s', t)
      /\ length (List.filter is_resolve t) = 1
  | (failure, s', t) => build_pex w reqs rc options cache s = (failure, s', t)
  end.
Proof.
  intros He Hs.
  destruct (build_pex_resolved w reqs rc options cache s) as [[r s'] t] eqn:Hres.
  unfold build_pex, bind. rewrite Hres.
  destruct r as [b| | |]; try reflexivity.
  split; [|by eapply build_pex_resolved_once].
  unfold build_pex_entry_point, bind. rewrite He, Hs. simpl.
  by rewrite app_nil_r.
Qed.

Lemma entry_point_script_conflict_after_resolution_witness :
  let options := options_with [] [] [] false (Some "pkg.mod:main") (Some "somescript")
                              None None false None None None [] None None
                              Seed_NONE "/tmp" in
  truthy (entry_point options) = true
  /\ truthy (script options) = true
  /\ exists s' t,
       build_pex example_world ["requests"] example_configuration options None
                 initial_state
       = (Died "Must specify at most one entry point or script."
               (Status INVALID_OPTIONS), s', t)
       /\ length (List.filter is_resolve t) = 1.
Proof.
  intros options. split; [reflexivity|]. split; [reflexivity|].
  pose proof (entry_point_script_conflict_after_resolution example_world
                ["requests"] example_configuration options None initial_state
                eq_refl eq_refl) as H.
  assert (Hok : match build_pex_resolved example_world ["requests"]
                        example_configuration options None initial_state with
                | (Ok _, _, _) => true
                | _ => false
                end = true) by (vm_compute; reflexivity).
  destruct (build_pex_resolved example_world ["requests"] example_configuration
              options None initial_state) as [[[b| | |] s'] t];
    try discriminate Hok.
  exists s', t. exact H.
Defined.

(** The failing input of C1, evaluated: for [-m pkg.mod:main -c somescript]
    the conflict is reported, with [INVALID_OPTIONS], only after the resolver
    has been called; and where the resolution fails, [build_pex] dies with the
    resolver's message and the default status, and the conflict is not
    reported at all. *)
Lemma entry_point_script_conflict_evaluated :
  let options := options_with [] [] [] false (Some "pkg.mod:main") (Some "somescript")
                              None None false None None None [] None None
                              Seed_NONE "/tmp" in
  (build_pex example_world ["requests"] example_configuration options None
             initial_state).1.1
  = Died "Must specify at most one entry point or script." (Status INVALID_OPTIONS)
  /\ existsb is_resolve
       (build_pex example_world ["requests"] example_configuration options None
                  initial_state).2 = true
  /\ (build_pex offline_world ["requests"] example_configuration options None
                initial_state).1.1
     = Died unsatisfiable_message DieDefault.
Proof.
  intros options. split; [|split]; vm_compute; reflexivity.
Qed.

Lemma no_probe_filter (t : list Event) :
  forallb (fun e => negb (is_probe e)) t = true -> List.filter is_probe t = [].
Proof.
  induction t as [|e t IH]; [done|]. cbn.
  intros H. apply andb_true_iff in H as [He Ht].
  apply negb_true_iff in He. rewrite He. by apply IH.
Qed.

Lemma python_conflict_from_options (w : World) (options : Options)
    (cmdline : list string) (s : State) :
  nonempty (python options) = true ->
  nonempty (interpreter_constraint options) = true ->
  exists msg s' t,
    main_from_options w options cmdline s = (Died msg DieDefault, s', t)
    /\ forallb (fun e => negb (is_probe e)) t = true.
Proof.
  intros Hpy Hic.
  unfold main_from_options, main_tmpdir, main_cache_dir, main_pex_root,
    main_python_conflict, warn_ignore_pex_root, pex_warnings_warn, safe_mkdtemp,
    bind, tell, ret, die.
  rewrite Hpy, Hic. cbn [andb].
  destruct (w_exists w _); cbn [negb]; [|by eexists _, _, _].
  destruct (w_isdir w _); cbn [negb]; [|by eexists _, _, _].
  destruct (truthy (cache_dir options)); 
    destruct (truthy (pex_root options)); cbn [andb];
    try destruct (bool_decide _); cbn [negb];
    try (by eexists _, _, _);
    destruct (disable_cache options);
    try destruct (truthy (w_environ_PEX_ROOT w));
    by eexists _, _, _.
Qed.

(** C2: when the arguments are parsed and both [--python] and
    [--interpreter-constraint] are given, [main] always dies with the default
    status of [die], the one every generic fatal error has, never with
    [INVALID_OPTIONS].  No interpreter has been probed for the build by then:
    the one interpreter query of the run is [PythonInterpreter.get()] in
    [configure_clp] (line 320), which every invocation makes before it parses
    its arguments. *)
Theorem python_and_constraint_conflict_status (w : World)
    (args : option (list string)) (options : Options) (cmdline : list string)
    (s : State) :
  parsed w args = Some (options, cmdline) ->
  nonempty (python options) = true ->
  nonempty (interpreter_constraint options) = true ->
  exists msg s' t,
    main w args s = (Died msg DieDefault, s', t)
    /\ List.filter is_probe t = [EvProbe ProbeCurrent]
    /\ Died (A:=unit) msg DieDefault <> Died msg (Status INVALID_OPTIONS).
Proof.
  intros Hp Hpy Hic.
  destruct (python_conflict_from_options w options cmdline s Hpy Hic)
    as (msg & s' & t & Hmain & Hno).
  exists msg, s', (EvProbe ProbeCurrent :: t).
  rewrite (main_parsed w args options cmdline s Hp), Hmain.
  split; [reflexivity|]. split; [|discriminate].
  cbn. by rewrite (no_probe_filter t Hno).
Qed.

Lemma python_and_constraint_conflict_status_witness :
  let args := Some ["--python"; "python3.9"; "--interpreter-constraint"; ">=3.8"] in
  let options := options_with ["python3.9"] [">=3.8"] [] false None None
                              None None false None None None [] None None
                              Seed_NONE "/tmp" in
  parsed example_world args = Some (options, [])
  /\ exists msg s' t,
       main example_world args initial_state = (Died msg DieDefault, s', t)
       /\ List.filter is_probe t = [EvProbe ProbeCurrent]
       /\ Died (A:=unit) msg DieDefault <> Died msg (Status INVALID_OPTIONS).
Proof.
  intros args options. split; [reflexivity|].
  apply (python_and_constraint_conflict_status example_world args options []
           initial_state); reflexivity.
Defined.

(** The failing input of C2, evaluated: [--python python3.9
    --interpreter-constraint ">=3.8"] dies with the default status of [die],
    as a missing [--tmpdir] does; it is not [INVALID_OPTIONS]; and the
    current interpreter has been identified before. *)
Lemma python_and_constraint_conflict_evaluated :
  main example_world
       (Some ["--python"; "python3.9"; "--interpreter-constraint"; ">=3.8"])
       initial_state
  = (Died python_and_constraint_message DieDefault, initial_state,
     [EvProbe ProbeCurrent; EvSetTmpdir "/tmp"])
  /\ main example_world (Some ["--tmpdir"; "/no/such/dir"]) initial_state
     = (Died "The specified --tmpdir does not exist: /no/such/dir" DieDefault,
        initial_state, [EvProbe ProbeCurrent])
  /\ DieDefault <> Status INVALID_OPTIONS.
Proof. split; [|split]; [by_evaluation..|discriminate]. Qed.

(** ** Seeding the cache *)

Lemma maybe_install_twice (w : World) (pex : option string) (root hash : string)
    (s : State) :
  exists d s1 t1,
    maybe_install w pex root hash s = (Ok d, s1, t1)
    /\ maybe_install w pex root hash s1 = (Ok d, s1, [])
    /\ length (List.filter install_work t1) <= 1
    /\ d = (if w_needs_install w pex then Some (cache_entry root hash) else None).
Proof.
  unfold maybe_install. destruct (w_needs_install w pex).
  - destruct (decide ((root, hash) ∈ cache s)) as [Hin|Hin].
    + exists (Some (cache_entry root hash)), s, []. rewrite decide_True by done.
      repeat split; simpl; lia.
    + eexists _, _, _. split; [reflexivity|]. cbn [cache].
      rewrite decide_True by set_solver. repeat split; simpl; lia.
  - exists None, s, []. repeat split; simpl; lia.
Qed.

Lemma ensure_venv_twice (w : World) (pex : PEX) (s : State) :
  exists s1 t1,
    ensure_venv w pex s = (Ok (w_venv_pex w pex), s1, t1)
    /\ ensure_venv w pex s1 = (Ok (w_venv_pex w pex), s1, [])
    /\ length (List.filter install_work t1) <= 1.
Proof.
  unfold ensure_venv. destruct (decide (w_venv_pex w pex ∈ venvs s)) as [Hin|Hin].
  - exists s, []. rewrite decide_True by done. repeat split; simpl; lia.
  - eexists _, _. split; [reflexivity|]. cbn [venvs].
    rewrite decide_True by set_solver. repeat split; simpl; lia.
Qed.

(** The path [seed_cache] computes from the result of [maybe_install]
    (lines 1008-1012). *)
Lemma seed_cache_venv (w : World) (options : Options) (pex : PEX) (verbose : bool)
    (s : State) pex_path v s1 t1 :
  pex_name options = Some pex_path -> venv options = Some v ->
  ensure_venv w pex s = (Ok (w_venv_pex w pex), s1, t1) ->
  seed_cache w options pex verbose s
  = (Ok (if verbose
         then w_json_dumps w
                (create_verbose_info (seed_pex_root (w_pex_info w pex)) pex
                                     (w_venv_pex w pex))
         else w_venv_pex w pex),
     s1, EvTracer (SeedingLocalCaches pex_path) :: EvTracer (CreatingVenv pex_path) :: t1).
Proof.
  intros Hname Hvenv Hens. unfold seed_cache, TRACER_timed. rewrite Hname, Hvenv.
  cbn [is_some]. unfold bind, tell. rewrite Hens.
  destruct verbose; unfold ret; cbn [app]; rewrite app_nil_r; reflexivity.
Qed.

Lemma seed_cache_install (w : World) (options : Options) (pex : PEX) (verbose : bool)
    (s : State) pex_path h d s1 t1 :
  pex_name options = Some pex_path -> venv options = None ->
  seed_pex_hash (w_pex_info w pex) = Some h ->
  maybe_install w (Some pex_path) (seed_pex_root (w_pex_info w pex)) h s
  = (Ok d, s1, t1) ->
  let final :=
    os_path_join (if truthy d then match d with Some x => x | None => "" end
                  else w_abspath w pex_path) "__main__.py" in
  seed_cache w options pex verbose s
  = (Ok (if verbose
         then w_json_dumps w
                (create_verbose_info (seed_pex_root (w_pex_info w pex)) pex final)
         else final),
     s1, EvTracer (SeedingLocalCaches pex_path) :: EvTracer (SeedingCaches pex_path) :: t1).
Proof.
  intros Hname Hvenv Hhash Hinst final. unfold seed_cache, TRACER_timed.
  rewrite Hname, Hvenv, Hhash. cbn [is_some format_path].
  unfold bind, tell. rewrite Hinst. subst final.
  destruct (truthy d), verbose; unfold os_path_abspath, ret; cbn [app];
    rewrite ?app_nil_r; reflexivity.
Qed.

Lemma seed_cache_without_hash (w : World) (options : Options) (pex : PEX)
    (verbose : bool) (s : State) (pex_path : string) :
  pex_name options = Some pex_path ->
  venv options = None ->
  seed_pex_hash (w_pex_info w pex) = None ->
  seed_cache w options pex verbose s
  = (Raised (AssertionError ("There was no pex_hash stored in " +:+ w_PexInfo_PATH w
                             +:+ " for " +:+ pex_path +:+ ".")),
     s, [EvTracer (SeedingLocalCaches pex_path)]).
Proof.
  intros Hname Hvenv Hhash. unfold seed_cache, TRACER_timed.
  rewrite Hname, Hvenv, Hhash. reflexivity.
Qed.

(** C9: without [--venv], an artifact whose metadata has no content hash
    makes [seed_cache] raise an [AssertionError] that names the metadata file
    and the artifact; the state, and with it the shared cache, is unchanged,
    and nothing but the tracing of the call has been emitted. *)
Theorem seed_cache_missing_hash (w : World) (options : Options) (pex : PEX)
    (verbose : bool) (s : State) (pex_path : string) :
  pex_name options = Some pex_path ->
  venv options = None ->
  seed_pex_hash (w_pex_info w pex) = None ->
  seed_cache w options pex verbose s
  = (Raised (AssertionError ("There was no pex_hash stored in " +:+ w_PexInfo_PATH w
                             +:+ " for " +:+ pex_path +:+ ".")),
     s, [EvTracer (SeedingLocalCaches pex_path)])
  /\ cache (seed_cache w options pex verbose s).1.2 = cache s.
Proof.
  intros Hname Hvenv Hhash.
  rewrite (seed_cache_without_hash w options pex verbose s pex_path Hname Hvenv Hhash).
  split; reflexivity.
Qed.

Lemma seed_cache_missing_hash_witness :
  let options := options_with [] [] [] false None None None None false
                              None None None [] (Some "out.pex") None
                              Seed_ARGS "/tmp" in
  pex_name options = Some "out.pex"
  /\ venv options = None
  /\ seed_pex_hash (w_pex_info (example_world_with None) example_pex) = None
  /\ seed_cache (example_world_with None) options example_pex false initial_state
     = (Raised (AssertionError
                  "There was no pex_hash stored in PEX-INFO for out.pex."),
        initial_state, [EvTracer (SeedingLocalCaches "out.pex")]).
Proof.
  intros options. split; [reflexivity|]. split; [reflexivity|]. split; [reflexivity|].
  apply (seed_cache_missing_hash (example_world_with None) options example_pex false
           initial_state "out.pex"); reflexivity.
Defined.





(** ** The output of seeding *)

Lemma prefix_append (a b : string) : String.prefix a (a +:+ b) = true.
Proof.
  induction a as [|c a IH].
  - by destruct b.
  - change (String c a +:+ b) with (String c (a +:+ b)). cbn [String.prefix].
    destruct (ascii_dec c c); [apply IH|done].
Qed.

Lemma append_assoc (a b c : string) : (a +:+ b) +:+ c = a +:+ (b +:+ c).
Proof.
  induction a as [|x a IH]; [done|].
  change (String x ((a +:+ b) +:+ c) = String x (a +:+ (b +:+ c))). by rewrite IH.
Qed.

Lemma os_path_join_main (a : string) :
  exists pre, os_path_join a "__main__.py" = pre +:+ "__main__.py"
              /\ (a <> "" -> exists mid, pre = a +:+ mid).
Proof.
  unfold os_path_join. cbn [String.prefix].
  destruct (ascii_dec "/" "_") as [E|_]; [discriminate E|].
  destruct (String.eqb a "") eqn:Ha.
  - apply String.eqb_eq in Ha as ->. exists "". split; [reflexivity|done].
  - destruct (ends_with_slash a).
    + exists a. split; [reflexivity|]. intros _. exists "".
      clear. induction a as [|c a IH]; [done|].
      change (String c a = String c (a +:+ "")). by rewrite <- IH.
    + exists (a +:+ "/"). split; [by rewrite append_assoc|].
      intros _. by exists "/".
Qed.

Lemma cache_entry_truthy (root hash : string) :
  truthy (Some (cache_entry root hash)) = true.
Proof. unfold cache_entry, truthy. by destruct root. Qed.

Lemma emits_log (P : Event -> bool) (msg : string) (V : nat) :
  (forall m, P (EvStderr m) = true) -> emits P (log msg V).
Proof.
  intros HP. unfold log. destruct (Nat.eqb V 0); [apply emits_ret|by apply emits_tell].
Qed.

Lemma emits_seed_cache (w : World) (options : Options) (pex : PEX) (verbose : bool) :
  emits (fun e => negb (is_stdout e)) (seed_cache w options pex verbose).
Proof.
  unfold seed_cache, TRACER_timed.
  apply emits_bind; [by apply emits_tell|]. intros _.
  destruct (is_some (venv options)).
  - apply emits_bind; [by apply emits_tell|]. intros _.
    apply emits_bind.
    + intros s r s' t. unfold ensure_venv.
      destruct (decide _); by intros [= _ _ <-].
    + intros v. destruct verbose; apply emits_ret.
  - destruct (seed_pex_hash _) as [h|]; [|apply emits_raise].
    apply emits_bind; [by apply emits_tell|]. intros _.
    apply emits_bind.
    + intros s r s' t. unfold maybe_install.
      destruct (w_needs_install w _); [|by intros [= _ _ <-]].
      destruct (decide _); by intros [= _ _ <-].
    + intros d. apply emits_bind.
      * destruct (truthy d); [apply emits_ret|].
        unfold os_path_abspath. destruct (pex_name options);
          [apply emits_ret|apply emits_raise].
      * intros dir. destruct verbose; apply emits_ret.
Qed.

Lemma no_stdout_filter (P : Event -> bool) (t : list Event) :
  (forall e, P e = true -> is_stdout e = false) ->
  forallb P t = true -> List.filter is_stdout t = [].
Proof.
  intros HP. induction t as [|e t IH]; [done|]. simpl.
  intros H. apply andb_true_iff in H as [He Ht].
  rewrite (HP e He). by apply IH.
Qed.

Lemma build_event_not_stdout (e : Event) : build_event e = true -> is_stdout e = false.
Proof. destruct e; unfold build_event; simpl; congruence. Qed.

Lemma main_build_without_seed (w : World) (options : Options) (cmdline : list string)
    (rc : ResolveConfiguration) (root tmp name : string) :
  pex_name options = Some name ->
  seed options = Seed_NONE ->
  emits (fun e => negb (seed_event e)) (main_build w options cmdline rc root tmp).
Proof.
  intros Hname Hseed. unfold main_build, TRACER_timed. rewrite Hname.
  apply emits_bind; [by apply emits_tell|]. intros _.
  apply emits_bind.
  { apply emits_bind; [by apply emits_tell|]. intros _.
    eapply emits_weaken; [apply build_event_not_seed|apply emits_build_pex]. }
  intros b. apply emits_bind; [by apply emits_tell|]. intros _.
  apply emits_bind; [by apply emits_log|]. intros _.
  apply emits_bind; [by apply emits_tell|]. intros _.
  rewrite Hseed. apply emits_ret.
Qed.

Lemma main_build_prints_seed_info (w : World) (options : Options)
    (cmdline : list string) (rc : ResolveConfiguration) (root tmp name : string)
    (s s' : State) (t : list Event) :
  pex_name options = Some name ->
  seed options <> Seed_NONE ->
  main_build w options cmdline rc root tmp s = (Ok tt, s', t) ->
  exists b s1 s2 t1 seed_info,
    seed_cache w options
      (mkPEX (b_path b) (w_builder_interpreter w b) (validate_ep options))
      (bool_decide (seed options = Seed_VERBOSE)) s1 = (Ok seed_info, s2, t1)
    /\ List.filter is_stdout t = [EvStdout seed_info].
Proof.
  intros Hname Hseed. unfold main_build, TRACER_timed. rewrite Hname.
  rewrite (bool_decide_eq_false_2 _ Hseed). cbn [negb].
  intros H.
  apply bind_inv_ok in H as (? & s0 & t0 & u0 & Hpatch & H & ->).
  injection Hpatch as _ <- <-.
  apply bind_inv_ok in H as (b & s1 & t1 & u1 & Hbuild & H & ->).
  apply bind_inv_ok in H as (? & s2 & t2 & u2 & Hfreeze & H & ->).
  injection Hfreeze as _ <- <-.
  apply bind_inv_ok in H as (? & s3 & t3 & u3 & Hlog & H & ->).
  apply bind_inv_ok in H as (? & s4 & t4 & u4 & Hb & H & ->).
  injection Hb as _ <- <-.
  apply bind_inv_ok in H as (seed_info & s5 & t5 & u5 & Hsc & H & ->).
  injection H as Hs Hu. subst s' u5.
  assert (Hs3 : s3 = s1).
  { unfold log in Hlog. destruct (Nat.eqb _ _); by injection Hlog as _ <- _. }
  subst s3.
  exists b, s1, s5, t5, seed_info. split; [exact Hsc|].
  assert (E1 : List.filter is_stdout t1 = []).
  { apply (no_stdout_filter build_event); [apply build_event_not_stdout|].
    eapply (emits_bind build_event); [| |apply Hbuild].
    - by apply emits_tell.
    - intros ?. apply emits_build_pex. }
  assert (E3 : List.filter is_stdout t3 = []).
  { apply (no_stdout_filter (fun e => negb (is_stdout e))).
    - intros e He. by apply negb_true_iff.
    - eapply emits_log; [|apply Hlog]. done. }
  assert (E5 : List.filter is_stdout t5 = []).
  { apply (no_stdout_filter (fun e => negb (is_stdout e))).
    - intros e He. by apply negb_true_iff.
    - eapply emits_seed_cache, Hsc. }
  rewrite !List.filter_app, E1, E3, E5. reflexivity.
Qed.

(** C8, as the code has it: after a standalone artifact was written,
    [seed_cache] without [--venv] returns one path that ends in [__main__.py];
    it lies under the cache root when [maybe_install] installed or reused a
    cache entry, and is the artifact's own absolute path joined with
    [__main__.py] when the artifact needs no installation.  With [--venv] it
    returns the path [ensure_venv] gives.  In verbose mode the same path is
    returned inside the serialized record with the keys [pex_root], [python]
    and [pex].  [main] prints what [seed_cache] returns and nothing else on
    the standard output, and with [Seed.NONE] it does not call [seed_cache] at
    all. *)
Theorem seed_output_shape (w : World) (options : Options) (pex : PEX) (s : State)
    (pex_path : string) :
  pex_name options = Some pex_path ->
  let root := seed_pex_root (w_pex_info w pex) in
  let record final :=
    w_json_dumps w [("pex_root", root); ("python", binary (pex_interpreter pex));
                    ("pex", final)] in
  (venv options = None ->
   forall h, seed_pex_hash (w_pex_info w pex) = Some h ->
     exists final s1 t1,
       seed_cache w options pex false s = (Ok final, s1, t1)
       /\ seed_cache w options pex true s = (Ok (record final), s1, t1)
       /\ (exists pre, final = pre +:+ "__main__.py")
       /\ (w_needs_install w (Some pex_path) = true -> String.prefix root final = true)
       /\ (w_needs_install w (Some pex_path) = false ->
           final = os_path_join (w_abspath w pex_path) "__main__.py"))
  /\ (forall v, venv options = Some v ->
        exists s1 t1,
          seed_cache w options pex false s = (Ok (w_venv_pex w pex), s1, t1)
          /\ seed_cache w options pex true s
             = (Ok (record (w_venv_pex w pex)), s1, t1))
  /\ (forall cmdline rc cache_root tmp,
        seed options = Seed_NONE ->
        emits (fun e => negb (seed_event e))
              (main_build w options cmdline rc cache_root tmp))
  /\ (forall cmdline rc cache_root tmp s0 s' t,
        seed options <> Seed_NONE ->
        main_build w options cmdline rc cache_root tmp s0 = (Ok tt, s', t) ->
        exists b s1 s2 t1 seed_info,
          seed_cache w options
            (mkPEX (b_path b) (w_builder_interpreter w b) (validate_ep options))
            (bool_decide (seed options = Seed_VERBOSE)) s1
          = (Ok seed_info, s2, t1)
          /\ List.filter is_stdout t = [EvStdout seed_info]).
Proof.
  intros Hname root record. split; [|split; [|split]].
  - intros Hvenv h Hhash.
    destruct (maybe_install_twice w (Some pex_path) root h s)
      as (d & s1 & t1 & H1 & _ & _ & Hd).
    pose proof (seed_cache_install w options pex false s pex_path h d s1 t1
                  Hname Hvenv Hhash H1) as Hargs.
    pose proof (seed_cache_install w options pex true s pex_path h d s1 t1
                  Hname Hvenv Hhash H1) as Hverbose.
    cbv zeta in Hargs, Hverbose. eexists _, _, _.
    split; [exact Hargs|]. split; [exact Hverbose|].
    split; [|split].
    + destruct (os_path_join_main
                  (if truthy d then match d with Some x => x | None => "" end
                   else w_abspath w pex_path)) as (pre & Hpre & _).
      by exists pre.
    + intros Hneeds. rewrite Hneeds in Hd. subst d.
      rewrite cache_entry_truthy.
      destruct (os_path_join_main (cache_entry root h)) as (pre & -> & Hmid).
      destruct Hmid as [mid ->]; [unfold cache_entry; by destruct root|].
      unfold cache_entry. rewrite !append_assoc. apply prefix_append.
    + intros Hneeds. rewrite Hneeds in Hd. subst d. reflexivity.
  - intros v Hvenv.
    destruct (ensure_venv_twice w pex s) as (s1 & t1 & H1 & _ & _).
    exists s1, (EvTracer (SeedingLocalCaches pex_path)
                :: EvTracer (CreatingVenv pex_path) :: t1).
    split.
    + apply (seed_cache_venv w options pex false s pex_path v s1 t1 Hname Hvenv H1).
    + apply (seed_cache_venv w options pex true s pex_path v s1 t1 Hname Hvenv H1).
  - intros cmdline rc cache_root tmp Hseed. by eapply main_build_without_seed.
  - intros cmdline rc cache_root tmp s0 s' t Hseed Hrun.
    by eapply main_build_prints_seed_info.
Qed.

Lemma seed_output_shape_witness :
  let options := options_with [] [] [] false None None None None false
                              None None None [] (Some "out.pex") None
                              Seed_ARGS "/tmp" in
  pex_name options = Some "out.pex"
  /\ exists final s1 t1,
       seed_cache example_world options example_pex false initial_state
       = (Ok final, s1, t1)
       /\ (exists pre, final = pre +:+ "__main__.py")
       /\ String.prefix "/home/user/.pex" final = true.
Proof.
  intros options. split; [reflexivity|].
  destruct (seed_output_shape example_world options example_pex initial_state
              "out.pex" eq_refl) as (Hargs & _).
  destruct (Hargs eq_refl "0a1b2c" eq_refl)
    as (final & s1 & t1 & Hrun & _ & Hmain & Hprefix & _).
  exists final, s1, t1. split; [exact Hrun|]. split; [exact Hmain|].
  apply Hprefix. reflexivity.
Defined.

Lemma seed_cache_args_example :
  let options := options_with [] [] [] false None None None None false
                              None None None [] (Some "out.pex") None
                              Seed_ARGS "/tmp" in
  seed_cache example_world options example_pex false initial_state
  = (Ok "/home/user/.pex/0a1b2c/__main__.py",
     mkState 0 {[ ("/home/user/.pex", "0a1b2c") ]} ∅,
     [EvTracer (SeedingLocalCaches "out.pex"); EvTracer (SeedingCaches "out.pex");
      EvInstall "out.pex" "/home/user/.pex" "0a1b2c"]).
Proof. intros options. by_evaluation. Qed.

(** C8 as stated fails: seeding a loose-layout artifact with [--seed=args]
    returns the artifact's own path, which is not under the cache root. *)
Lemma seed_path_under_cache_root_counterexample :
  let options := options_with [] [] [] false None None None None false
                              None None None [] (Some "loose.pex") None
                              Seed_ARGS "/tmp" in
  seed_cache example_world options example_pex false initial_state
  = (Ok "/work/loose.pex/__main__.py", initial_state,
     [EvTracer (SeedingLocalCaches "loose.pex"); EvTracer (SeedingCaches "loose.pex")])
  /\ seed_pex_root (w_pex_info example_world example_pex) = "/home/user/.pex"
  /\ String.prefix "/home/user/.pex" "/work/loose.pex/__main__.py" = false.
Proof. intros options. split; [by_evaluation|]. split; reflexivity. Qed.

(** ** The cache root under [--disable-cache] *)

Lemma main_tmpdir_ok (w : World) (options : Options) (s : State) :
  w_exists w (w_realpath w (tmpdir options)) = true ->
  w_isdir w (w_realpath w (tmpdir options)) = true ->
  main_tmpdir w options s
  = (Ok (w_realpath w (tmpdir options)), s, [EvSetTmpdir (w_realpath w (tmpdir options))]).
Proof.
  intros He Hd. unfold main_tmpdir, bind. rewrite He, Hd. reflexivity.
Qed.

Lemma main_cache_dir_ok (options : Options) (s : State) :
  truthy (cache_dir options) && truthy (pex_root options)
  && negb (bool_decide (cache_dir options = pex_root options)) = false ->
  main_cache_dir options s
  = (Ok tt, s, if truthy (cache_dir options) then [EvWarn warn_cache_dir] else []).
Proof.
  intros Hc. unfold main_cache_dir, bind, pex_warnings_warn, tell.
  destruct (truthy (cache_dir options)); [|reflexivity].
  cbn [andb] in Hc. rewrite Hc. reflexivity.
Qed.

Lemma main_pex_root_disabled (w : World) (options : Options) (s : State) :
  disable_cache options = true ->
  main_pex_root w options s
  = (Ok (w_mkdtemp w (fresh s)), mkState (S (fresh s)) (cache s) (venvs s),
     ignored_root_warning w options ++ [EvMkdtemp (w_mkdtemp w (fresh s))]).
Proof.
  intros Hd. unfold main_pex_root, ignored_root_warning, warn_ignore_pex_root,
    pex_warnings_warn, bind, tell, safe_mkdtemp.
  rewrite Hd.
  destruct (truthy (cache_dir options)); [reflexivity|].
  destruct (truthy (pex_root options)); [reflexivity|].
  destruct (truthy (w_environ_PEX_ROOT w)); reflexivity.
Qed.

(** C10, as the code has it: under [--disable-cache], once [main] is past
    its checks of the temporary directory and of [--cache-dir] against
    [--pex-root], it takes a fresh temporary directory as the cache root,
    whatever [--cache-dir], [--pex-root] and [PEX_ROOT] say; it warns about
    the ignored setting at most once, for the first of the three that is set;
    and the rest of the invocation runs with that directory as its cache
    root.  Before that, [main] has only identified the current interpreter
    for its parser and parsed its arguments. *)
Theorem disable_cache_uses_fresh_root (w : World) (args : option (list string))
    (options : Options) (cmdline : list string) (s : State) :
  parsed w args = Some (options, cmdline) ->
  disable_cache options = true ->
  w_exists w (w_realpath w (tmpdir options)) = true ->
  w_isdir w (w_realpath w (tmpdir options)) = true ->
  truthy (cache_dir options) && truthy (pex_root options)
  && negb (bool_decide (cache_dir options = pex_root options)) = false ->
  let tmp := w_realpath w (tmpdir options) in
  let fresh_root := w_mkdtemp w (fresh s) in
  let s1 := mkState (S (fresh s)) (cache s) (venvs s) in
  main_pex_root w options s
  = (Ok fresh_root, s1, ignored_root_warning w options ++ [EvMkdtemp fresh_root])
  /\ length (ignored_root_warning w options) <= 1
  /\ main w args s
     = (let '(r, s', t) := main_from_pex_root w options cmdline fresh_root tmp s1 in
        (r, s',
         EvProbe ProbeCurrent
         :: EvSetTmpdir tmp
         :: (if truthy (cache_dir options) then [EvWarn warn_cache_dir] else [])
         ++ ignored_root_warning w options ++ EvMkdtemp fresh_root :: t)).
Proof.
  intros Hp Hd He Hi Hc tmp fresh_root s1.
  split; [by apply main_pex_root_disabled|]. split.
  { unfold ignored_root_warning. repeat destruct (truthy _); simpl; lia. }
  rewrite (main_parsed w args options cmdline s Hp).
  unfold main_from_options. unfold bind at 1. rewrite (main_tmpdir_ok w options s He Hi).
  unfold bind at 1. rewrite (main_cache_dir_ok options s Hc).
  unfold bind at 1. rewrite (main_pex_root_disabled w options s Hd).
  fold tmp fresh_root s1. unfold main_from_pex_root.
  destruct ((main_python_conflict options;;
             resolve_configuration <- main_resolve_configuration w options;;
             main_build w options cmdline resolve_configuration fresh_root tmp) s1)
    as [[r s'] t].
  f_equal. cbn [app]. f_equal. rewrite <- !app_assoc. reflexivity.
Qed.

Lemma disable_cache_uses_fresh_root_witness :
  let args := Some ["--disable-cache"; "--pex-root"; "/var/pex"] in
  let options := options_with [] [] [] false None None None (Some "/var/pex") true
                              None None None [] None None Seed_NONE "/tmp" in
  parsed example_world args = Some (options, [])
  /\ disable_cache options = true
  /\ main_pex_root example_world options initial_state
     = (Ok "/tmp/tmp", mkState 1 ∅ ∅,
        [EvWarn (ignore_pex_root_message "--pex-root"); EvMkdtemp "/tmp/tmp"])
  /\ length (ignored_root_warning example_world options) <= 1.
Proof.
  intros args options. split; [reflexivity|]. split; [reflexivity|].
  destruct (disable_cache_uses_fresh_root example_world args options []
              initial_state)
    as (Hroot & Hlen & _); try reflexivity.
  split; [exact Hroot|exact Hlen].
Defined.

(** C10 as stated fails: under [--disable-cache], a [--cache-dir] that
    differs from [--pex-root] is not ignored with a warning; [main] dies on
    the conflict before it creates any temporary cache root. *)
Lemma disable_cache_ignores_roots_counterexample :
  let args := Some ["--disable-cache"; "--cache-dir"; "/a"; "--pex-root"; "/b"] in
  let options := options_with [] [] [] false None None (Some "/a") (Some "/b") true
                              None None None [] None None Seed_NONE "/tmp" in
  parsed example_world args = Some (options, [])
  /\ disable_cache options = true
  /\ main example_world args initial_state
     = (Died cache_dir_conflict_message DieDefault, initial_state,
        [EvProbe ProbeCurrent; EvSetTmpdir "/tmp"; EvWarn warn_cache_dir]).
Proof.
  intros args options. split; [reflexivity|]. split; [reflexivity|by_evaluation].
Qed.

(** ** Deprecated options *)

Lemma same_refl {A} (P : Event -> bool) (x : Outcome A * State * list Event) :
  same_but_for P x x.
Proof. by repeat split. Qed.

Lemma bind_same {A B} (P : Event -> bool) (m m' : M A) (k k' : A -> M B) (s : State) :
  same_but_for P (m s) (m' s) ->
  (forall a s1, same_but_for P (k a s1) (k' a s1)) ->
  same_but_for P (bind m k s) (bind m' k' s).
Proof.
  unfold same_but_for, bind. intros (Hr & Hs & Ht) Hk.
  destruct (m s) as [[r1 s1] t1], (m' s) as [[r1' s1'] t1'].
  cbn [fst snd] in *. subst r1' s1'.
  destruct r1 as [a| | |]; cbn [fst snd]; try (by repeat split).
  specialize (Hk a s1).
  destruct (k a s1) as [[r2 s2] t2], (k' a s1) as [[r2' s2'] t2'].
  cbn [fst snd] in *. destruct Hk as (-> & -> & Ht2).
  repeat split. by rewrite !List.filter_app, Ht, Ht2.
Qed.

Lemma deprecations_same (zs uz awc : option bool) (options : Options) (s : State) :
  same_but_for ignored_option_warning
    (build_pex_deprecations (with_ignored_options zs uz awc options) s)
    (build_pex_deprecations options s).
Proof.
  unfold build_pex_deprecations, with_ignored_options, when, pex_warnings_warn,
    bind, tell, ret, same_but_for.
  cbn [resources_directory zip_safe unzip always_write_cache].
  destruct (nonempty (resources_directory options)),
    (zip_safe options), (unzip options), (always_write_cache options),
    zs, uz, awc; cbn [is_some fst snd app]; repeat split.
Qed.

Lemma build_pex_same (w : World) (reqs : list string) (rc : ResolveConfiguration)
    (zs uz awc : option bool) (options : Options) (cache : option string) (s : State) :
  same_but_for ignored_option_warning
    (build_pex w reqs rc (with_ignored_options zs uz awc options) cache s)
    (build_pex w reqs rc options cache s).
Proof.
  unfold build_pex, build_pex_resolved.
  apply bind_same; [|intros b s1; apply same_refl].
  apply bind_same; [apply same_refl|]. intros plan s1.
  apply bind_same; [apply same_refl|]. intros b s2.
  apply bind_same; [apply deprecations_same|]. intros _ s3.
  apply same_refl.
Qed.

Lemma main_build_same (w : World) (zs uz awc : option bool) (options : Options)
    (cmdline : list string) (rc : ResolveConfiguration) (root tmp : string) (s : State) :
  same_but_for ignored_option_warning
    (main_build w (with_ignored_options zs uz awc options) cmdline rc root tmp s)
    (main_build w options cmdline rc root tmp s).
Proof.
  unfold main_build, TRACER_timed.
  apply bind_same; [apply same_refl|]. intros _ s1.
  apply bind_same; [|intros b s2; apply same_refl].
  apply bind_same; [apply same_refl|]. intros _ s2.
  apply build_pex_same.
Qed.

Lemma deprecations_trace (options : Options) (s : State) :
  build_pex_deprecations options s
  = (Ok tt, s,
     (if nonempty (resources_directory options)
      then [EvWarn warn_resources_directory] else [])
     ++ (if is_some (zip_safe options) then [EvWarn warn_zip_safe] else [])
     ++ (if is_some (unzip options) then [EvWarn warn_unzip] else [])
     ++ (if is_some (always_write_cache options)
         then [EvWarn warn_always_write_cache] else [])).
Proof.
  unfold build_pex_deprecations, when, pex_warnings_warn, bind, tell, ret.
  destruct (nonempty _), (is_some (zip_safe _)), (is_some (unzip _)),
    (is_some (always_write_cache _)); reflexivity.
Qed.

Lemma build_pex_warns (w : World) (reqs : list string) (rc : ResolveConfiguration)
    (options : Options) (cache : option string) (s : State) b s' t :
  build_pex w reqs rc options cache s = (Ok b, s', t) ->
  (is_some (zip_safe options) = true -> EvWarn warn_zip_safe ∈ t)
  /\ (is_some (unzip options) = true -> EvWarn warn_unzip ∈ t)
  /\ (is_some (always_write_cache options) = true ->
      EvWarn warn_always_write_cache ∈ t).
Proof.
  unfold build_pex, build_pex_resolved. intros H.
  apply bind_inv_ok in H as (b1 & s1 & t1 & u1 & H & _ & ->).
  apply bind_inv_ok in H as (plan & s2 & t2 & u2 & _ & H & ->).
  apply bind_inv_ok in H as (b2 & s3 & t3 & u3 & _ & H & ->).
  apply bind_inv_ok in H as (? & s4 & t4 & u4 & Hd & _ & ->).
  rewrite deprecations_trace in Hd. injection Hd as _ Ht4. subst t4.
  repeat split; intros ->; rewrite !elem_of_app; cbn [app];
    rewrite ?elem_of_cons; tauto.
Qed.

Lemma main_from_options_same (w : World) (zs uz awc : option bool)
    (options : Options) (cmdline : list string) (s : State) :
  w_create_resolve_configuration w (with_ignored_options zs uz awc options)
  = w_create_resolve_configuration w options ->
  same_but_for ignored_option_warning
    (main_from_options w (with_ignored_options zs uz awc options) cmdline s)
    (main_from_options w options cmdline s).
Proof.
  intros Hrc. unfold main_from_options.
  apply bind_same; [apply same_refl|]. intros tmp s1.
  apply bind_same; [apply same_refl|]. intros _ s2.
  apply bind_same; [apply same_refl|]. intros root s3.
  apply bind_same; [apply same_refl|]. intros _ s4.
  apply bind_same.
  { unfold main_resolve_configuration. rewrite Hrc. apply same_refl. }
  intros rc s5. apply main_build_same.
Qed.

(** The exclusive group of [--unzip/--no-unzip] and [--venv] (lines
    169-193): the parser exits before anything else is done. *)
Lemma main_exclusive_group (w : World) (args : option (list string))
    (options : Options) (s : State) :
  w_parse_args w (main_arguments (w_InheritPath_PREFER w) args (w_sys_argv w)).1
  = Parsed options ->
  is_some (unzip options) = true ->
  is_some (venv options) = true ->
  main w args s
  = (Exited 2, s,
     [EvProbe ProbeCurrent;
      EvStderr (w_parser_error w
                  (main_arguments (w_InheritPath_PREFER w) args (w_sys_argv w)).1)]).
Proof.
  intros Hparse Hu Hv. unfold main, configure_clp, parse_args, bind, tell, sys_exit.
  cbn [fst snd]. rewrite Hparse, Hu, Hv. reflexivity.
Qed.

(** C3, as the code has it: [--zip-safe/--not-zip-safe],
    [--unzip/--no-unzip] and [--always-write-cache] are ignored.  For two
    command lines that the parser accepts and that differ only in the values
    of these three options, [main] ends with the same outcome in the same
    state and emits the same events, the deprecation warnings of the three
    apart (the resolve configuration, built outside this module, being the
    same); and a build that completes has emitted the warning of each of the
    three that was supplied.  Supplying one of them is an error in one case
    only: [--unzip/--no-unzip] next to [--venv], which the parser rejects
    with the status 2 before anything else is done. *)
Theorem ignored_options_do_not_alter_build (w : World)
    (args_with args_without : option (list string)) (options : Options)
    (cmdline : list string) (s : State) (zs uz awc : option bool) :
  parsed w args_without = Some (options, cmdline) ->
  parsed w args_with = Some (with_ignored_options zs uz awc options, cmdline) ->
  w_create_resolve_configuration w (with_ignored_options zs uz awc options)
  = w_create_resolve_configuration w options ->
  same_but_for ignored_option_warning (main w args_with s) (main w args_without s)
  /\ (forall reqs rc cache s0 b s' t,
        build_pex w reqs rc options cache s0 = (Ok b, s', t) ->
        (is_some (zip_safe options) = true -> EvWarn warn_zip_safe ∈ t)
        /\ (is_some (unzip options) = true -> EvWarn warn_unzip ∈ t)
        /\ (is_some (always_write_cache options) = true ->
            EvWarn warn_always_write_cache ∈ t))
  /\ (forall args o s0,
        w_parse_args w (main_arguments (w_InheritPath_PREFER w) args (w_sys_argv w)).1
        = Parsed o ->
        is_some (unzip o) = true ->
        is_some (venv o) = true ->
        main w args s0
        = (Exited 2, s0,
           [EvProbe ProbeCurrent;
            EvStderr (w_parser_error w
                        (main_arguments (w_InheritPath_PREFER w) args
                           (w_sys_argv w)).1)])).
Proof.
  intros Hwithout Hwith Hrc.
  split; [|split; [intros; by eapply build_pex_warns|apply main_exclusive_group]].
  rewrite (main_parsed w args_with _ cmdline s Hwith),
    (main_parsed w args_without _ cmdline s Hwithout).
  pose proof (main_from_options_same w zs uz awc options cmdline s Hrc) as Hsame.
  destruct (main_from_options w (with_ignored_options zs uz awc options) cmdline s)
    as [[r1 s1] t1].
  destruct (main_from_options w options cmdline s) as [[r2 s2] t2].
  destruct Hsame as (Hr & Hs & Ht). cbn [fst snd] in *.
  repeat split; try done. cbn. by rewrite Ht.
Qed.

Lemma ignored_options_do_not_alter_build_witness :
  let args_with := Some ["--zip-safe"; "--no-unzip"; "--always-write-cache"] in
  let args_without := Some [] in
  let supplied :=
    with_ignored_options (Some true) (Some false) (Some true) default_options in
  parsed example_world args_without = Some (default_options, [])
  /\ parsed example_world args_with = Some (supplied, [])
  /\ same_but_for ignored_option_warning
       (main example_world args_with initial_state)
       (main example_world args_without initial_state)
  /\ (main example_world args_with initial_state).1.1 = Exited 0.
Proof.
  intros args_with args_without supplied.
  split; [reflexivity|]. split; [reflexivity|].
  split; [|by_evaluation].
  apply (ignored_options_do_not_alter_build example_world args_with args_without
           default_options [] initial_state (Some true) (Some false) (Some true));
    reflexivity.
Defined.

(** C3 as stated fails for [--cache-dir]: supplying it next to a different
    [--pex-root] is a fatal error, while the same invocation without it
    goes through. *)
Lemma deprecated_cache_dir_counterexample :
  main example_world (Some ["--cache-dir"; "/a"; "--pex-root"; "/b"]) initial_state
  = (Died cache_dir_conflict_message DieDefault, initial_state,
     [EvProbe ProbeCurrent; EvSetTmpdir "/tmp"; EvWarn warn_cache_dir])
  /\ (main example_world (Some ["--pex-root"; "/b"]) initial_state).1.1 = Exited 0.
Proof. split; by_evaluation. Qed.

(** It fails for [--unzip] too, next to [--venv]: the parser exits with a
    usage error, while [--venv] alone goes through. *)
Lemma unzip_with_venv_usage_error :
  main example_world (Some ["--venv"; "--unzip"]) initial_state
  = (Exited 2, initial_state,
     [EvProbe ProbeCurrent;
      EvStderr
        "pex: error: argument --unzip/--no-unzip: not allowed with argument --venv"])
  /\ (main example_world (Some ["--venv"]) initial_state).1.1 = Exited 0.
Proof. split; by_evaluation. Qed.

(** The two other deprecated options are not ignored: [--cache-dir] sets the
    cache root, and the directories of [-R] are packaged. *)
Lemma cache_dir_is_cache_root (w : World) (options : Options) (s : State) (d : string) :
  disable_cache options = false ->
  cache_dir options = Some d -> d <> "" ->
  main_pex_root w options s = (Ok d, s, []).
Proof.
  intros Hd Hc Hne. unfold main_pex_root, or_else. rewrite Hd, Hc.
  cbn [truthy]. apply String.eqb_neq in Hne. rewrite Hne. reflexivity.
Qed.

Lemma resources_directory_is_packaged :
  let options := options_with [] [] [] false None None None None false
                              None None None ["res"] None None Seed_NONE "/tmp" in
  b_sources (build_pex_sources example_world options (empty_builder "/tmp/tmp" None None))
  = [("res/data.txt", "res/data.txt")]
  /\ b_sources (build_pex_sources example_world default_options
                  (empty_builder "/tmp/tmp" None None)) = [].
Proof. intros options. split; by_evaluation. Qed.

(** ** Command-line arguments *)

Lemma transform_legacy_arg_separator (prefer arg : string) :
  String.eqb (transform_legacy_arg prefer arg) "--" = String.eqb arg "--".
Proof.
  unfold transform_legacy_arg.
  destruct (String.eqb arg "--inherit-path") eqn:E; [|reflexivity].
  apply String.eqb_eq in E. subst arg. reflexivity.
Qed.

(** X1: [transform_legacy_arg] changes the bare flag [--inherit-path] and
    nothing else, never returns the bare flag, and is idempotent, whatever
    the value of [InheritPath.PREFER] is. *)
Theorem transform_legacy_arg_idempotent (prefer arg : string) :
  transform_legacy_arg prefer (transform_legacy_arg prefer arg)
  = transform_legacy_arg prefer arg
  /\ (arg <> "--inherit-path" -> transform_legacy_arg prefer arg = arg)
  /\ transform_legacy_arg prefer arg <> "--inherit-path".
Proof.
  unfold transform_legacy_arg.
  assert (Hnew : String.eqb ("--inherit-path=" +:+ prefer) "--inherit-path" = false)
    by reflexivity.
  destruct (String.eqb arg "--inherit-path") eqn:E.
  - rewrite Hnew. split; [reflexivity|]. split.
    + intros Hne. apply String.eqb_eq in E. done.
    + by apply String.eqb_neq.
  - rewrite E. split; [reflexivity|]. split; [done|]. by apply String.eqb_neq.
Qed.

Lemma index_map_transform (prefer : string) (l : list string) :
  index "--" (map (transform_legacy_arg prefer) l) = index "--" l.
Proof.
  induction l as [|x l IH]; [reflexivity|]. cbn [map index].
  rewrite transform_legacy_arg_separator, IH. reflexivity.
Qed.

Lemma index_first (x : string) (before after : list string) :
  x ∉ before -> index x (before ++ x :: after) = Some (length before).
Proof.
  induction before as [|y before IH]; intros Hno; cbn [app index length].
  - by rewrite String.eqb_refl.
  - apply not_elem_of_cons in Hno as [Hne Hno].
    assert (E : String.eqb y x = false) by (apply String.eqb_neq; congruence).
    rewrite E, IH by done. reflexivity.
Qed.

Lemma index_absent (x : string) (l : list string) : x ∉ l -> index x l = None.
Proof.
  induction l as [|y l IH]; intros Hno; cbn [index]; [done|].
  apply not_elem_of_cons in Hno as [Hne Hno].
  assert (E : String.eqb y x = false) by (apply String.eqb_neq; congruence).
  rewrite E, IH by done. reflexivity.
Qed.

(** X2: [main] splits its arguments at the first [--], which it drops; what
    follows goes to the PEX as its command line, later [--] included.  The
    legacy rewriting is done before the split, so it also rewrites a bare
    [--inherit-path] meant for the PEX.  Without a separator everything is
    parsed and the command line is empty. *)
Theorem main_arguments_split (prefer : string) (sys_argv : list string) :
  (forall before after,
     "--" ∉ before ->
     main_arguments prefer (Some (before ++ "--" :: after)) sys_argv
     = (map (transform_legacy_arg prefer) before,
        map (transform_legacy_arg prefer) after))
  /\ (forall args,
        args <> [] -> "--" ∉ args ->
        main_arguments prefer (Some args) sys_argv
        = (map (transform_legacy_arg prefer) args, [])).
Proof.
  split.
  - intros before after Hno. unfold main_arguments.
    assert (Hne : nonempty (before ++ "--" :: after) = true) by (by destruct before).
    rewrite Hne. cbv zeta. rewrite index_map_transform, index_first by done.
    rewrite map_app. cbn [map].
    rewrite <- (length_map (transform_legacy_arg prefer) before).
    f_equal.
    + by rewrite take_app_length.
    + rewrite cons_middle, app_assoc.
      replace (S (length (map (transform_legacy_arg prefer) before)))
        with (length (map (transform_legacy_arg prefer) before ++ ["--"]))
        by (rewrite length_app; simpl; lia).
      by rewrite drop_app_length.
  - intros args Hne Hno. unfold main_arguments.
    assert (Hn : nonempty args = true) by (by destruct args).
    rewrite Hn. cbv zeta. rewrite index_map_transform, index_absent by done.
    reflexivity.
Qed.

Lemma main_arguments_split_witness :
  ("--" ∉ ["-o"; "app.pex"; "--inherit-path"])
  /\ main_arguments "prefer"
       (Some (["-o"; "app.pex"; "--inherit-path"]
              ++ "--" :: ["--inherit-path"; "--"; "x"])) ["pex"]
     = (["-o"; "app.pex"; "--inherit-path=prefer"],
        ["--inherit-path=prefer"; "--"; "x"]).
Proof.
  assert (Hno : "--" ∉ ["-o"; "app.pex"; "--inherit-path"]).
  { intros H. repeat (apply elem_of_cons in H as [H|H]; [discriminate H|]).
    by apply elem_of_nil in H. }
  split; [exact Hno|].
  apply (proj1 (main_arguments_split "prefer" ["pex"])
           ["-o"; "app.pex"; "--inherit-path"] ["--inherit-path"; "--"; "x"] Hno).
Defined.

(** ** Explicit interpreters *)

Lemma to_python_interpreter_found (w : World) (name : string) (i : PythonInterpreter)
    (s : State) :
  lookup_interpreter w name = Some i ->
  to_python_interpreter w name s = (Ok i, s, [probe_event w name]).
Proof.
  unfold lookup_interpreter, to_python_interpreter, probe_event, bind, tell.
  destruct (w_isfile w name); intros ->; reflexivity.
Qed.

Lemma mapM_interpreters_found (w : World) (names : list string)
    (found : list PythonInterpreter) (s : State) :
  Forall2 (fun name i => lookup_interpreter w name = Some i) names found ->
  mapM (to_python_interpreter w) names s = (Ok found, s, map (probe_event w) names).
Proof.
  induction 1 as [|name i names found Hi _ IH]; [reflexivity|].
  cbn [mapM map].
  unfold bind at 1. rewrite (to_python_interpreter_found w name i s Hi).
  unfold bind at 1. rewrite IH. cbn [ret app]. by rewrite app_nil_r.
Qed.

Lemma mapM_interpreters_missing (w : World) (before after : list string)
    (name : string) (found : list PythonInterpreter) (s : State) :
  Forall2 (fun name i => lookup_interpreter w name = Some i) before found ->
  w_isfile w name = false -> w_from_env w name = None ->
  mapM (to_python_interpreter w) (before ++ name :: after) s
  = (Died ("Failed to find interpreter: " +:+ name) DieDefault, s,
     map (probe_event w) (before ++ [name])).
Proof.
  intros Hfound Hfile Henv.
  induction Hfound as [|n i before found Hi _ IH]; cbn [app mapM map].
  - apply bind_died. unfold to_python_interpreter, probe_event, bind, tell, die.
    rewrite Hfile, Henv. reflexivity.
  - unfold bind at 1. rewrite (to_python_interpreter_found w n i s Hi).
    unfold bind at 1. rewrite IH. reflexivity.
Qed.

(** X3: when every name given with [--python] is found, the interpreters
    are taken in the order given, one per name, duplicates kept, after one
    probe per name in that order; the state is untouched and the interpreter
    constraints play no part. *)
Theorem explicit_interpreters_in_order (w : World) (options : Options)
    (path : option string) (found : list PythonInterpreter) (s : State) :
  python options <> [] ->
  Forall2 (fun name i => lookup_interpreter w name = Some i) (python options) found ->
  build_pex_interpreters w options path s
  = (Ok (Some found), s,
     EvTracer ResolvingInterpreters :: map (probe_event w) (python options)).
Proof.
  intros Hne Hfound. unfold build_pex_interpreters, TRACER_timed.
  destruct (python options) as [|name names] eqn:Hpy; [done|]. cbn [nonempty].
  unfold bind at 1. cbn [tell]. unfold bind at 1.
  rewrite (mapM_interpreters_found w (name :: names) found s Hfound).
  cbn [ret app map]. by rewrite app_nil_r.
Qed.

Lemma explicit_interpreters_in_order_witness :
  let options := options_with ["python3.9"; "/usr/bin/python3.8"; "python3.9"] [">=3.8"]
                              [] false None None None None false None None None []
                              None None Seed_NONE "/tmp" in
  python options <> []
  /\ build_pex_interpreters example_world options None initial_state
     = (Ok (Some [py39; py38; py39]), initial_state,
        [EvTracer ResolvingInterpreters; EvProbe (ProbeEnv "python3.9");
         EvProbe (ProbeBinary "/usr/bin/python3.8"); EvProbe (ProbeEnv "python3.9")]).
Proof.
  intros options. split; [discriminate|].
  apply (explicit_interpreters_in_order example_world options None
           [py39; py38; py39] initial_state); [discriminate|].
  repeat constructor.
Defined.

(** X4: a name given with [--python] that is neither a file nor found by
    name makes [build_pex] die with a message that names it, with the default
    status of [die]; the names before it have been probed, the names after it
    have not, and nothing else has happened. *)
Theorem explicit_interpreter_not_found (w : World) (reqs : list string)
    (rc : ResolveConfiguration) (options : Options) (cache : option string)
    (s : State) (before after : list string) (name : string)
    (found : list PythonInterpreter) :
  python options = before ++ name :: after ->
  Forall2 (fun name i => lookup_interpreter w name = Some i) before found ->
  w_isfile w name = false ->
  w_from_env w name = None ->
  build_pex w reqs rc options cache s
  = (Died ("Failed to find interpreter: " +:+ name) DieDefault, s,
     EvTracer ResolvingInterpreters :: map (probe_event w) (before ++ [name])).
Proof.
  intros Hpy Hfound Hfile Henv. apply build_pex_interpreters_died.
  unfold build_pex_interpreters, TRACER_timed. rewrite Hpy.
  assert (Hne : nonempty (before ++ name :: after) = true) by (by destruct before).
  rewrite Hne.
  unfold bind at 1. cbn [tell]. unfold bind at 1.
  rewrite (mapM_interpreters_missing w before after name found s Hfound Hfile Henv).
  reflexivity.
Qed.

Lemma explicit_interpreter_not_found_witness :
  let options := options_with ["python3.9"; "/no/such/binary"; "/usr/bin/python3.8"] []
                              [] false None None None None false None None None []
                              None None Seed_NONE "/tmp" in
  python options = ["python3.9"] ++ "/no/such/binary" :: ["/usr/bin/python3.8"]
  /\ build_pex example_world ["requests"] example_configuration options None
               initial_state
     = (Died "Failed to find interpreter: /no/such/binary" DieDefault, initial_state,
        [EvTracer ResolvingInterpreters; EvProbe (ProbeEnv "python3.9");
         EvProbe (ProbeEnv "/no/such/binary")]).
Proof.
  intros options. split; [reflexivity|].
  apply (explicit_interpreter_not_found example_world ["requests"]
           example_configuration options None initial_state
           ["python3.9"] ["/usr/bin/python3.8"] "/no/such/binary" [py39]);
    [reflexivity|repeat constructor|reflexivity|reflexivity].
Defined.

(** ** The resolver call *)

Lemma build_pex_resolve_run (w : World) (reqs : list string)
    (rc : ResolveConfiguration) (options : Options) (cache : option string)
    (interpreters : list PythonInterpreter) (platforms : list PlatformTag)
    (b : PEXBuilder) (s : State) :
  build_pex_resolve w reqs rc options cache interpreters platforms b s
  = (match (resolver_call w reqs rc options cache interpreters platforms).2 with
     | inl msg => Died msg DieDefault
     | inr ds =>
         Ok (register_distributions ds b)
     end, s,
     resolver_trace reqs rc options
     ++ [(resolver_call w reqs rc options cache interpreters platforms).1]).
Proof.
  unfold build_pex_resolve, resolver_call, resolver_trace, TRACER_timed, resolve,
    resolve_from_pex, try_except, bind, tell, ret, raise, die.
  destruct (repository rc); cbn [fst snd].
  - destruct (w_resolve_from_pex _ _); reflexivity.
  - destruct (w_resolve _ _); reflexivity.
Qed.

Lemma resolver_call_is_resolve (w : World) reqs rc options cache interpreters platforms :
  is_resolve (resolver_call w reqs rc options cache interpreters platforms).1 = true.
Proof. unfold resolver_call. by destruct (repository rc). Qed.

Lemma resolver_trace_count (w : World) reqs rc options cache interpreters platforms :
  List.filter is_resolve
    (resolver_trace reqs rc options
     ++ [(resolver_call w reqs rc options cache interpreters platforms).1])
  = [(resolver_call w reqs rc options cache interpreters platforms).1].
Proof.
  unfold resolver_trace. cbn [app List.filter is_resolve].
  by rewrite resolver_call_is_resolve.
Qed.

Lemma build_pex_entry_point_run (options : Options) (b : PEXBuilder) (s : State) :
  build_pex_entry_point options b s
  = (if truthy (entry_point options) && truthy (script options)
     then Died "Must specify at most one entry point or script."
               (Status INVALID_OPTIONS)
     else Ok (with_entry_point options b), s, []).
Proof.
  unfold build_pex_entry_point, with_entry_point, bind, die, ret.
  by destruct (_ && _).
Qed.

(** The run of [build_pex] once the interpreters and platforms are selected
    and the workspace is created. *)
Lemma build_pex_run (w : World) (reqs : list string) (rc : ResolveConfiguration)
    (options : Options) (cache : option string) (s : State) plan s1 t1 b0 s2 t2 :
  build_pex_plan w options s = (Ok plan, s1, t1) ->
  build_pex_builder w options (plan_interpreter plan) s1 = (Ok b0, s2, t2) ->
  build_pex w reqs rc options cache s
  = (match (resolver_call w reqs rc options cache (plan_interpreters plan)
              (plan_platforms plan)).2 with
     | inl msg => Died msg DieDefault
     | inr ds =>
         if truthy (entry_point options) && truthy (script options)
         then Died "Must specify at most one entry point or script."
                   (Status INVALID_OPTIONS)
         else Ok (with_entry_point options
                    (register_distributions ds
                       (build_pex_info w options (build_pex_sources w options b0))))
     end, s2,
     t1 ++ t2 ++ (build_pex_deprecations options s2).2
     ++ resolver_trace reqs rc options
     ++ [(resolver_call w reqs rc options cache (plan_interpreters plan)
            (plan_platforms plan)).1]).
Proof.
  intros Hplan Hb.
  unfold build_pex, build_pex_resolved, bind.
  rewrite Hplan, Hb, deprecations_trace, build_pex_resolve_run. cbn [snd].
  destruct (resolver_call w reqs rc options cache (plan_interpreters plan)
              (plan_platforms plan)) as [ev [msg|ds]]; cbn [fst snd].
  - by rewrite <- !app_assoc.
  - rewrite build_pex_entry_point_run.
    by rewrite app_nil_r, <- !app_assoc.
Qed.

Lemma build_pex_setup_only (w : World) (reqs : list string) (rc : ResolveConfiguration)
    (options : Options) (cache : option string) (s : State) :
  (forall plan s1 t1 b0 s2 t2,
     build_pex_plan w options s = (Ok plan, s1, t1) ->
     build_pex_builder w options (plan_interpreter plan) s1 <> (Ok b0, s2, t2)) ->
  forallb setup_event (build_pex w reqs rc options cache s).2 = true.
Proof.
  intros Hno. unfold build_pex, build_pex_resolved, bind.
  destruct (build_pex_plan w options s) as [[rp s1] t1] eqn:Hplan.
  pose proof (emits_build_pex_plan w options _ _ _ _ Hplan) as E1.
  destruct rp as [plan| | |]; try exact E1.
  destruct (build_pex_builder w options (plan_interpreter plan) s1)
    as [[rb s2] t2] eqn:Hb.
  pose proof (emits_build_pex_builder w options _ _ _ _ _ Hb) as E2.
  destruct rb as [b0| | |]; cbn [snd]; try (by rewrite forallb_app, E1, E2).
  by destruct (Hno plan s1 t1 b0 s2 t2 eq_refl).
Qed.

Lemma resolver_calls_of_run (w : World) reqs rc options cache interpreters platforms
    (t : list Event) :
  forallb setup_event t = true ->
  List.filter is_resolve
    (t ++ resolver_trace reqs rc options
       ++ [(resolver_call w reqs rc options cache interpreters platforms).1])
  = [(resolver_call w reqs rc options cache interpreters platforms).1].
Proof.
  intros Ht.
  by rewrite List.filter_app, resolver_trace_count, (no_resolve_filter _ Ht).
Qed.

Lemma build_pex_setup_events (w : World) (options : Options) (s : State)
    plan s1 t1 b0 s2 t2 :
  build_pex_plan w options s = (Ok plan, s1, t1) ->
  build_pex_builder w options (plan_interpreter plan) s1 = (Ok b0, s2, t2) ->
  forallb setup_event (t1 ++ t2 ++ (build_pex_deprecations options s2).2) = true.
Proof.
  intros Hplan Hb.
  destruct (build_pex_deprecations options s2) as [[rd s3] t3] eqn:Hd.
  apply emits_build_pex_plan in Hplan. apply emits_build_pex_builder in Hb.
  apply emits_build_pex_deprecations in Hd.
  cbn [snd]. by rewrite !forallb_app, Hplan, Hb, Hd.
Qed.

Lemma resolver_calls_of_build (w : World) (reqs : list string)
    (rc : ResolveConfiguration) (options : Options) (cache : option string)
    (s : State) plan s1 t1 b0 s2 t2 :
  build_pex_plan w options s = (Ok plan, s1, t1) ->
  build_pex_builder w options (plan_interpreter plan) s1 = (Ok b0, s2, t2) ->
  List.filter is_resolve (build_pex w reqs rc options cache s).2
  = [(resolver_call w reqs rc options cache (plan_interpreters plan)
        (plan_platforms plan)).1].
Proof.
  intros Hplan Hb.
  rewrite (build_pex_run w reqs rc options cache s _ _ _ _ _ _ Hplan Hb). cbn [snd].
  rewrite !app_assoc, <- (app_assoc _ (resolver_trace _ _ _)).
  apply resolver_calls_of_run. rewrite <- app_assoc.
  by eapply build_pex_setup_events.
Qed.

(** X5: in every run of [build_pex], whatever its inputs and however it ends,
    the resolver ([resolve] or [resolve_from_pex]) is called at most once:
    a failed resolution is never tried again. *)
Theorem resolver_called_at_most_once (w : World) (reqs : list string)
    (rc : ResolveConfiguration) (options : Options) (cache : option string)
    (s : State) :
  length (List.filter is_resolve (build_pex w reqs rc options cache s).2) <= 1.
Proof.
  destruct (build_pex_plan w options s) as [[rp s1] t1] eqn:Hplan.
  destruct rp as [plan| | |].
  2-4: rewrite no_resolve_filter; [simpl; lia|];
       apply build_pex_setup_only; intros; congruence.
  destruct (build_pex_builder w options (plan_interpreter plan) s1)
    as [[rb s2] t2] eqn:Hb.
  destruct rb as [b0| | |].
  2-4: rewrite no_resolve_filter; [simpl; lia|];
       apply build_pex_setup_only; intros; congruence.
  by rewrite (resolver_calls_of_build w reqs rc options cache s _ _ _ _ _ _ Hplan Hb).
Qed.

(** X6: once the interpreters and platforms are selected and the workspace is
    created, [build_pex] calls the resolver exactly once, whatever happens
    afterwards, and that call is [resolver_call] on the selected interpreters
    and platforms: [resolve_from_pex] when a PEX repository is configured,
    [resolve] with the indexes, find-links and the cache otherwise. *)
Theorem resolver_called_with_the_plan (w : World) (reqs : list string)
    (rc : ResolveConfiguration) (options : Options) (cache : option string)
    (s : State) plan s1 t1 b0 s2 t2 :
  build_pex_plan w options s = (Ok plan, s1, t1) ->
  build_pex_builder w options (plan_interpreter plan) s1 = (Ok b0, s2, t2) ->
  List.filter is_resolve (build_pex w reqs rc options cache s).2
  = [(resolver_call w reqs rc options cache (plan_interpreters plan)
        (plan_platforms plan)).1].
Proof. apply resolver_calls_of_build. Qed.

(** A successful plan and workspace on the example machine. *)
Lemma example_plan_and_builder (w : World) (options : Options) :
  match (build_pex_plan w options initial_state).1.1 with
  | Ok plan =>
      match (build_pex_builder w options (plan_interpreter plan)
               (build_pex_plan w options initial_state).1.2).1.1 with
      | Ok _ => true
      | _ => false
      end
  | _ => false
  end = true ->
  exists plan s1 t1 b0 s2 t2,
    build_pex_plan w options initial_state = (Ok plan, s1, t1)
    /\ build_pex_builder w options (plan_interpreter plan) s1 = (Ok b0, s2, t2).
Proof.
  destruct (build_pex_plan w options initial_state) as [[rp s1] t1].
  cbn [fst snd]. destruct rp as [plan| | |]; try discriminate.
  destruct (build_pex_builder w options (plan_interpreter plan) s1)
    as [[rb s2] t2] eqn:Hb.
  cbn [fst]. destruct rb as [b0| | |]; try discriminate.
  intros _. by exists plan, s1, t1, b0, s2, t2.
Qed.

Lemma resolver_called_with_the_plan_witness :
  exists plan s1 t1 b0 s2 t2,
    build_pex_plan example_world default_options initial_state = (Ok plan, s1, t1)
    /\ build_pex_builder example_world default_options (plan_interpreter plan) s1
       = (Ok b0, s2, t2)
    /\ List.filter is_resolve
         (build_pex example_world ["requests"] example_configuration default_options
                    (Some "/home/user/.pex") initial_state).2
       = [(resolver_call example_world ["requests"] example_configuration
             default_options (Some "/home/user/.pex") (plan_interpreters plan)
             (plan_platforms plan)).1].
Proof.
  destruct (example_plan_and_builder example_world default_options)
    as (plan & s1 & t1 & b0 & s2 & t2 & Hplan & Hb); [vm_compute; reflexivity|].
  exists plan, s1, t1, b0, s2, t2.
  split; [exact Hplan|]. split; [exact Hb|].
  exact (resolver_called_with_the_plan example_world ["requests"]
           example_configuration default_options (Some "/home/user/.pex")
           initial_state plan s1 t1 b0 s2 t2 Hplan Hb).
Defined.

(** X7: when the resolver reports that the requirements cannot be satisfied,
    [build_pex] dies with the resolver's message, unchanged, and the default
    status of [die] (neither [CANNOT_SETUP_INTERPRETER] nor
    [INVALID_OPTIONS]); this happens also when an entry point and a script
    are both given, since that check comes later. *)
Theorem unsatisfiable_resolution_is_fatal (w : World) (reqs : list string)
    (rc : ResolveConfiguration) (options : Options) (cache : option string)
    (s : State) plan s1 t1 b0 s2 t2 msg :
  build_pex_plan w options s = (Ok plan, s1, t1) ->
  build_pex_builder w options (plan_interpreter plan) s1 = (Ok b0, s2, t2) ->
  (resolver_call w reqs rc options cache (plan_interpreters plan)
     (plan_platforms plan)).2 = inl msg ->
  (build_pex w reqs rc options cache s).1 = (Died msg DieDefault, s2).
Proof.
  intros Hplan Hb Hcall.
  rewrite (build_pex_run w reqs rc options cache s _ _ _ _ _ _ Hplan Hb).
  by rewrite Hcall.
Qed.

Lemma unsatisfiable_resolution_is_fatal_witness :
  let options := options_with [] [] [] false (Some "pkg.mod:main") (Some "somescript")
                              None None false None None None [] None None
                              Seed_NONE "/tmp" in
  exists s2,
    (build_pex offline_world ["requests"] example_configuration options None
               initial_state).1
    = (Died unsatisfiable_message DieDefault, s2).
Proof.
  intros options.
  destruct (example_plan_and_builder offline_world options)
    as (plan & s1 & t1 & b0 & s2 & t2 & Hplan & Hb); [vm_compute; reflexivity|].
  exists s2.
  exact (unsatisfiable_resolution_is_fatal offline_world ["requests"]
           example_configuration options None initial_state plan s1 t1 b0 s2 t2
           unsatisfiable_message Hplan Hb eq_refl).
Defined.

(** ** The contents of the builder *)

Lemma builder_eta (b : PEXBuilder) :
  b = mkPEXBuilder (b_path b) (b_interpreter b) (b_preamble b) (b_sources b)
        (b_info b) (b_interpreter_constraints b) (b_requirements_pexes b)
        (b_distributions b) (b_requirements b) (b_entry_point b) (b_script b)
        (b_shebang b).
Proof. by destruct b. Qed.

Lemma fold_sources {A} (F : PEXBuilder -> A -> PEXBuilder)
    (h : A -> list (string * string)) :
  (forall b x,
     F b x = mkPEXBuilder (b_path b) (b_interpreter b) (b_preamble b)
               (b_sources b ++ h x) (b_info b) (b_interpreter_constraints b)
               (b_requirements_pexes b) (b_distributions b) (b_requirements b)
               (b_entry_point b) (b_script b) (b_shebang b)) ->
  forall l b,
    fold_left F l b
    = mkPEXBuilder (b_path b) (b_interpreter b) (b_preamble b)
        (b_sources b ++ flat_map h l) (b_info b) (b_interpreter_constraints b)
        (b_requirements_pexes b) (b_distributions b) (b_requirements b)
        (b_entry_point b) (b_script b) (b_shebang b).
Proof.
  intros HF l. induction l as [|x l IH]; intros b; cbn [fold_left flat_map].
  - rewrite app_nil_r. apply builder_eta.
  - rewrite IH, HF. cbn. by rewrite <- app_assoc.
Qed.

Lemma flat_map_singleton {A B} (g : A -> B) (l : list A) :
  flat_map (fun x => [g x]) l = map g l.
Proof. induction l as [|x l IH]; [done|]. cbn. by rewrite IH. Qed.

Lemma build_pex_sources_shape (w : World) (options : Options) (b : PEXBuilder) :
  build_pex_sources w options b
  = mkPEXBuilder (b_path b) (b_interpreter b) (b_preamble b)
      (b_sources b
       ++ flat_map (directory_files w)
            (OrderedSet (sources_directory options ++ resources_directory options)))
      (b_info b) (b_interpreter_constraints b)
      (b_requirements_pexes b) (b_distributions b) (b_requirements b)
      (b_entry_point b) (b_script b) (b_shebang b).
Proof.
  unfold build_pex_sources.
  apply (fold_sources _ (directory_files w)).
  intros b1 directory. unfold directory_files.
  apply (fold_sources _
           (fun entry : string * list string =>
              map (fun f => (os_path_join entry.1 f,
                             w_relpath w (os_path_join entry.1 f)
                               (w_normpath w directory))) entry.2)).
  intros b2 entry.
  rewrite (fold_sources _
             (fun f => [(os_path_join entry.1 f,
                         w_relpath w (os_path_join entry.1 f)
                           (w_normpath w directory))])) by done.
  by rewrite flat_map_singleton.
Qed.

Lemma fold_interpreter_constraints (l : list string) (b : PEXBuilder) :
  fold_left add_interpreter_constraint l b
  = mkPEXBuilder (b_path b) (b_interpreter b) (b_preamble b) (b_sources b)
      (b_info b) (b_interpreter_constraints b ++ l) (b_requirements_pexes b)
      (b_distributions b) (b_requirements b) (b_entry_point b) (b_script b)
      (b_shebang b).
Proof.
  revert b. induction l as [|x l IH]; intros b; cbn [fold_left].
  - rewrite app_nil_r. apply builder_eta.
  - rewrite IH. cbn. by rewrite <- app_assoc.
Qed.

Lemma fold_requirements_pexes (w : World) (l : list string) (b : PEXBuilder) :
  fold_left (add_from_requirements_pex w) l b
  = mkPEXBuilder (b_path b) (b_interpreter b) (b_preamble b) (b_sources b)
      (b_info b) (b_interpreter_constraints b) (b_requirements_pexes b ++ l)
      (b_distributions b ++ flat_map (fun p => fst (w_requirements_pex w p)) l)
      (b_requirements b ++ flat_map (fun p => snd (w_requirements_pex w p)) l)
      (b_entry_point b) (b_script b) (b_shebang b).
Proof.
  revert b. induction l as [|x l IH]; intros b; cbn [fold_left flat_map].
  - rewrite !app_nil_r. apply builder_eta.
  - rewrite IH. cbn. by rewrite <- !app_assoc.
Qed.

Lemma build_pex_info_shape (w : World) (options : Options) (b : PEXBuilder) :
  build_pex_info w options b
  = mkPEXBuilder (b_path b) (b_interpreter b) (b_preamble b) (b_sources b)
      (Some (expected_info options))
      (b_interpreter_constraints b ++ interpreter_constraint options)
      (b_requirements_pexes b ++ requirements_pexes options)
      (b_distributions b ++ requirements_pex_distributions w options)
      (b_requirements b ++ requirements_pex_requirements w options)
      (b_entry_point b) (b_script b) (b_shebang b).
Proof.
  unfold build_pex_info, requirements_pex_distributions,
    requirements_pex_requirements.
  rewrite fold_requirements_pexes.
  destruct (interpreter_constraint options) as [|ic ics] eqn:Hic; cbn [nonempty].
  - cbn. by rewrite app_nil_r.
  - by rewrite fold_interpreter_constraints.
Qed.

Lemma register_distributions_shape (ds : list InstalledDistribution) (b : PEXBuilder) :
  register_distributions ds b
  = mkPEXBuilder (b_path b) (b_interpreter b) (b_preamble b) (b_sources b)
      (b_info b) (b_interpreter_constraints b) (b_requirements_pexes b)
      (b_distributions b ++ map distribution ds)
      (b_requirements b ++ direct_requirements ds)
      (b_entry_point b) (b_script b) (b_shebang b).
Proof.
  unfold register_distributions, direct_requirements.
  revert b. induction ds as [|d ds IH]; intros b; cbn [fold_left map flat_map].
  - rewrite !app_nil_r. apply builder_eta.
  - rewrite IH. destruct (direct_requirement d); cbn; by rewrite <- ?app_assoc.
Qed.

Lemma build_pex_builder_ok (w : World) (options : Options)
    (interpreter : option PythonInterpreter) (s : State) b0 s2 t2 :
  build_pex_builder w options interpreter s = (Ok b0, s2, t2) ->
  b0 = empty_builder (w_mkdtemp w (fresh s)) interpreter
         (if truthy (preamble_file options)
          then preamble_file options ≫= w_read w else None).
Proof.
  unfold build_pex_builder, safe_mkdtemp, bind, ret, raise.
  destruct (truthy (preamble_file options)).
  - destruct (preamble_file options) as [f|]; cbn.
    + destruct (w_read w f); [|discriminate]. by intros [= <- _ _].
    + by intros [= <- _ _].
  - by intros [= <- _ _].
Qed.

(** The builder [build_pex] returns, field by field. *)
Lemma build_pex_ok_inv (w : World) (reqs : list string) (rc : ResolveConfiguration)
    (options : Options) (cache : option string) (s : State) b s' t :
  build_pex w reqs rc options cache s = (Ok b, s', t) ->
  exists plan s1 t1 ds,
    build_pex_plan w options s = (Ok plan, s1, t1)
    /\ (resolver_call w reqs rc options cache (plan_interpreters plan)
          (plan_platforms plan)).2 = inr ds
    /\ truthy (entry_point options) && truthy (script options) = false
    /\ b = mkPEXBuilder
             (w_mkdtemp w (fresh s1)) (plan_interpreter plan)
             (if truthy (preamble_file options)
              then preamble_file options ≫= w_read w else None)
             (flat_map (directory_files w)
                (OrderedSet (sources_directory options
                             ++ resources_directory options)))
             (Some (expected_info options))
             (interpreter_constraint options) (requirements_pexes options)
             (requirements_pex_distributions w options ++ map distribution ds)
             (requirements_pex_requirements w options ++ direct_requirements ds)
             (if truthy (entry_point options) then entry_point options else None)
             (if truthy (entry_point options) then None
              else if truthy (script options) then script options else None)
             (if truthy (python_shebang options) then python_shebang options
              else None).
Proof.
  intros H.
  destruct (build_pex_plan w options s) as [[rp s1] t1] eqn:Hplan.
  assert (Hrun := H). unfold build_pex, build_pex_resolved, bind in Hrun.
  rewrite Hplan in Hrun.
  destruct rp as [plan| | |]; try discriminate Hrun.
  destruct (build_pex_builder w options (plan_interpreter plan) s1)
    as [[rb s2] t2] eqn:Hb.
  destruct rb as [b0| | |]; try discriminate Hrun. clear Hrun.
  rewrite (build_pex_run w reqs rc options cache s _ _ _ _ _ _ Hplan Hb) in H.
  exists plan, s1, t1.
  destruct (resolver_call w reqs rc options cache (plan_interpreters plan)
              (plan_platforms plan)).2 as [msg|ds]; [discriminate|].
  exists ds. split; [done|]. split; [done|].
  destruct (truthy (entry_point options) && truthy (script options)) eqn:Hc;
    [discriminate|].
  split; [done|]. injection H as <- _ _.
  apply build_pex_builder_ok in Hb. subst b0.
  unfold empty_builder.
  rewrite build_pex_sources_shape; simpl_builder.
  rewrite build_pex_info_shape; simpl_builder.
  rewrite register_distributions_shape; simpl_builder.
  unfold with_entry_point.
  destruct (truthy (entry_point options)), (truthy (script options)),
    (truthy (python_shebang options)); try discriminate Hc;
    unfold set_entry_point, set_script, set_shebang; simpl_builder; reflexivity.
Qed.

(** A successful build on a concrete machine. *)
Lemma example_build_ok (w : World) (reqs : list string) (rc : ResolveConfiguration)
    (options : Options) (cache : option string) :
  match (build_pex w reqs rc options cache initial_state).1.1 with
  | Ok _ => true
  | _ => false
  end = true ->
  exists b s' t, build_pex w reqs rc options cache initial_state = (Ok b, s', t).
Proof.
  destruct (build_pex w reqs rc options cache initial_state) as [[r s'] t].
  cbn [fst]. destruct r as [b| | |]; try discriminate.
  intros _. by exists b, s', t.
Qed.

(** X8: the builder [build_pex] returns holds the distributions taken from
    the PEXes of [--requirements-pex], in the order of the options, followed
    by exactly the distributions the resolver returned, in the resolver's
    order; its requirements are those taken from the requirements PEXes
    followed by exactly the direct requirements among the resolved
    distributions, in that order.  Nothing else is added and nothing is
    dropped. *)
Theorem built_pex_distributions (w : World) (reqs : list string)
    (rc : ResolveConfiguration) (options : Options) (cache : option string)
    (s : State) b s' t :
  build_pex w reqs rc options cache s = (Ok b, s', t) ->
  exists plan s1 t1 ds,
    build_pex_plan w options s = (Ok plan, s1, t1)
    /\ (resolver_call w reqs rc options cache (plan_interpreters plan)
          (plan_platforms plan)).2 = inr ds
    /\ b_distributions b
       = requirements_pex_distributions w options ++ map distribution ds
    /\ b_requirements b
       = requirements_pex_requirements w options ++ direct_requirements ds.
Proof.
  intros H.
  destruct (build_pex_ok_inv _ _ _ _ _ _ _ _ _ H)
    as (plan & s1 & t1 & ds & Hplan & Hcall & _ & ->).
  by exists plan, s1, t1, ds.
Qed.

Lemma built_pex_distributions_witness :
  exists b s' t,
    build_pex example_world ["requests"] example_configuration packaging_options
              None initial_state = (Ok b, s', t)
    /\ exists plan s1 t1 ds,
         build_pex_plan example_world packaging_options initial_state
         = (Ok plan, s1, t1)
         /\ (resolver_call example_world ["requests"] example_configuration
               packaging_options None (plan_interpreters plan)
               (plan_platforms plan)).2 = inr ds
         /\ b_distributions b = ["six-1.15.0"] ++ map distribution ds
         /\ b_requirements b = ["six"] ++ direct_requirements ds.
Proof.
  destruct (example_build_ok example_world ["requests"] example_configuration
              packaging_options None) as (b & s' & t & H); [vm_compute; reflexivity|].
  exists b, s', t. split; [exact H|].
  exact (built_pex_distributions example_world ["requests"] example_configuration
           packaging_options None initial_state b s' t H).
Defined.

(** X9: the sources of the returned builder are the files found by walking
    the directories of [-D] and then [-R], each directory once however often
    it is given, in the order of first mention; every file goes under its path
    relative to the normalized directory. *)
Theorem built_pex_sources (w : World) (reqs : list string)
    (rc : ResolveConfiguration) (options : Options) (cache : option string)
    (s : State) b s' t :
  build_pex w reqs rc options cache s = (Ok b, s', t) ->
  b_sources b
  = flat_map (directory_files w)
      (OrderedSet (sources_directory options ++ resources_directory options)).
Proof.
  intros H.
  by destruct (build_pex_ok_inv _ _ _ _ _ _ _ _ _ H)
    as (plan & s1 & t1 & ds & _ & _ & _ & ->).
Qed.

Lemma built_pex_sources_witness :
  exists b s' t,
    build_pex example_world ["requests"] example_configuration packaging_options
              None initial_state = (Ok b, s', t)
    /\ b_sources b
       = flat_map (directory_files example_world)
           (OrderedSet (sources_directory packaging_options
                        ++ resources_directory packaging_options)).
Proof.
  destruct (example_build_ok example_world ["requests"] example_configuration
              packaging_options None) as (b & s' & t & H); [vm_compute; reflexivity|].
  exists b, s', t. split; [exact H|].
  exact (built_pex_sources example_world ["requests"] example_configuration
           packaging_options None initial_state b s' t H).
Defined.

(** X10: a builder returned by [build_pex] never has both an entry point and
    a script: its entry point is the [-m] value when that is non-empty, its
    script the [-c] value when that is non-empty, and an empty value sets
    nothing. *)
Theorem built_pex_entry_point (w : World) (reqs : list string)
    (rc : ResolveConfiguration) (options : Options) (cache : option string)
    (s : State) b s' t :
  build_pex w reqs rc options cache s = (Ok b, s', t) ->
  (b_entry_point b = None \/ b_script b = None)
  /\ b_entry_point b
     = (if truthy (entry_point options) then entry_point options else None)
  /\ b_script b = (if truthy (script options) then script options else None).
Proof.
  intros H.
  destruct (build_pex_ok_inv _ _ _ _ _ _ _ _ _ H)
    as (plan & s1 & t1 & ds & _ & _ & Hc & ->).
  simpl_builder.
  destruct (truthy (entry_point options)), (truthy (script options));
    try discriminate Hc; auto.
Qed.

Lemma built_pex_entry_point_witness :
  exists b s' t,
    build_pex example_world ["requests"] example_configuration packaging_options
              None initial_state = (Ok b, s', t)
    /\ (b_entry_point b = None \/ b_script b = None)
    /\ b_entry_point b = Some "pkg.mod:main"
    /\ b_script b = None.
Proof.
  destruct (example_build_ok example_world ["requests"] example_configuration
              packaging_options None) as (b & s' & t & H); [vm_compute; reflexivity|].
  exists b, s', t. split; [exact H|].
  exact (built_pex_entry_point example_world ["requests"] example_configuration
           packaging_options None initial_state b s' t H).
Defined.

(** X11: the metadata of the returned builder come from the options alone:
    the venv flag is set exactly when [--venv] is given, and then the tools
    are always included; the runtime root is the [--runtime-pex-root] value,
    whatever cache the build itself used; the interpreter constraints and
    the requirements PEXes are those of the options, in order; the shebang
    is set only by a non-empty [--python-shebang]. *)
Theorem built_pex_metadata (w : World) (reqs : list string)
    (rc : ResolveConfiguration) (options : Options) (cache : option string)
    (s : State) b s' t :
  build_pex w reqs rc options cache s = (Ok b, s', t) ->
  (exists info,
     b_info b = Some info
     /\ info_venv info = is_some (venv options)
     /\ (info_venv info = true -> info_includes_tools info = true)
     /\ (info_venv info = false -> info_includes_tools info = include_tools options)
     /\ (info_venv info = false -> info_venv_bin_path info = BinPath_FALSE)
     /\ info_pex_root info = runtime_pex_root options)
  /\ b_interpreter_constraints b = interpreter_constraint options
  /\ b_requirements_pexes b = requirements_pexes options
  /\ b_shebang b
     = (if truthy (python_shebang options) then python_shebang options else None).
Proof.
  intros H.
  destruct (build_pex_ok_inv _ _ _ _ _ _ _ _ _ H)
    as (plan & s1 & t1 & ds & _ & _ & _ & ->).
  simpl_builder. split; [|done].
  exists (expected_info options). unfold expected_info. cbn.
  destruct (venv options), (include_tools options); cbn; repeat split; done.
Qed.

Lemma built_pex_metadata_witness :
  exists b s' t,
    build_pex example_world ["requests"] example_configuration packaging_options
              (Some "/home/user/.pex") initial_state = (Ok b, s', t)
    /\ (exists info,
          b_info b = Some info
          /\ info_venv info = true
          /\ (info_venv info = true -> info_includes_tools info = true)
          /\ (info_venv info = false -> info_includes_tools info = false)
          /\ (info_venv info = false -> info_venv_bin_path info = BinPath_FALSE)
          /\ info_pex_root info = Some "/var/lib/app")
    /\ b_interpreter_constraints b = [">=3.8"]
    /\ b_requirements_pexes b = ["base.pex"]
    /\ b_shebang b = Some "/usr/bin/env python3".
Proof.
  destruct (example_build_ok example_world ["requests"] example_configuration
              packaging_options (Some "/home/user/.pex"))
    as (b & s' & t & H); [vm_compute; reflexivity|].
  exists b, s', t. split; [exact H|].
  exact (built_pex_metadata example_world ["requests"] example_configuration
           packaging_options (Some "/home/user/.pex") initial_state b s' t H).
Defined.

(** X12: the returned builder works in a temporary directory created after
    the interpreters were selected, is bound to the primary interpreter of the
    selection (none when no interpreter was selected), and its preamble
    is the content of [--preamble-file] when that option is non-empty, and
    no preamble otherwise. *)
Theorem built_pex_workspace (w : World) (reqs : list string)
    (rc : ResolveConfiguration) (options : Options) (cache : option string)
    (s : State) b s' t :
  build_pex w reqs rc options cache s = (Ok b, s', t) ->
  exists plan s1 t1,
    build_pex_plan w options s = (Ok plan, s1, t1)
    /\ b_interpreter b = plan_interpreter plan
    /\ b_path b = w_mkdtemp w (fresh s1)
    /\ In (EvMkdtemp (b_path b)) t
    /\ fresh s' = S (fresh s1)
    /\ b_preamble b
       = (if truthy (preamble_file options)
          then preamble_file options ≫= w_read w else None)
    /\ (truthy (preamble_file options) = true -> is_Some (b_preamble b)).
Proof.
  intros H.
  destruct (build_pex_ok_inv _ _ _ _ _ _ _ _ _ H)
    as (plan & s1 & t1 & ds & Hplan & _ & _ & ->).
  exists plan, s1, t1. simpl_builder.
  destruct (build_pex_builder w options (plan_interpreter plan) s1)
    as [[rb s2] t2] eqn:Hb.
  assert (Hrun := H). unfold build_pex, build_pex_resolved, bind in Hrun.
  rewrite Hplan, Hb in Hrun.
  destruct rb as [b0| | |]; try discriminate Hrun. clear Hrun.
  rewrite (build_pex_run w reqs rc options cache s _ _ _ _ _ _ Hplan Hb) in H.
  injection H as _ <- <-.
  assert (Hs2 : fresh s2 = S (fresh s1) /\ In (EvMkdtemp (w_mkdtemp w (fresh s1))) t2
                /\ (truthy (preamble_file options) = true ->
                    is_Some (preamble_file options ≫= w_read w))).
  { revert Hb. unfold build_pex_builder, safe_mkdtemp, bind, ret, raise.
    destruct (preamble_file options) as [f|]; [|cbn [truthy]].
    - destruct (truthy (Some f)); cbn.
      + destruct (w_read w f); [|discriminate]. intros [= _ <- <-].
        cbn. eauto.
      + intros [= _ <- <-]. cbn. split; [done|]. split; [auto|]. discriminate.
    - intros [= _ <- <-]. cbn. split; [done|]. split; [auto|]. discriminate. }
  destruct Hs2 as (Hf & Hin & Hpre).
  repeat split; try done.
  - apply in_or_app. right. apply in_or_app. by left.
  - intros Ht. rewrite Ht. by apply Hpre.
Qed.

Lemma built_pex_workspace_witness :
  exists b s' t,
    build_pex example_world ["requests"] example_configuration packaging_options
              None initial_state = (Ok b, s', t)
    /\ exists plan s1 t1,
         build_pex_plan example_world packaging_options initial_state
         = (Ok plan, s1, t1)
         /\ b_interpreter b = plan_interpreter plan
         /\ b_path b = w_mkdtemp example_world (fresh s1)
         /\ In (EvMkdtemp (b_path b)) t
         /\ fresh s' = S (fresh s1)
         /\ b_preamble b = None
         /\ (false = true -> is_Some (b_preamble b)).
Proof.
  destruct (example_build_ok example_world ["requests"] example_configuration
              packaging_options None) as (b & s' & t & H); [vm_compute; reflexivity|].
  exists b, s', t. split; [exact H|].
  exact (built_pex_workspace example_world ["requests"] example_configuration
           packaging_options None initial_state b s' t H).
Defined.

(** X13: when [--preamble-file] names a file that cannot be opened,
    [build_pex] raises the error of [open] once the interpreters are
    selected: no temporary directory is created, no deprecation warning is
    emitted and the resolver is not called. *)
Theorem preamble_unreadable (w : World) (reqs : list string)
    (rc : ResolveConfiguration) (options : Options) (cache : option string)
    (s : State) plan s1 t1 f :
  build_pex_plan w options s = (Ok plan, s1, t1) ->
  preamble_file options = Some f ->
  truthy (Some f) = true ->
  w_read w f = None ->
  build_pex w reqs rc options cache s = (Raised (External "open"), s1, t1).
Proof.
  intros Hplan Hf Ht Hread.
  unfold build_pex, build_pex_resolved, bind. rewrite Hplan.
  unfold build_pex_builder, bind, raise. rewrite Hf, Ht, Hread.
  by rewrite app_nil_r.
Qed.

Lemma preamble_unreadable_witness :
  exists s1 t1,
    build_pex example_world ["requests"] example_configuration preamble_options
              None initial_state = (Raised (External "open"), s1, t1)
    /\ existsb is_resolve t1 = false.
Proof.
  destruct (build_pex_plan example_world preamble_options initial_state)
    as [[rp s1] t1] eqn:Hplan.
  assert (Hok : match rp with Ok _ => true | _ => false end
                && negb (existsb is_resolve t1) = true).
  { replace rp with (build_pex_plan example_world preamble_options initial_state).1.1
      by (by rewrite Hplan).
    replace t1 with (build_pex_plan example_world preamble_options initial_state).2
      by (by rewrite Hplan).
    vm_compute. reflexivity. }
  destruct rp as [plan| | |]; try discriminate Hok.
  exists s1, t1. split.
  - exact (preamble_unreadable example_world ["requests"] example_configuration
             preamble_options None initial_state plan s1 t1 "/no/such/preamble.py"
             Hplan eq_refl eq_refl eq_refl).
  - by apply negb_true_iff.
Defined.

(** ** Where [sys.exit] can be reached *)

Lemma no_exit_ret {A} (a : A) : no_exit (ret a).
Proof. by intros s. Qed.

Lemma no_exit_raise {A} (e : Exn) : no_exit (@raise A e).
Proof. by intros s. Qed.

Lemma no_exit_die {A} msg st : no_exit (@die A msg st).
Proof. by intros s. Qed.

Lemma no_exit_tell (e : Event) : no_exit (tell e).
Proof. by intros s. Qed.

Lemma no_exit_bind {A B} (m : M A) (k : A -> M B) :
  no_exit m -> (forall a, no_exit (k a)) -> no_exit (bind m k).
Proof.
  intros Hm Hk s. unfold bind. specialize (Hm s).
  destruct (m s) as [[r1 s1] t1]. cbn [fst] in Hm.
  destruct r1 as [a| | |]; try done.
  specialize (Hk a s1). by destruct (k a s1) as [[r2 s2] t2].
Qed.

Lemma no_exit_try_except {A} (m : M A) (sel : Exn -> option (M A)) :
  no_exit m -> (forall e h, sel e = Some h -> no_exit h) -> no_exit (try_except m sel).
Proof.
  intros Hm Hh s. unfold try_except. specialize (Hm s).
  destruct (m s) as [[r1 s1] t1]. cbn [fst] in Hm.
  destruct r1 as [a| | |e]; try done.
  destruct (sel e) as [h|] eqn:Es; [|done].
  specialize (Hh _ _ Es s1). by destruct (h s1) as [[r2 s2] t2].
Qed.

Lemma no_exit_mapM {A B} (f : A -> M B) (l : list A) :
  (forall x, no_exit (f x)) -> no_exit (mapM f l).
Proof.
  intros Hf. induction l as [|x l IH]; cbn [mapM].
  - apply no_exit_ret.
  - apply no_exit_bind; [apply Hf|]. intros y.
    apply no_exit_bind; [apply IH|]. intros ys. apply no_exit_ret.
Qed.

Lemma no_exit_foldM {A B} (f : A -> B -> M A) (l : list B) :
  (forall a x, no_exit (f a x)) -> forall a, no_exit (foldM f a l).
Proof.
  intros Hf. induction l as [|x l IH]; intros a; cbn [foldM].
  - apply no_exit_ret.
  - apply no_exit_bind; [apply Hf|]. intros a'. apply IH.
Qed.

Ltac no_exit_step :=
  first
    [ apply no_exit_ret | apply no_exit_raise | apply no_exit_die
    | apply no_exit_tell
    | apply no_exit_bind; [|intros ?]
    | match goal with |- no_exit (if ?b then _ else _) => destruct b end
    | match goal with |- no_exit (match ?x with _ => _ end) => destruct x end ].

Lemma no_exit_iter_compatible_interpreters (w : World) path cs :
  no_exit (iter_compatible_interpreters w path cs).
Proof. unfold iter_compatible_interpreters. repeat no_exit_step. Qed.

Lemma no_exit_to_python_interpreter (w : World) p :
  no_exit (to_python_interpreter w p).
Proof. unfold to_python_interpreter. repeat no_exit_step. Qed.

Lemma no_exit_build_pex_interpreters (w : World) (options : Options) path :
  no_exit (build_pex_interpreters w options path).
Proof.
  unfold build_pex_interpreters, TRACER_timed, validate_constraints.
  destruct (nonempty (python options)).
  - apply no_exit_bind; [apply no_exit_tell|]. intros _.
    apply no_exit_bind; [apply no_exit_mapM, no_exit_to_python_interpreter|].
    intros l. apply no_exit_ret.
  - destruct (nonempty (interpreter_constraint options)); [|apply no_exit_ret].
    apply no_exit_bind; [apply no_exit_tell|]. intros _.
    apply no_exit_bind; [repeat no_exit_step|].
    intros _. apply no_exit_try_except.
    + apply no_exit_bind; [apply no_exit_iter_compatible_interpreters|].
      intros l. apply no_exit_ret.
    + intros e h. destruct e; try discriminate. intros [= <-]. apply no_exit_die.
Qed.

Lemma no_exit_resolve_candidate c acc : no_exit (resolve_candidate c acc).
Proof.
  unfold resolve_candidate. destruct (nonempty _); [|apply no_exit_ret].
  apply no_exit_bind; [|intros pl; apply no_exit_ret].
  apply no_exit_foldM. intros pl p.
  apply no_exit_bind; [apply no_exit_tell|]. intros _.
  unfold OrderedSet_remove. destruct (decide _); [apply no_exit_ret|apply no_exit_raise].
Qed.

Lemma no_exit_build_pex_platforms (w : World) (options : Options) path interpreters :
  no_exit (build_pex_platforms w options path interpreters).
Proof.
  unfold build_pex_platforms, TRACER_timed, TRACER_log, when.
  destruct (_ && _); [|apply no_exit_ret].
  apply no_exit_bind.
  - apply no_exit_bind; [apply no_exit_tell|]. intros _.
    apply no_exit_bind; [apply no_exit_iter_compatible_interpreters|]. intros found.
    apply no_exit_bind; [apply no_exit_tell|]. intros _.
    apply no_exit_foldM. intros acc c. apply no_exit_resolve_candidate.
  - intros r. repeat no_exit_step.
Qed.

Lemma no_exit_build_pex (w : World) reqs rc (options : Options) cache :
  no_exit (build_pex w reqs rc options cache).
Proof.
  unfold build_pex, build_pex_resolved.
  apply no_exit_bind.
  2:{ intros b. unfold build_pex_entry_point. repeat no_exit_step. }
  apply no_exit_bind.
  { unfold build_pex_plan.
    apply no_exit_bind; [apply no_exit_build_pex_interpreters|]. intros sel.
    apply no_exit_bind; [apply no_exit_build_pex_platforms|]. intros r.
    apply no_exit_ret. }
  intros plan. apply no_exit_bind.
  { unfold build_pex_builder. apply no_exit_bind; [repeat no_exit_step|].
    intros preamble. apply no_exit_bind; [by intros s|]. intros p. apply no_exit_ret. }
  intros b. apply no_exit_bind.
  { intros s. by rewrite deprecations_trace. }
  intros _ s. rewrite build_pex_resolve_run.
  by destruct (resolver_call _ _ _ _ _ _ _).2.
Qed.

Lemma no_exit_seed_cache (w : World) (options : Options) (pex : PEX) (verbose : bool) :
  no_exit (seed_cache w options pex verbose).
Proof.
  unfold seed_cache, TRACER_timed.
  apply no_exit_bind; [apply no_exit_tell|]. intros _.
  destruct (is_some (venv options)).
  - apply no_exit_bind; [apply no_exit_tell|]. intros _.
    apply no_exit_bind.
    + intros s. unfold ensure_venv. by destruct (decide _).
    + intros v. destruct verbose; apply no_exit_ret.
  - destruct (seed_pex_hash _) as [h|]; [|apply no_exit_raise].
    apply no_exit_bind; [apply no_exit_tell|]. intros _.
    apply no_exit_bind.
    + intros s. unfold maybe_install.
      destruct (w_needs_install w _); [|done].
      by destruct (decide _).
    + intros d. apply no_exit_bind.
      * destruct (truthy d); [apply no_exit_ret|].
        unfold os_path_abspath.
        destruct (pex_name options); [apply no_exit_ret|apply no_exit_raise].
      * intros dir. destruct verbose; apply no_exit_ret.
Qed.

Lemma no_exit_log (msg : string) (V : nat) : no_exit (log msg V).
Proof. unfold log. repeat no_exit_step. Qed.

Lemma no_exit_main_parsed (w : World) (args : option (list string))
    (options : Options) (cmdline : list string) :
  parsed w args = Some (options, cmdline) ->
  no_exit (main_from_options w options cmdline) ->
  no_exit (main w args).
Proof.
  intros Hp Hm s. rewrite (main_parsed w args options cmdline s Hp).
  specialize (Hm s).
  by destruct (main_from_options w options cmdline s) as [[r s'] t].
Qed.

(** ** The end of [main]: run or save (lines 935-974) *)

Lemma main_build_run (w : World) (options : Options) (cmdline : list string)
    (rc : ResolveConfiguration) (root tmp : string) (s : State) b s1 t1 :
  pex_name options = None ->
  build_pex w (requirements options) rc options (Some (w_patched_PEX_ROOT w root)) s
  = (Ok b, s1, t1) ->
  main_build w options cmdline rc root tmp s
  = (Exited (built_pex_run w options cmdline root tmp b s1).1.1,
     (built_pex_run w options cmdline root tmp b s1).1.2,
     [EvEnvPatch (verbosity options) root tmp; EvTracer BuildingPex]
     ++ t1 ++ EvFreeze (compile options)
     :: run_log w options cmdline b
     ++ EvRun (built_pex w options b) cmdline
     :: (built_pex_run w options cmdline root tmp b s1).2).
Proof.
  intros Hname Hbuild.
  unfold main_build, TRACER_timed, run_log, built_pex_run, built_pex, pex_run,
    log, bind, tell, sys_exit, ret.
  rewrite Hbuild, Hname. cbv beta iota.
  destruct (negb (compatible_truthy _));
    destruct (Nat.eqb (verbosity options) 0); cbn [Nat.eqb]; cbv beta iota;
    destruct (w_run w _ cmdline _ s1) as [[code s2] t2];
    cbn [Nat.eqb app fst snd]; rewrite ?app_nil_r; reflexivity.
Qed.

Lemma main_build_save (w : World) (options : Options) (cmdline : list string)
    (rc : ResolveConfiguration) (root tmp : string) (s : State) b s1 t1 name :
  pex_name options = Some name ->
  build_pex w (requirements options) rc options (Some (w_patched_PEX_ROOT w root)) s
  = (Ok b, s1, t1) ->
  main_build w options cmdline rc root tmp s
  = (let '(r, s2, t2) :=
       (if negb (bool_decide (seed options = Seed_NONE))
        then seed_info <- seed_cache w options (built_pex w options b)
                            (bool_decide (seed options = Seed_VERBOSE)) ;;
             tell (EvStdout seed_info)
        else ret tt) s1 in
     (r, s2,
      [EvEnvPatch (verbosity options) root tmp; EvTracer BuildingPex]
      ++ t1 ++ EvFreeze (compile options)
      :: save_log options name
      ++ EvBuild name (compile options) (negb (use_system_time options))
                 (layout options) :: t2)).
Proof.
  intros Hname Hbuild.
  unfold main_build, TRACER_timed, save_log, built_pex.
  unfold bind at 1. cbn [tell]. cbv beta iota.
  unfold bind at 1. unfold bind at 1. cbn [tell]. cbv beta iota.
  rewrite Hbuild, Hname. 
  unfold bind at 1. cbn [tell]. cbv beta iota.
  unfold bind at 1. unfold log, tell, ret.
  destruct (if negb (bool_decide (seed options = Seed_NONE)) then _ else _)
    as [[r s2] t2] eqn:Hseed.
  destruct (Nat.eqb (verbosity options) 0); cbv beta iota;
    unfold bind at 1; cbv beta iota;
    rewrite Hseed; cbn [app]; rewrite ?app_nil_r; reflexivity.
Qed.

Lemma main_build_failed (w : World) (options : Options) (cmdline : list string)
    (rc : ResolveConfiguration) (root tmp : string) (s : State) :
  match build_pex w (requirements options) rc options
          (Some (w_patched_PEX_ROOT w root)) s with
  | (Ok _, _, _) => True
  | (Died msg st, s1, t1) =>
      main_build w options cmdline rc root tmp s
      = (Died msg st, s1,
         [EvEnvPatch (verbosity options) root tmp; EvTracer BuildingPex] ++ t1)
  | (Raised e, s1, t1) =>
      main_build w options cmdline rc root tmp s
      = (Raised e, s1,
         [EvEnvPatch (verbosity options) root tmp; EvTracer BuildingPex] ++ t1)
  | (Exited _, _, _) => False
  end.
Proof.
  pose proof (no_exit_build_pex w (requirements options) rc options
                (Some (w_patched_PEX_ROOT w root)) s) as Hne.
  destruct (build_pex w (requirements options) rc options
              (Some (w_patched_PEX_ROOT w root)) s) as [[r s1] t1] eqn:Hbuild.
  cbn [fst] in Hne.
  destruct r as [b|msg st|c|e]; try done;
    unfold main_build, TRACER_timed, bind, tell; by rewrite Hbuild.
Qed.

Lemma main_build_run_path (w : World) (options : Options)
    (cmdline : list string) (rc : ResolveConfiguration) (root tmp : string)
    (s : State) :
  pex_name options = None ->
  match build_pex w (requirements options) rc options
          (Some (w_patched_PEX_ROOT w root)) s with
  | (Ok b, s1, t1) =>
      main_build w options cmdline rc root tmp s
      = (Exited (built_pex_run w options cmdline root tmp b s1).1.1,
         (built_pex_run w options cmdline root tmp b s1).1.2,
         [EvEnvPatch (verbosity options) root tmp; EvTracer BuildingPex]
         ++ t1 ++ EvFreeze (compile options)
         :: run_log w options cmdline b
         ++ EvRun (built_pex w options b) cmdline
         :: (built_pex_run w options cmdline root tmp b s1).2)
  | (Died msg st, s1, t1) =>
      main_build w options cmdline rc root tmp s
      = (Died msg st, s1,
         [EvEnvPatch (verbosity options) root tmp; EvTracer BuildingPex] ++ t1)
  | (Raised e, s1, t1) =>
      main_build w options cmdline rc root tmp s
      = (Raised e, s1,
         [EvEnvPatch (verbosity options) root tmp; EvTracer BuildingPex] ++ t1)
  | (Exited _, _, _) => False
  end.
Proof.
  intros Hname.
  pose proof (main_build_failed w options cmdline rc root tmp s) as Hfail.
  destruct (build_pex w (requirements options) rc options
              (Some (w_patched_PEX_ROOT w root)) s) as [[r s1] t1] eqn:Hbuild.
  destruct r as [b|msg st|c|e]; try done.
  by apply main_build_run.
Qed.

(** X14: without [-o], [main_build] ends exactly as follows.  When
    [build_pex] returns a builder, the PEX at the builder's path is frozen and
    run, under the patched environment, with the arguments after [--]; the
    process exits with the status of that run, in the state the run leaves
    and after the events of the run; an incompatible platform is reported on
    the standard error but does not stop the run.  When [build_pex] fails,
    the failure is the outcome, and nothing is frozen or run. *)
Theorem run_path_exit_status (w : World) (options : Options) (cmdline : list string)
    (rc : ResolveConfiguration) (root tmp : string) (s : State) :
  pex_name options = None ->
  match build_pex w (requirements options) rc options
          (Some (w_patched_PEX_ROOT w root)) s with
  | (Ok b, s1, t1) =>
      main_build w options cmdline rc root tmp s
      = (Exited (built_pex_run w options cmdline root tmp b s1).1.1,
         (built_pex_run w options cmdline root tmp b s1).1.2,
         [EvEnvPatch (verbosity options) root tmp; EvTracer BuildingPex]
         ++ t1 ++ EvFreeze (compile options)
         :: run_log w options cmdline b
         ++ EvRun (built_pex w options b) cmdline
         :: (built_pex_run w options cmdline root tmp b s1).2)
  | (Died msg st, s1, t1) =>
      main_build w options cmdline rc root tmp s
      = (Died msg st, s1,
         [EvEnvPatch (verbosity options) root tmp; EvTracer BuildingPex] ++ t1)
  | (Raised e, s1, t1) =>
      main_build w options cmdline rc root tmp s
      = (Raised e, s1,
         [EvEnvPatch (verbosity options) root tmp; EvTracer BuildingPex] ++ t1)
  | (Exited _, _, _) => False
  end.
Proof. apply main_build_run_path. Qed.

Lemma run_path_exit_status_witness :
  exists b s1 t1,
    build_pex example_world (requirements default_options) example_configuration
              default_options (Some (w_patched_PEX_ROOT example_world "/root/.pex"))
              initial_state = (Ok b, s1, t1)
    /\ main_build example_world default_options ["--version"] example_configuration
                  "/root/.pex" "/tmp" initial_state
       = (Exited 0, s1,
          [EvEnvPatch (verbosity default_options) "/root/.pex" "/tmp";
           EvTracer BuildingPex]
          ++ t1 ++ EvFreeze (compile default_options)
          :: run_log example_world default_options ["--version"] b
          ++ [EvRun (built_pex example_world default_options b) ["--version"];
              EvStdout "--version"]).
Proof.
  pose proof (run_path_exit_status example_world default_options ["--version"]
                example_configuration "/root/.pex" "/tmp" initial_state eq_refl) as H.
  destruct (build_pex example_world (requirements default_options)
              example_configuration default_options
              (Some (w_patched_PEX_ROOT example_world "/root/.pex")) initial_state)
    as [[r s1] t1] eqn:Hbuild.
  assert (Hok : match r with Ok _ => true | _ => false end = true).
  { replace r with
      (build_pex example_world (requirements default_options)
         example_configuration default_options
         (Some (w_patched_PEX_ROOT example_world "/root/.pex")) initial_state).1.1
      by (by rewrite Hbuild).
    vm_compute. reflexivity. }
  destruct r as [b| | |]; try discriminate Hok.
  exists b, s1, t1. split; [reflexivity|]. exact H.
Defined.

(** X15: with [-o] and no seeding, [main_build] ends exactly as follows.
    When [build_pex] returns a builder, the PEX is frozen and then written
    once, to the given name, with the [--compile], timestamp and layout
    settings of the options, and [main_build] returns; nothing is run and
    nothing is printed on the standard output.  When [build_pex] fails,
    the failure is the outcome and nothing is frozen or written. *)
Theorem save_path_writes_once (w : World) (options : Options) (cmdline : list string)
    (rc : ResolveConfiguration) (root tmp : string) (s : State) (name : string) :
  pex_name options = Some name ->
  seed options = Seed_NONE ->
  match build_pex w (requirements options) rc options
          (Some (w_patched_PEX_ROOT w root)) s with
  | (Ok b, s1, t1) =>
      main_build w options cmdline rc root tmp s
      = (Ok tt, s1,
         [EvEnvPatch (verbosity options) root tmp; EvTracer BuildingPex]
         ++ t1 ++ EvFreeze (compile options)
         :: save_log options name
         ++ [EvBuild name (compile options) (negb (use_system_time options))
                     (layout options)])
  | (Died msg st, s1, t1) =>
      main_build w options cmdline rc root tmp s
      = (Died msg st, s1,
         [EvEnvPatch (verbosity options) root tmp; EvTracer BuildingPex] ++ t1)
  | (Raised e, s1, t1) =>
      main_build w options cmdline rc root tmp s
      = (Raised e, s1,
         [EvEnvPatch (verbosity options) root tmp; EvTracer BuildingPex] ++ t1)
  | (Exited _, _, _) => False
  end.
Proof.
  intros Hname Hseed.
  pose proof (main_build_failed w options cmdline rc root tmp s) as Hfail.
  destruct (build_pex w (requirements options) rc options
              (Some (w_patched_PEX_ROOT w root)) s) as [[r s1] t1] eqn:Hbuild.
  destruct r as [b|msg st|c|e]; try done.
  rewrite (main_build_save w options cmdline rc root tmp s b s1 t1 name Hname Hbuild).
  rewrite Hseed. rewrite bool_decide_eq_true_2 by done. reflexivity.
Qed.

Lemma save_path_writes_once_witness :
  let options := options_with [] [] [] false None None None None false None None None
                              [] (Some "app.pex") None Seed_NONE "/tmp" in
  exists b s1 t1,
    build_pex example_world (requirements options) example_configuration
              options (Some (w_patched_PEX_ROOT example_world "/root/.pex"))
              initial_state = (Ok b, s1, t1)
    /\ main_build example_world options [] example_configuration
                  "/root/.pex" "/tmp" initial_state
       = (Ok tt, s1,
          [EvEnvPatch 0 "/root/.pex" "/tmp"; EvTracer BuildingPex]
          ++ t1 ++ [EvFreeze false; EvBuild "app.pex" false true ZIPAPP]).
Proof.
  intros options.
  pose proof (save_path_writes_once example_world options []
                example_configuration "/root/.pex" "/tmp" initial_state "app.pex"
                eq_refl eq_refl) as H.
  destruct (build_pex example_world (requirements options)
              example_configuration options
              (Some (w_patched_PEX_ROOT example_world "/root/.pex")) initial_state)
    as [[r s1] t1] eqn:Hbuild.
  assert (Hok : match r with Ok _ => true | _ => false end = true).
  { replace r with
      (build_pex example_world (requirements options)
         example_configuration options
         (Some (w_patched_PEX_ROOT example_world "/root/.pex")) initial_state).1.1
      by (by rewrite Hbuild).
    vm_compute. reflexivity. }
  destruct r as [b| | |]; try discriminate Hok.
  by exists b, s1, t1.
Defined.

(** ** What each path never does *)

Lemma emits_seed_cache_gen (P : Event -> bool) (w : World) (options : Options)
    (pex : PEX) (verbose : bool) :
  (forall l, P (EvTracer l) = true) ->
  (forall d, P (EvCreateVenv d) = true) ->
  (forall a b c, P (EvInstall a b c) = true) ->
  emits P (seed_cache w options pex verbose).
Proof.
  intros HT HV HI. unfold seed_cache, TRACER_timed.
  apply emits_bind; [by apply emits_tell|]. intros _.
  destruct (is_some (venv options)).
  - apply emits_bind; [by apply emits_tell|]. intros _.
    apply emits_bind.
    + intros s r s' t. unfold ensure_venv.
      destruct (decide _); intros [= _ _ <-]; [done|]. cbn. by rewrite HV.
    + intros v. destruct verbose; apply emits_ret.
  - destruct (seed_pex_hash _) as [h|]; [|apply emits_raise].
    apply emits_bind; [by apply emits_tell|]. intros _.
    apply emits_bind.
    + intros s r s' t. unfold maybe_install.
      destruct (w_needs_install w _); [|by intros [= _ _ <-]].
      destruct (decide _); intros [= _ _ <-]; [done|]. cbn. by rewrite HI.
    + intros d. apply emits_bind.
      * destruct (truthy d); [apply emits_ret|].
        unfold os_path_abspath.
        destruct (pex_name options); [apply emits_ret|apply emits_raise].
      * intros dir. destruct verbose; apply emits_ret.
Qed.

Section Prelude.
Variable P : Event -> bool.
Hypothesis HP : forall e, prelude_event e = true -> P e = true.

Lemma emits_main_tmpdir (w : World) (options : Options) :
  emits P (main_tmpdir w options).
Proof.
  unfold main_tmpdir.
  apply emits_bind; [destruct (negb _); [apply emits_die|apply emits_ret]|].
  intros _.
  apply emits_bind; [destruct (negb _); [apply emits_die|apply emits_ret]|].
  intros _. apply emits_bind; [by apply emits_tell, HP|]. intros _.
  apply emits_ret.
Qed.

Lemma emits_main_cache_dir (options : Options) : emits P (main_cache_dir options).
Proof.
  unfold main_cache_dir, pex_warnings_warn.
  destruct (truthy (cache_dir options)); [|apply emits_ret].
  apply emits_bind; [by apply emits_tell, HP|]. intros _.
  destruct (_ && _); [apply emits_die|apply emits_ret].
Qed.

Lemma emits_main_pex_root (w : World) (options : Options) :
  emits P (main_pex_root w options).
Proof.
  unfold main_pex_root, warn_ignore_pex_root, pex_warnings_warn.
  destruct (disable_cache options); [|apply emits_ret].
  apply emits_bind.
  - repeat (match goal with |- emits _ (if ?b then _ else _) => destruct b end);
      try apply emits_ret; by apply emits_tell, HP.
  - intros _ s r s' t [= _ _ <-]. cbn. by rewrite HP.
Qed.

Lemma emits_main_python_conflict (options : Options) :
  emits P (main_python_conflict options).
Proof.
  unfold main_python_conflict.
  destruct (_ && _); [apply emits_die|apply emits_ret].
Qed.

Lemma emits_main_resolve_configuration (w : World) (options : Options) :
  emits P (main_resolve_configuration w options).
Proof.
  unfold main_resolve_configuration. apply emits_try_except.
  - destruct (w_create_resolve_configuration w options);
      [apply emits_raise|apply emits_ret].
  - intros e h. destruct e; try discriminate. intros [= <-]. apply emits_die.
Qed.

Lemma emits_main_from_options (w : World) (options : Options)
    (cmdline : list string) :
  (forall rc root tmp, emits P (main_build w options cmdline rc root tmp)) ->
  emits P (main_from_options w options cmdline).
Proof.
  intros Hk. unfold main_from_options.
  apply emits_bind; [apply emits_main_tmpdir|]. intros tmp.
  apply emits_bind; [apply emits_main_cache_dir|]. intros _.
  apply emits_bind; [apply emits_main_pex_root|]. intros root.
  apply emits_bind; [apply emits_main_python_conflict|]. intros _.
  apply emits_bind; [apply emits_main_resolve_configuration|]. intros rc.
  apply Hk.
Qed.
End Prelude.

Lemma no_exit_main_from_options (w : World) (options : Options)
    (cmdline : list string) :
  (forall rc root tmp, no_exit (main_build w options cmdline rc root tmp)) ->
  no_exit (main_from_options w options cmdline).
Proof.
  intros Hk. unfold main_from_options.
  apply no_exit_bind; [unfold main_tmpdir; repeat no_exit_step|]. intros tmp.
  apply no_exit_bind.
  { unfold main_cache_dir, pex_warnings_warn. repeat no_exit_step. }
  intros _. apply no_exit_bind.
  { unfold main_pex_root, warn_ignore_pex_root, pex_warnings_warn.
    destruct (disable_cache options); [|apply no_exit_ret].
    apply no_exit_bind; [repeat no_exit_step|]. by intros _ s. }
  intros root. apply no_exit_bind.
  { unfold main_python_conflict. repeat no_exit_step. }
  intros _. apply no_exit_bind; [|intros rc; apply Hk].
  unfold main_resolve_configuration. apply no_exit_try_except.
  - repeat no_exit_step.
  - intros e h. destruct e; try discriminate. intros [= <-]. apply no_exit_die.
Qed.

Lemma build_event_not_run (e : Event) : build_event e = true -> negb (is_run e) = true.
Proof. destruct e; unfold build_event; simpl; congruence. Qed.

Lemma build_event_not_saved (e : Event) :
  build_event e = true -> negb (is_saved e) = true.
Proof. destruct e; unfold build_event; simpl; congruence. Qed.

(** X16: with [-o], whatever the other options, [main] never runs the PEX
    it builds and never ends in a [sys.exit]: once the arguments are parsed,
    it returns, dies or raises. *)
Theorem save_path_never_runs (w : World) (args : option (list string))
    (options : Options) (cmdline : list string) (name : string) :
  parsed w args = Some (options, cmdline) ->
  pex_name options = Some name ->
  emits (fun e => negb (is_run e)) (main w args)
  /\ no_exit (main w args).
Proof.
  intros Hp Hname. split.
  - apply (emits_main_parsed _ w args options cmdline Hp); [done|].
    apply emits_main_from_options; [by intros []|].
    intros rc root tmp. unfold main_build, TRACER_timed. rewrite Hname.
    apply emits_bind; [by apply emits_tell|]. intros _.
    apply emits_bind.
    { apply emits_bind; [by apply emits_tell|]. intros _.
      eapply emits_weaken; [apply build_event_not_run|apply emits_build_pex]. }
    intros b. apply emits_bind; [by apply emits_tell|]. intros _.
    apply emits_bind; [by apply emits_log|]. intros _.
    apply emits_bind; [by apply emits_tell|]. intros _.
    destruct (negb _); [|apply emits_ret].
    apply emits_bind; [by apply emits_seed_cache_gen|].
    intros info. by apply emits_tell.
  - apply (no_exit_main_parsed w args options cmdline Hp).
    apply no_exit_main_from_options.
    intros rc root tmp. unfold main_build, TRACER_timed. rewrite Hname.
    apply no_exit_bind; [apply no_exit_tell|]. intros _.
    apply no_exit_bind.
    { apply no_exit_bind; [apply no_exit_tell|]. intros _. apply no_exit_build_pex. }
    intros b. apply no_exit_bind; [apply no_exit_tell|]. intros _.
    apply no_exit_bind; [apply no_exit_log|]. intros _.
    apply no_exit_bind; [apply no_exit_tell|]. intros _.
    destruct (negb _); [|apply no_exit_ret].
    apply no_exit_bind; [apply no_exit_seed_cache|].
    intros info. apply no_exit_tell.
Qed.

Lemma save_path_never_runs_witness :
  let args := Some ["-o"; "app.pex"; "--seed"; "--"; "--version"] in
  let options := options_with [] [] [] false None None None None false None None None
                              [] (Some "app.pex") None Seed_ARGS "/tmp" in
  parsed example_world args = Some (options, ["--version"])
  /\ emits (fun e => negb (is_run e)) (main example_world args)
  /\ no_exit (main example_world args).
Proof.
  intros args options. split; [reflexivity|].
  exact (save_path_never_runs example_world args options ["--version"] "app.pex"
           eq_refl eq_refl).
Defined.

(** Prepending events that save nothing to a run that saves only by
    running. *)
Lemma saves_only_by_running_bind {A} (w : World) (cmdline : list string)
    (m : M A) (k : A -> M unit) :
  emits (fun e => negb (is_saved e)) m ->
  (forall a s, saves_only_by_running w cmdline (k a s)) ->
  forall s, saves_only_by_running w cmdline (bind m k s).
Proof.
  intros Hm Hk s. unfold bind.
  destruct (m s) as [[r1 s1] t1] eqn:Em. apply Hm in Em.
  destruct r1 as [a|msg st|c|e].
  - specialize (Hk a s1). destruct (k a s1) as [[r2 s2] t2].
    destruct Hk as (Hr & before & after & Ht & Hb & Ha). cbn [fst snd] in *.
    split; [done|]. exists (t1 ++ before), after.
    split; [by rewrite Ht, app_assoc|]. split; [by rewrite forallb_app, Em, Hb|].
    exact Ha.
  - split; [done|]. exists t1, []. cbn. rewrite app_nil_r. auto.
  - split; [done|]. exists t1, []. cbn. rewrite app_nil_r. auto.
  - split; [done|]. exists t1, []. cbn. rewrite app_nil_r. auto.
Qed.

Lemma main_build_saves_only_by_running (w : World) (options : Options)
    (cmdline : list string) (rc : ResolveConfiguration) (root tmp : string)
    (s : State) :
  pex_name options = None ->
  saves_only_by_running w cmdline (main_build w options cmdline rc root tmp s).
Proof.
  intros Hname. unfold main_build, TRACER_timed. rewrite Hname.
  apply saves_only_by_running_bind; [by apply emits_tell|]. intros _ s0.
  apply saves_only_by_running_bind.
  { apply emits_bind; [by apply emits_tell|]. intros _.
    eapply emits_weaken; [apply build_event_not_saved|apply emits_build_pex]. }
  intros b s1.
  apply saves_only_by_running_bind; [by apply emits_tell|]. intros _ s2.
  apply saves_only_by_running_bind.
  { destruct (negb _); [|apply emits_ret].
    apply emits_bind; [by apply emits_log|]. intros _. by apply emits_log. }
  intros _ s3.
  apply saves_only_by_running_bind; [by apply emits_log|]. intros _ s4.
  unfold bind, tell, pex_run, sys_exit.
  destruct (w_run w _ cmdline _ s4) as [[code s5] t5] eqn:Hrun.
  split; [done|]. eexists [], _. split; [reflexivity|]. split; [reflexivity|].
  right. eexists _, _, s4. rewrite Hrun. cbn [fst snd app].
  by rewrite app_nil_r.
Qed.

(** X17: without [-o], whatever the other options, [main] never returns
    normally once its arguments are parsed, and it writes no PEX file, seeds
    no cache, creates no venv and prints nothing on the standard output
    itself: whatever of this happens is done by the PEX that [main] runs as
    its last step, after every other event, and [main] then exits with the
    status and in the state of that run. *)
Theorem run_path_saves_nothing (w : World) (args : option (list string))
    (options : Options) (cmdline : list string) (s : State) :
  parsed w args = Some (options, cmdline) ->
  pex_name options = None ->
  saves_only_by_running w cmdline (main w args s).
Proof.
  intros Hp Hname. rewrite (main_parsed w args options cmdline s Hp).
  assert (H : saves_only_by_running w cmdline (main_from_options w options cmdline s)).
  { unfold main_from_options.
    apply saves_only_by_running_bind; [by apply emits_main_tmpdir; intros []|].
    intros tmp s2.
    apply saves_only_by_running_bind; [by apply emits_main_cache_dir; intros []|].
    intros _ s3.
    apply saves_only_by_running_bind; [by apply emits_main_pex_root; intros []|].
    intros root s4.
    apply saves_only_by_running_bind;
      [by apply emits_main_python_conflict; intros []|].
    intros _ s5.
    apply saves_only_by_running_bind;
      [by apply emits_main_resolve_configuration; intros []|].
    intros rc s6. by apply main_build_saves_only_by_running. }
  destruct (main_from_options w options cmdline s) as [[r s'] t].
  destruct H as (Hr & before & after & Ht & Hb & Ha). cbn [fst snd] in *.
  split; [done|]. exists (EvProbe ProbeCurrent :: before), after.
  split; [by rewrite Ht|]. by split.
Qed.

Lemma run_path_saves_nothing_witness :
  let args := Some ["--"; "--version"] in
  parsed example_world args = Some (default_options, ["--version"])
  /\ saves_only_by_running example_world ["--version"]
       (main example_world args initial_state).
Proof.
  intros args. split; [reflexivity|].
  exact (run_path_saves_nothing example_world args default_options ["--version"]
           initial_state eq_refl eq_refl).
Defined.

(** On the example machine the PEX that is run prints its arguments:
    the standard output of [main] without [-o] is that of the PEX. *)
Lemma run_path_output_example :
  List.filter is_stdout (main example_world (Some ["--"; "--version"]) initial_state).2
  = [EvStdout "--version"]
  /\ (main example_world (Some ["--"; "--version"]) initial_state).1.1 = Exited 0.
Proof. split; by_evaluation. Qed.

(** ** The checks before the build (lines 891-933) *)

(** X18: without [--disable-cache], once the arguments are parsed and the
    temporary directory and the [--cache-dir]/[--pex-root] pair pass their
    checks, [main] creates no temporary directory and changes no state before
    the build, and the cache root it continues with is the [--pex-root]
    value whenever that is non-empty, else the [--cache-dir] value when that
    is non-empty, else [ENV.PEX_ROOT]. *)
Theorem cache_root_precedence (w : World) (args : option (list string))
    (options : Options) (cmdline : list string) (s : State) :
  parsed w args = Some (options, cmdline) ->
  disable_cache options = false ->
  w_exists w (w_realpath w (tmpdir options)) = true ->
  w_isdir w (w_realpath w (tmpdir options)) = true ->
  truthy (cache_dir options) && truthy (pex_root options)
  && negb (bool_decide (cache_dir options = pex_root options)) = false ->
  exists root,
    main w args s
    = (let '(r, s', t) :=
         main_from_pex_root w options cmdline root
           (w_realpath w (tmpdir options)) s in
       (r, s',
        EvProbe ProbeCurrent
        :: EvSetTmpdir (w_realpath w (tmpdir options))
        :: (if truthy (cache_dir options) then [EvWarn warn_cache_dir] else [])
        ++ t))
    /\ (if truthy (pex_root options) then pex_root options = Some root
        else if truthy (cache_dir options) then cache_dir options = Some root
        else root = w_ENV_PEX_ROOT w).
Proof.
  intros Hp Hd He Hi Hc.
  exists (or_else (cache_dir options) (or_else (pex_root options) (w_ENV_PEX_ROOT w))).
  split.
  - rewrite (main_parsed w args options cmdline s Hp).
    unfold main_from_options. unfold bind at 1.
    rewrite (main_tmpdir_ok w options s He Hi).
    unfold bind at 1. rewrite (main_cache_dir_ok options s Hc).
    unfold bind at 1. unfold main_pex_root at 1. rewrite Hd. unfold ret at 1.
    unfold main_from_pex_root.
    destruct ((main_python_conflict options;;
               resolve_configuration <- main_resolve_configuration w options;;
               main_build w options cmdline resolve_configuration _ _) s)
      as [[r s'] t].
    cbn [app]. rewrite ?app_nil_r. reflexivity.
  - unfold or_else.
    destruct (cache_dir options) as [c|] eqn:Ec, (pex_root options) as [p|] eqn:Ep;
      try destruct (truthy (Some c)) eqn:Tc; try destruct (truthy (Some p)) eqn:Tp;
      cbn [truthy andb] in *; try done.
    apply negb_false_iff, bool_decide_eq_true_1 in Hc. by rewrite Hc.
Qed.

Lemma cache_root_precedence_witness :
  let args := Some ["--cache-dir"; "/var/pex"; "--pex-root"; "/var/pex"] in
  let options := options_with [] [] [] false None None (Some "/var/pex")
                              (Some "/var/pex") false None None None [] None None
                              Seed_NONE "/tmp" in
  parsed example_world args = Some (options, [])
  /\ exists root,
       main example_world args initial_state
       = (let '(r, s', t) :=
            main_from_pex_root example_world options [] root "/tmp" initial_state in
          (r, s',
           EvProbe ProbeCurrent :: EvSetTmpdir "/tmp" :: [EvWarn warn_cache_dir] ++ t))
       /\ Some "/var/pex" = Some root.
Proof.
  intros args options. split; [reflexivity|].
  exact (cache_root_precedence example_world args options [] initial_state
           eq_refl eq_refl eq_refl eq_refl eq_refl).
Defined.

Lemma invalid_configuration_from_options (w : World) (options : Options)
    (cmdline : list string) (s : State) (msg : string) :
  w_create_resolve_configuration w options = inl msg ->
  exists m s' t,
    main_from_options w options cmdline s = (Died m DieDefault, s', t)
    /\ forallb prelude_event t = true
    /\ (w_exists w (w_realpath w (tmpdir options)) = true ->
        w_isdir w (w_realpath w (tmpdir options)) = true ->
        truthy (cache_dir options) && truthy (pex_root options)
        && negb (bool_decide (cache_dir options = pex_root options)) = false ->
        nonempty (python options) && nonempty (interpreter_constraint options)
        = false ->
        m = msg).
Proof.
  intros Hrc.
  unfold main_from_options, main_tmpdir, main_cache_dir, main_pex_root,
    main_python_conflict, main_resolve_configuration, warn_ignore_pex_root,
    pex_warnings_warn, safe_mkdtemp, try_except, bind, tell, ret, die, raise.
  rewrite Hrc.
  destruct (w_exists w _); cbn [negb]; [|by eexists _, _, _].
  destruct (w_isdir w _); cbn [negb]; [|by eexists _, _, _].
  destruct (truthy (cache_dir options));
    destruct (truthy (pex_root options)); cbn [andb];
    try destruct (bool_decide _); cbn [negb];
    try (by eexists _, _, _);
    destruct (disable_cache options);
    try destruct (truthy (w_environ_PEX_ROOT w));
    destruct (nonempty (python options) && nonempty (interpreter_constraint options));
    eexists _, _, _; (split; [reflexivity|]); (split; [reflexivity|]);
    intros; congruence.
Qed.

(** X19: when the arguments are parsed and [create_resolve_configuration]
    rejects the namespace, [main] always dies with the default status, before
    the environment is patched and before anything is resolved, built or
    run; no interpreter is probed for the build, the one interpreter query
    being that of [configure_clp] (line 320); when the earlier checks pass,
    the message is the one of the rejection, unchanged. *)
Theorem invalid_resolve_configuration (w : World) (args : option (list string))
    (options : Options) (cmdline : list string) (s : State) (msg : string) :
  parsed w args = Some (options, cmdline) ->
  w_create_resolve_configuration w options = inl msg ->
  exists m s' t,
    main w args s = (Died m DieDefault, s', EvProbe ProbeCurrent :: t)
    /\ forallb prelude_event t = true
    /\ (w_exists w (w_realpath w (tmpdir options)) = true ->
        w_isdir w (w_realpath w (tmpdir options)) = true ->
        truthy (cache_dir options) && truthy (pex_root options)
        && negb (bool_decide (cache_dir options = pex_root options)) = false ->
        nonempty (python options) && nonempty (interpreter_constraint options)
        = false ->
        m = msg).
Proof.
  intros Hp Hrc.
  destruct (invalid_configuration_from_options w options cmdline s msg Hrc)
    as (m & s' & t & Hmain & Hpre & Hmsg).
  exists m, s', t. rewrite (main_parsed w args options cmdline s Hp), Hmain.
  by repeat split.
Qed.

Lemma invalid_resolve_configuration_witness :
  parsed offline_registry_world (Some []) = Some (default_options, [])
  /\ exists s' t,
       main offline_registry_world (Some []) initial_state
       = (Died "Cannot mix --index and --pex-repository." DieDefault, s',
          EvProbe ProbeCurrent :: t)
       /\ forallb prelude_event t = true.
Proof.
  split; [reflexivity|].
  destruct (invalid_resolve_configuration offline_registry_world (Some [])
              default_options [] initial_state
              "Cannot mix --index and --pex-repository." eq_refl eq_refl)
    as (m & s' & t & Hmain & Hpre & Hmsg).
  exists s', t. split; [|exact Hpre].
  rewrite Hmain. by rewrite (Hmsg eq_refl eq_refl eq_refl eq_refl).
Defined.

(** X20: the temporary directory is the first thing [main] checks once its
    arguments are parsed: when it does not exist or is not a directory,
    [main] dies with the default status, whatever the other options say,
    having done nothing but build its parser, for which it identifies the
    current interpreter (line 320), and parse the arguments; a missing path
    is reported as missing, not as a non-directory. *)
Theorem tmpdir_checked_first (w : World) (args : option (list string))
    (options : Options) (cmdline : list string) (s : State) :
  parsed w args = Some (options, cmdline) ->
  w_exists w (w_realpath w (tmpdir options))
  && w_isdir w (w_realpath w (tmpdir options)) = false ->
  main w args s
  = (Died ((if w_exists w (w_realpath w (tmpdir options))
            then "The specified --tmpdir is not a directory: "
            else "The specified --tmpdir does not exist: ")
           +:+ w_realpath w (tmpdir options)) DieDefault, s,
     [EvProbe ProbeCurrent]).
Proof.
  intros Hp H. rewrite (main_parsed w args options cmdline s Hp).
  unfold main_from_options, main_tmpdir, bind, die, ret.
  destruct (w_exists w _); cbn [negb andb] in *; [|reflexivity].
  rewrite H. reflexivity.
Qed.

Lemma tmpdir_checked_first_witness :
  let args := Some ["--python"; "python3.9"; "--interpreter-constraint"; ">=3.8";
                    "--disable-cache"; "--cache-dir"; "/a"; "--pex-root"; "/b";
                    "--tmpdir"; "/no/such/dir"] in
  let options := options_with ["python3.9"] [">=3.8"] [] false None None
                              (Some "/a") (Some "/b") true None None None [] None
                              None Seed_NONE "/no/such/dir" in
  parsed example_world args = Some (options, [])
  /\ main example_world args initial_state
     = (Died "The specified --tmpdir does not exist: /no/such/dir" DieDefault,
        initial_state, [EvProbe ProbeCurrent]).
Proof.
  intros args options. split; [reflexivity|].
  exact (tmpdir_checked_first example_world args options [] initial_state
           eq_refl eq_refl).
Defined.

(** ** Platform compatibility (lines 870-875) *)

(** X21: what [_compatible_with_current_platform] returns is true exactly
    when no platform was declared, or the current platform ([None]) is among
    the declared ones, or one of the declared platforms is supported by the
    interpreter. *)
Theorem compatible_with_current_platform_iff (interpreter : PythonInterpreter)
    (platforms : list PlatformTag) :
  compatible_truthy (_compatible_with_current_platform interpreter platforms) = true
  <-> platforms = []
      \/ None ∈ platforms
      \/ exists p, Some p ∈ platforms /\ p ∈ supported_platforms interpreter.
Proof.
  unfold _compatible_with_current_platform.
  destruct platforms as [|t0 l]; [cbn; tauto|].
  cbn [nonempty negb compatible_truthy].
  rewrite negb_true_iff, bool_decide_eq_false.
  set (declared := t0 :: l).
  split.
  - intros Hne. right.
    apply set_choose_L in Hne as [tag Htag].
    apply elem_of_intersection in Htag as [Hcur Hdecl].
    apply elem_of_list_to_set in Hdecl.
    apply elem_of_union in Hcur as [Hsup|Hnone].
    + apply elem_of_map in Hsup as (p & -> & Hp). right. by exists p.
    + apply elem_of_singleton in Hnone. left. by rewrite <- Hnone.
  - intros [Hnil|[Hnone|(p & Hin & Hp)]]; [done| |].
    + intros Hempty.
      assert (None ∈ (∅ : gset PlatformTag)) as Hbad; [|set_solver].
      rewrite <- Hempty. apply elem_of_intersection.
      split; [apply elem_of_union; right; by apply elem_of_singleton|].
      by apply elem_of_list_to_set.
    + intros Hempty.
      assert (Some p ∈ (∅ : gset PlatformTag)) as Hbad; [|set_solver].
      rewrite <- Hempty. apply elem_of_intersection. split.
      * apply elem_of_union. left. apply elem_of_map. by exists p.
      * by apply elem_of_list_to_set.
Qed.

(** ** The order of the platform matching *)

Lemma claimant_cons (c0 : PythonInterpreter) (cs : list PythonInterpreter)
    (t : PlatformTag) :
  claimant (c0 :: cs) t = if claims c0 t then Some c0 else claimant cs t.
Proof. reflexivity. Qed.

Lemma claimant_elem (cs : list PythonInterpreter) (t : PlatformTag) c :
  claimant cs t = Some c -> c ∈ cs.
Proof.
  unfold claimant. intros H. apply find_some in H as [H _].
  by apply list_elem_of_In.
Qed.

Lemma match_loop_fst (cs : list PythonInterpreter) :
  forall P I,
    fst (match_loop cs (P, I)) = filter (fun t => claimant cs t = None) P.
Proof.
  induction cs as [|c0 cs IH]; intros P I; cbn [match_loop fst snd].
  - symmetry. by apply filter_all.
  - rewrite IH. clear IH. induction P as [|t P IHP]; [done|].
    rewrite !(filter_cons _ t), claimant_cons.
    destruct (claims c0 t) eqn:Hc.
    + rewrite decide_False by done. rewrite (decide_False (P:=Some c0 = None)) by done.
      exact IHP.
    + rewrite decide_True by done. rewrite (filter_cons _ t).
      destruct (decide (claimant cs t = None)); by rewrite IHP.
Qed.

Lemma existsb_ext_in {A} (f g : A -> bool) (l : list A) :
  (forall x, In x l -> f x = g x) -> existsb f l = existsb g l.
Proof.
  induction l as [|x l IH]; [done|]. intros H. cbn.
  rewrite (H x) by (by left). rewrite IH; [done|].
  intros y Hy. apply H. by right.
Qed.

Lemma existsb_filter_claims (c0 : PythonInterpreter) (f : PlatformTag -> bool)
    (P : list PlatformTag) :
  existsb f (filter (fun t => claims c0 t = false) P)
  = existsb (fun t => negb (claims c0 t) && f t) P.
Proof.
  induction P as [|t P IH]; [done|].
  rewrite (filter_cons _ t). cbn [existsb].
  destruct (claims c0 t) eqn:Hc.
  - rewrite decide_False by done. by rewrite IH.
  - rewrite decide_True by done. cbn. by rewrite IH.
Qed.

Lemma filter_ext_in_bool {A} (f g : A -> bool) (l : list A) :
  (forall x, In x l -> f x = g x) -> List.filter f l = List.filter g l.
Proof.
  induction l as [|x l IH]; [done|]. intros H. cbn.
  rewrite (H x) by (by left). rewrite IH; [done|].
  intros y Hy. apply H. by right.
Qed.

Lemma match_loop_snd (cs : list PythonInterpreter) :
  NoDup cs ->
  forall P I,
    snd (match_loop cs (P, I))
    = I ++ List.filter
             (fun c => existsb (fun t => bool_decide (claimant cs t = Some c)) P) cs.
Proof.
  induction cs as [|c0 cs IH]; intros Hnd P I; cbn [match_loop fst snd].
  - by rewrite app_nil_r.
  - apply NoDup_cons in Hnd as [Hc0 Hnd].
    rewrite (IH Hnd). clear IH. cbn [List.filter].
    assert (Hhead :
      existsb (fun t => bool_decide (claimant (c0 :: cs) t = Some c0)) P
      = existsb (claims c0) P).
    { apply existsb_ext_in. intros t _. rewrite claimant_cons.
      destruct (claims c0 t) eqn:Hc; [by rewrite bool_decide_eq_true_2|].
      apply bool_decide_eq_false_2. intros H. by apply claimant_elem in H. }
    rewrite Hhead.
    assert (Htail :
      List.filter
        (fun c => existsb (fun t => bool_decide (claimant cs t = Some c))
                    (filter (fun t => claims c0 t = false) P)) cs
      = List.filter
          (fun c => existsb (fun t => bool_decide (claimant (c0 :: cs) t = Some c)) P)
          cs).
    { apply filter_ext_in_bool. intros c Hc.
      rewrite existsb_filter_claims. apply existsb_ext_in. intros t _.
      rewrite claimant_cons. destruct (claims c0 t); cbn; [|done].
      symmetry. apply bool_decide_eq_false_2. intros [= ->].
      apply Hc0. by apply list_elem_of_In. }
    rewrite Htail.
    destruct (existsb (claims c0) P); [by rewrite <- app_assoc|done].
Qed.

Lemma local_candidates_NoDup (w : World) (path : option string) :
  NoDup (local_candidates w path).
Proof. apply OrderedSet_add_NoDup, OrderedSet_NoDup. Qed.

(** X22: with [--resolve-local-platforms] and at least one declared
    platform, the matching keeps every order: the tags left for binary-only
    resolution are the declared tags no local candidate supports, without
    duplicates and in the order of declaration; the interpreters selected
    before stay first, in their order, and after them come the candidates
    that are the first supporter of some declared tag, in discovery order, a
    candidate that was already selected being listed again. *)
Theorem platform_matching_order (w : World) (options : Options)
    (path : option string) (interpreters : list PythonInterpreter) (s : State) :
  nonempty (platforms options) = true ->
  resolve_local_platforms options = true ->
  exists t,
    build_pex_platforms w options path interpreters s
    = (Ok (filter (fun tag => claimant (local_candidates w path) tag = None)
             (OrderedSet (platforms options)),
           interpreters
           ++ List.filter
                (fun c =>
                   existsb
                     (fun tag =>
                        bool_decide (claimant (local_candidates w path) tag = Some c))
                     (OrderedSet (platforms options)))
                (local_candidates w path)),
       s, t).
Proof.
  intros Hne Hflag.
  destruct (build_pex_platforms_run w options path interpreters s) as (t & Hrun & _).
  exists t. rewrite Hrun. unfold platforms_result. rewrite Hne, Hflag. cbn [andb].
  pose proof (match_loop_fst (local_candidates w path)
                (OrderedSet (platforms options)) interpreters) as Hfst.
  pose proof (match_loop_snd (local_candidates w path)
                (local_candidates_NoDup w path)
                (OrderedSet (platforms options)) interpreters) as Hsnd.
  destruct (match_loop (local_candidates w path)
              (OrderedSet (platforms options), interpreters)) as [P I].
  cbn [fst snd] in *. by rewrite Hfst, Hsnd.
Qed.

Lemma platform_matching_order_witness :
  let options := options_with [] [] [Some macos_cp39; Some linux_cp39; Some macos_cp39]
                              true None None None None false None None None [] None
                              None Seed_NONE "/tmp" in
  exists t,
    build_pex_platforms example_world options None [py38] initial_state
    = (Ok ([Some macos_cp39], [py38; py39]), initial_state, t).
Proof.
  intros options.
  destruct (platform_matching_order example_world options None [py38] initial_state
              eq_refl eq_refl) as [t Ht].
  exists t. rewrite Ht. reflexivity.
Defined.

(** ** Seeding a venv *)


